(** * stock-webhook: the ingestion-and-retention store

    A shallow embedding of [store.js] (enforceRetention, decodeUtf8Strict,
    writeBodyToFile) and of the request handlers of [stockhook.js]
    (invalidId, handlePostWebhook, handleGetIndex, handleGetView,
    handleGetRaw), together with the properties the specification states
    about them. A second part embeds the rest of what can be read as
    functions: [readFileMax], the router of [createServer] and
    [handleGetMock], [config.js], [getProvidedToken] of [auth.js],
    [htmlEscape], [getByPath] and [firstNonEmptyLine] of [render/utils.js],
    and [allocateHeadingId] of [render/markdown.js], with properties read
    off the code.

    Conventions.
    - A JavaScript string is a [string]: its text in UTF-8 form, well
      formed. White space and the order of [sort] are those of the UTF-16
      text it stands for.
    - A [Buffer] and a stream chunk are [list byte].
    - The data directory is a finite map from entry names to file contents;
      every handler threads a [world], which also records the file-system
      calls made, in order. The directory exists and the server may use
      it, as [main] sees to before it listens: [mkdir(dir)] and
      [readdir(dir)] return.
    - Library code the sources call but do not define (V8's JSON, the HTML
      renderer) is an interface, [JsRuntime]; SHA-256 is symbolic. *)

From Stdlib Require Import ZArith.
From Stdlib.Strings Require Import Ascii Byte.
From stdpp Require Import gmap strings list sorting pretty.

#[local] Open Scope Z_scope.

(** ** ECMAScript string methods *)

Module Js.

(** White space, as [String.prototype.trim] and [parseInt] understand it:
    the characters of the classes WhiteSpace and LineTerminator of
    ECMAScript, each by the bytes that write it in UTF-8. In one byte: TAB,
    LF, VT, FF, CR and SPACE. *)
Definition is_space (c : ascii) : bool := Ascii.is_space c.

(** In two bytes: U+00A0 NO-BREAK SPACE, [C2 A0]. *)
Definition is_space2 (a b : ascii) : bool :=
  (N_of_ascii a =? 194)%N && (N_of_ascii b =? 160)%N.

(** In three bytes: U+1680, [E1 9A 80]; U+2000 to U+200A, [E2 80 80] to
    [E2 80 8A]; U+2028 and U+2029, [E2 80 A8] and [E2 80 A9]; U+202F,
    [E2 80 AF]; U+205F, [E2 81 9F]; U+3000, [E3 80 80]; and U+FEFF,
    [EF BB BF]. *)
Definition is_space3 (a b c : ascii) : bool :=
  let x := N_of_ascii a in
  let y := N_of_ascii b in
  let z := N_of_ascii c in
  ((x =? 225) && (y =? 154) && (z =? 128)
   || (x =? 226) && (y =? 128) &&
        ((128 <=? z) && (z <=? 138) || (z =? 168) || (z =? 169) || (z =? 175))
   || (x =? 226) && (y =? 129) && (z =? 159)
   || (x =? 227) && (y =? 128) && (z =? 128)
   || (x =? 239) && (y =? 187) && (z =? 191))%N.

(** What follows the white-space character [s] starts with, if it starts
    with one. *)
Definition skip_space (s : string) : option string :=
  match s with
  | String a r =>
      if is_space a then Some r
      else
        match r with
        | String b r2 =>
            if is_space2 a b then Some r2
            else
              match r2 with
              | String c r3 => if is_space3 a b c then Some r3 else None
              | EmptyString => None
              end
        | EmptyString => None
        end
  | EmptyString => None
  end.

(** [s.trimStart()] *)
Fixpoint trimStart (s : string) : string :=
  match s with
  | String a r =>
      if is_space a then trimStart r
      else
        match r with
        | String b r2 =>
            if is_space2 a b then trimStart r2
            else
              match r2 with
              | String c r3 => if is_space3 a b c then trimStart r3 else s
              | EmptyString => s
              end
        | EmptyString => s
        end
  | EmptyString => EmptyString
  end.

(** Whether [s] is white space only. *)
Definition blank (s : string) : bool := String.eqb (trimStart s) "".

(** [s.trimEnd()]: [s] is cut at the first place from which white space
    only follows. No white-space character starts with a byte that
    continues a character, so in well-formed UTF-8 that place is never
    inside a character. *)
Fixpoint trimEnd (s : string) : string :=
  match s with
  | EmptyString => EmptyString
  | String a r => if blank s then EmptyString else String a (trimEnd r)
  end.

(** [s.trim()] *)
Definition trim (s : string) : string := trimEnd (trimStart s).

(** [s.startsWith(p)] *)
Definition startsWith (p s : string) : bool := String.prefix p s.

(** [s.includes(p)] *)
Fixpoint includes (p s : string) : bool :=
  startsWith p s ||
  match s with
  | EmptyString => false
  | String _ r => includes p r
  end.

(** [s.endsWith(p)] *)
Fixpoint endsWith (p s : string) : bool :=
  String.eqb s p ||
  match s with
  | EmptyString => false
  | String _ r => endsWith p r
  end.

(** [s.split(';')[0]] *)
Fixpoint before_semicolon (s : string) : string :=
  match s with
  | EmptyString => EmptyString
  | String c r =>
      if Ascii.eqb c ";" then EmptyString else String c (before_semicolon r)
  end.

Definition digit_value (c : ascii) : option Z :=
  Z.of_nat <$> Ascii.is_nat c.

Fixpoint all_digits (s : string) : bool :=
  match s with
  | EmptyString => true
  | String c r => bool_decide (is_Some (digit_value c)) && all_digits r
  end.

(** [/^\d+$/.test(s)] *)
Definition is_decimal (s : string) : bool :=
  negb (String.eqb s "") && all_digits s.

Fixpoint parseInt_go (acc : Z) (s : string) : Z :=
  match s with
  | EmptyString => acc
  | String c r =>
      match digit_value c with
      | Some d => parseInt_go (10 * acc + d) r
      | None => acc
      end
  end.

(** [Number.parseInt(s, 10)] on a string of decimal digits. *)
Definition parseInt (s : string) : Z := parseInt_go 0 s.

(** [String(n).padStart(w, '0')] for a natural number. *)
Definition padStart0 (w : nat) (n : N) : string :=
  let s := pretty n in
  String.concat "" (replicate (w - String.length s) "0") +:+ s.

(** [String(v || d)]: an absent or empty string value gives the default. *)
Definition string_or (v : option string) (d : string) : string :=
  match v with
  | Some s => if String.eqb s "" then d else s
  | None => d
  end.

(** [Array.prototype.sort()] without a comparator orders strings by their
    UTF-16 code units. On text in UTF-8 form that is the order of the bytes,
    but for one thing: a character above U+FFFF, two surrogates (D800 to
    DFFF) in UTF-16 and a first byte F0 to F4 in UTF-8, comes before the
    characters U+E000 to U+FFFF, whose first byte is EE or EF. [unit_rank]
    moves these first bytes accordingly and keeps every other byte. *)
Definition unit_rank (c : ascii) : ascii :=
  let n := N_of_ascii c in
  if (238 <=? n)%N && (n <=? 239)%N then ascii_of_N (n + 5)
  else if (240 <=? n)%N && (n <=? 244)%N then ascii_of_N (n - 2)
  else c.

Fixpoint sort_key (s : string) : string :=
  match s with
  | EmptyString => EmptyString
  | String c r => String (unit_rank c) (sort_key r)
  end.

(** [a] is no later than [b] in the order of [sort()]. *)
Definition sort_le (a b : string) : Prop := String.le (sort_key a) (sort_key b).

#[global] Instance sort_le_dec : RelDecision sort_le :=
  fun a b => String.le_dec (sort_key a) (sort_key b).

End Js.

(** ** Buffers: UTF-8 and base64 *)

Module Buffer.

#[global] Instance byte_eq_dec : EqDecision byte := Byte.byte_eq_dec.

Definition bytes_of (s : string) : list byte := String.list_byte_of_string s.
Definition text_of (b : list byte) : string := String.string_of_list_byte b.

(** One step of the output of a UTF-8 decoder: a well-formed scalar value
    (kept as the bytes that encode it) or an ill-formed subsequence. *)
Inductive item := Scalar (enc : list byte) | Malformed.

(** The decoder's reaction to a byte read while no sequence is open: an
    item, or the number of continuation bytes to read and the bounds of
    the first of them. *)
Definition lead (b : byte) : item + (nat * N * N) :=
  let n := Byte.to_N b in
  if (n <=? 127)%N then inl (Scalar [b])
  else if (194 <=? n)%N && (n <=? 223)%N then inr (1%nat, 128%N, 191%N)
  else if (224 <=? n)%N && (n <=? 239)%N then
    inr (2%nat, if (n =? 224)%N then 160%N else 128%N,
                if (n =? 237)%N then 159%N else 191%N)
  else if (240 <=? n)%N && (n <=? 244)%N then
    inr (3%nat, if (n =? 240)%N then 144%N else 128%N,
                if (n =? 244)%N then 143%N else 191%N)
  else inl Malformed.

(** The UTF-8 decoder of the Encoding standard, which both
    [TextDecoder('utf-8')] and [buf.toString('utf8')] follow: [pend] holds
    the bytes of the open sequence, [need] the continuation bytes still
    expected, [lo] and [hi] the bounds of the next one. A byte that cannot
    continue the open sequence closes it as ill-formed and is read again
    as a first byte. *)
Fixpoint items (pend : list byte) (need : nat) (lo hi : N)
    (bs : list byte) : list item :=
  match bs with
  | [] => match need with O => [] | S _ => [Malformed] end
  | b :: rest =>
      let fresh :=
        match lead b with
        | inl it => it :: items [] 0 128 191 rest
        | inr (n, lo', hi') => items [b] n lo' hi' rest
        end in
      match need with
      | O => fresh
      | S k =>
          if (lo <=? Byte.to_N b)%N && (Byte.to_N b <=? hi)%N then
            match k with
            | O => Scalar (pend ++ [b]) :: items [] 0 128 191 rest
            | S _ => items (pend ++ [b]) k 128 191 rest
            end
          else Malformed :: fresh
      end
  end.

Definition decode (bs : list byte) : list item := items [] 0 128 191 bs.

Definition well_formed (it : item) : bool :=
  match it with Scalar _ => true | Malformed => false end.

(** U+FFFD REPLACEMENT CHARACTER, in UTF-8. *)
Definition replacement : list byte := [xef; xbf; xbd].
(** U+FEFF BYTE ORDER MARK, in UTF-8. *)
Definition bom : list byte := [xef; xbb; xbf].

Definition item_bytes (it : item) : list byte :=
  match it with Scalar enc => enc | Malformed => replacement end.

(** [buf.toString('utf8')]: ill-formed input becomes U+FFFD. *)
Definition toString_utf8 (buf : list byte) : string :=
  text_of (concat (item_bytes <$> decode buf)).

(** [new TextDecoder('utf-8', { fatal: true }).decode(buf)]: [None] when it
    throws; a leading byte order mark is dropped. *)
Definition decode_fatal (buf : list byte) : option string :=
  let its := decode buf in
  if forallb well_formed its then
    Some (text_of (concat (item_bytes <$>
            match its with
            | Scalar enc :: rest =>
                if bool_decide (enc = bom) then rest else its
            | _ => its
            end)))
  else None.

Definition alphabet : list ascii :=
  String.list_ascii_of_string
    "ABCDEFGHIJKLMNOPQRSTUVWXYZabcdefghijklmnopqrstuvwxyz0123456789+/".

Definition sextet (n : N) : ascii :=
  nth (N.to_nat (n mod 64)%N) alphabet "="%char.

(** [buf.toString('base64')] *)
Fixpoint toString_base64 (buf : list byte) : string :=
  match buf with
  | [] => EmptyString
  | [a] =>
      let x := Byte.to_N a in
      String (sextet (x / 4)) (String (sextet (x * 16)) "==")
  | [a; b] =>
      let x := Byte.to_N a in
      let y := Byte.to_N b in
      String (sextet (x / 4)) (String (sextet (x * 16 + y / 16))
        (String (sextet (y * 4)) "="))
  | a :: b :: c :: rest =>
      let x := Byte.to_N a in
      let y := Byte.to_N b in
      let z := Byte.to_N c in
      String (sextet (x / 4)) (String (sextet (x * 16 + y / 16))
        (String (sextet (y * 4 + z / 64)) (String (sextet z)
          (toString_base64 rest))))
  end.

(** [Buffer.concat(list, totalLength)]: the chunks in order, cut or
    zero-filled to [totalLength]. *)
Definition concat_to (chunks : list (list byte)) (total : Z) : list byte :=
  let all := concat chunks in
  take (Z.to_nat total) all ++ replicate (Z.to_nat total - length all) x00.

Definition hex_digit (n : N) : ascii :=
  nth (N.to_nat (n mod 16)%N)
    (String.list_ascii_of_string "0123456789abcdef") "0"%char.

(** [buf.toString('hex')] *)
Fixpoint toString_hex (buf : list byte) : string :=
  match buf with
  | [] => EmptyString
  | b :: rest =>
      String (hex_digit (Byte.to_N b / 16))
        (String (hex_digit (Byte.to_N b)) (toString_hex rest))
  end.

End Buffer.

(** ** Data model *)

(** [crypto.createHash('sha256')]: a hasher is the bytes fed to it so far, and
    its hex digest is the term [Sha256Hex] of those bytes. *)
Inductive digest := Sha256Hex (data : list byte).

(** The record document of one ingested request, as the object literal of
    [handlePostWebhook] builds it. [body_json] is [None] for JavaScript's
    [null]. *)
Record record (J : Type) := {
  received_at : string;
  remote_addr : string;
  path : string;
  content_type : string;
  user_agent : string;
  body_file : string;
  body_size : Z;
  body_sha256 : digest;
  preview_truncated : bool;
  body_json : option J;
  body_text : option string;
  body_b64 : option string;
}.
Arguments received_at {J} _.
Arguments remote_addr {J} _.
Arguments path {J} _.
Arguments content_type {J} _.
Arguments user_agent {J} _.
Arguments body_file {J} _.
Arguments body_size {J} _.
Arguments body_sha256 {J} _.
Arguments preview_truncated {J} _.
Arguments body_json {J} _.
Arguments body_text {J} _.
Arguments body_b64 {J} _.

(** One row of the index page: [{ name, when, size, title }]. *)
Record row := { name : string; when : string; size : string; title : string }.

(** What the sources take from V8 and from the rendering layer. *)
Class JsRuntime := {
  (** JavaScript values, as [JSON.parse] returns them. *)
  json : Type;
  (** [JSON.parse(text)]; [None] when it throws. *)
  JSON_parse : string -> option json;
  (** The bytes [writeFile(p, JSON.stringify(record, null, 2), 'utf8')]
      stores. *)
  stringify_utf8 : record json -> list byte;
  (** [JSON.parse(await readFile(p, 'utf8'))] on a file that holds these
      bytes; [None] when it throws. *)
  parse_utf8 : list byte -> option json;
  (** [String(record.body_file || '')]; [None] when reading the property
      throws (the document is [null]). *)
  body_file_of : json -> option string;
  (** [String(record.content_type || 'application/octet-stream')] *)
  content_type_of : json -> string;
  (** The values of [receivedAt] and [title] when the [try] block of
      [handleGetIndex] is left, for a document that parsed. *)
  index_fields : json -> string * string;
  renderIndexPage : list row -> string;
  (** [renderViewPage(name, record, dir)], which reads the directory. *)
  renderViewPage : string -> json -> gmap string (list byte) -> string;
}.

(** [config.js]: the values read from the environment. *)
Record config := {
  maxBody : Z;
  previewLimit : Z;
  maxRecords : Z;
  readTokenRequired : bool;
  (** [String(process.env.STOCKHOOK_TOKEN || '').trim()] *)
  token : string;
}.

(** ** The data directory *)

(** A call of the [fs] module, by the entry it names. *)
Inductive fscall :=
  | Mkdir
  | Readdir
  | Stat (p : string)
  | Access (p : string)
  | ReadFile (p : string)
  | Unlink (p : string)
  | OpenWx (p : string)
  | Append (p : string)
  | WriteFile (p : string)
  | Rename (p q : string)
  | OpenRead (p : string)
  | Render.

Record world := {
  files : gmap string (list byte);
  (** the size [stat] reports for the directory itself *)
  dir_size : Z;
  calls : list fscall;
}.

Definition call (c : fscall) (w : world) : world :=
  {| files := files w; dir_size := dir_size w; calls := calls w ++ [c] |}.

Definition set_files (f : gmap string (list byte)) (w : world) : world :=
  {| files := f; dir_size := dir_size w; calls := calls w |}.

(** [path.join(dir, name)] is the directory itself for the name [.]. *)
Definition is_dir (p : string) : bool := String.eqb p ".".

(** [fs.promises.unlink(p)] inside [try { } catch { }]: a missing entry is
    no error to the caller. *)
Definition unlink (p : string) (w : world) : world :=
  call (Unlink p) (set_files (delete p (files w)) w).

(** [fs.promises.readdir(dir)] *)
Definition readdir (w : world) : list string * world :=
  ((map_to_list (files w)).*1, call Readdir w).

(** [fs.promises.readFile(p)]; [None] when it throws. *)
Definition readFile (p : string) (w : world) : option (list byte) * world :=
  (if is_dir p then None else files w !! p, call (ReadFile p) w).

(** [fs.promises.access(p, R_OK)]; [false] when it throws. *)
Definition access (p : string) (w : world) : bool * world :=
  (is_dir p || bool_decide (is_Some (files w !! p)), call (Access p) w).

(** [(await fs.promises.stat(p)).size]; [None] when it throws. *)
Definition stat_size (p : string) (w : world) : option Z * world :=
  (if is_dir p then Some (dir_size w)
   else (fun d => Z.of_nat (length d)) <$> files w !! p,
   call (Stat p) w).

(** What [fs.createReadStream(p)] delivers; [None] when the stream fails,
    as it does on a missing entry and on the directory. *)
Definition createReadStream (p : string) (w : world) : option (list byte) * world :=
  (if is_dir p then None else files w !! p, call (OpenRead p) w).

(** [fs.promises.rename(p, q)]; [false] when it throws, either because the
    source is missing or because the disk fails ([fault]). *)
Definition rename (fault : bool) (p q : string) (w : world) : bool * world :=
  let w := call (Rename p q) w in
  match files w !! p with
  | Some d =>
      if fault then (false, w)
      else (true, set_files (<[q := d]> (delete p (files w))) w)
  | None => (false, w)
  end.

(** [fs.promises.writeFile(p, data)] with the default flag [w], which
    creates the file or truncates it; [false] when the disk fails. *)
Definition writeFile (fault : bool) (p : string) (d : list byte) (w : world)
    : bool * world :=
  let w := call (WriteFile p) w in
  if fault then (false, w) else (true, set_files (<[p := d]> (files w)) w).

(** ** store.js *)

(** [names.sort().reverse()]: the names, the largest first. *)
Definition sorted_reversed (names : list string) : list string :=
  reverse (merge_sort Js.sort_le names).

(** The names of the record documents, newest first:
    [readdir(dir).filter(n => n.endsWith('.json'))], then [sort().reverse()]. *)
Definition documents (names : list string) : list string :=
  sorted_reversed (filter (fun n => Js.endsWith ".json" n = true) names).

(** The test both [enforceRetention] and [handleGetRaw] apply to a blob
    name read from a document. *)
Definition unsafe_name (bodyName : string) : bool :=
  Js.includes ".." bodyName || Js.includes "/" bodyName || Js.includes "\" bodyName.

Section Store.
Context {rt : JsRuntime}.

(** The value of [bodyName] after the first [try] of the loop of
    [enforceRetention], given what [readFile] returned. *)
Definition staleBodyName (text : option (list byte)) : string :=
  match text ≫= parse_utf8 with
  | Some record =>
      match body_file_of record with
      | Some s => Js.trim s
      | None => ""
      end
  | None => ""
  end.

(** The body of the loop of [enforceRetention], for one stale document. *)
Definition evict (w : world) (recordName : string) : world :=
  let '(text, w) := readFile recordName w in
  let bodyName := staleBodyName text in
  let w := unlink recordName w in
  if String.eqb bodyName "" then w
  else if unsafe_name bodyName then w
  else unlink bodyName w.

Definition enforceRetention (cfg : config) (w : world) : world :=
  let keep := maxRecords cfg in
  if keep <=? 0 then w
  else
    let '(names, w) := readdir w in
    let names := documents names in
    let stale := drop (Z.to_nat keep) names in
    foldl evict w stale.

Definition decodeUtf8Strict (buf : list byte) : option string :=
  Buffer.decode_fatal buf.

End Store.

(** The state of the closure of [writeBodyToFile] that its transform stream
    updates. *)
Module Tap.
Record state := {
  written : Z;
  hasher : list byte;
  previewChunks : list (list byte);
  previewBytes : Z;
}.
Definition init : state :=
  {| written := 0; hasher := []; previewChunks := []; previewBytes := 0 |}.
End Tap.

(** Why the promise of [writeBodyToFile] is rejected: the two errors of its
    transform, its own argument check, and the errors of the request stream
    and of the file. *)
Inductive failure :=
  | PAYLOAD_TOO_LARGE
  | TOO_MUCH_DATA
  | INVALID_MAX_BYTES
  | EEXIST
  | EIO
  | ECONNRESET.

(** [tap]'s [transform(chunk, _encoding, callback)]: [inl] when the callback
    gets an error, [inr] when the chunk is passed on. *)
Definition transform (maxBytes : Z) (expectedLength : option Z)
    (previewMax : Z) (t : Tap.state) (chunk : list byte)
    : failure + Tap.state :=
  let written := Tap.written t + Z.of_nat (length chunk) in
  if written >? maxBytes then inl PAYLOAD_TOO_LARGE
  else if match expectedLength with
          | Some e => written >? e
          | None => false
          end then inl TOO_MUCH_DATA
  else
    let hasher := Tap.hasher t ++ chunk in
    if Tap.previewBytes t <? previewMax then
      let take_ := Z.min (previewMax - Tap.previewBytes t) (Z.of_nat (length chunk)) in
      inr {| Tap.written := written;
             Tap.hasher := hasher;
             Tap.previewChunks := Tap.previewChunks t ++ [take (Z.to_nat take_) chunk];
             Tap.previewBytes := Tap.previewBytes t + take_ |}
    else
      inr {| Tap.written := written;
             Tap.hasher := hasher;
             Tap.previewChunks := Tap.previewChunks t;
             Tap.previewBytes := Tap.previewBytes t |}.

(** The write stream appends a chunk to the file it created. *)
Definition append (p : string) (chunk : list byte) (w : world) : world :=
  call (Append p) (set_files (alter (fun d => d ++ chunk) p (files w)) w).

(** [pipeline(req, tap, createWriteStream(outPath))] once the file is open:
    the chunks go through [tap] one by one and on to the file. [disk] is the
    index of the chunk whose write fails, if any; [aborted] tells that the
    request stream ends in an error (a client that disconnects) after the
    chunks listed. *)
Fixpoint pump (step : Tap.state -> list byte -> failure + Tap.state)
    (disk : option nat) (aborted : bool) (outPath : string)
    (i : nat) (t : Tap.state) (chunks : list (list byte)) (w : world)
    : (failure + Tap.state) * world :=
  match chunks with
  | [] => (if aborted then inl ECONNRESET else inr t, w)
  | chunk :: rest =>
      match step t chunk with
      | inl e => (inl e, w)
      | inr t' =>
          if bool_decide (disk = Some i) then (inl EIO, w)
          else pump step disk aborted outPath (S i) t' rest (append outPath chunk w)
      end
  end.

Record writeResult := {
  written : Z;
  bodySha256 : digest;
  preview : list byte;
}.

(** An incoming request, as far as the handlers read it. *)
Record request := {
  (** [getProvidedToken(req, url)] *)
  provided_token : string;
  header_content_length : option string;
  header_content_type : option string;
  header_user_agent : option string;
  socket_remoteAddress : string;
  url_pathname : string;
  (** [url.searchParams.get('id')] *)
  url_id : option string;
  (** The chunks the request stream delivers, and whether it then ends in
      an error instead of ending. *)
  chunks : list (list byte);
  aborted : bool;
}.

(** Disk errors met by one ingest, one field for each call that writes. *)
Record faults := {
  (** the index of the chunk the write stream fails to write *)
  write_body_fault : option nat;
  rename_body_fault : bool;
  write_record_fault : bool;
  rename_record_fault : bool;
}.

Definition no_faults : faults :=
  {| write_body_fault := None; rename_body_fault := false;
     write_record_fault := false; rename_record_fault := false |}.

(** [writeBodyToFile(req, outPath, { maxBytes, expectedLength })]. The flag
    [wx] makes the open fail when [outPath] exists. *)
Definition writeBodyToFile (cfg : config) (io : faults) (req : request)
    (outPath : string) (maxBytes : Z) (expectedLength : option Z) (w : world)
    : (failure + writeResult) * world :=
  if maxBytes <=? 0 then (inl INVALID_MAX_BYTES, w)
  else
    let previewMax := previewLimit cfg in
    let w := call (OpenWx outPath) w in
    match files w !! outPath with
    | Some _ => (inl EEXIST, w)
    | None =>
        let w := set_files (<[outPath := []]> (files w)) w in
        match pump (transform maxBytes expectedLength previewMax)
                (write_body_fault io) (aborted req) outPath 0 Tap.init
                (chunks req) w with
        | (inl e, w) => (inl e, w)
        | (inr t, w) =>
            (inr {| written := Tap.written t;
                    bodySha256 := Sha256Hex (Tap.hasher t);
                    preview := Buffer.concat_to (Tap.previewChunks t) (Tap.previewBytes t) |},
             w)
        end
    end.

(** ** http.js and auth.js *)

Inductive response :=
  (** [sendText(res, status, body)] *)
  | Text (status : Z) (body : string)
  (** [sendHtml(res, status, body)] *)
  | Html (status : Z) (body : string)
  (** the headers and the read stream of [handleGetRaw]: content type, file
      name, [Content-Length] when [stat] gave one, and the bytes streamed
      ([None] when the stream fails) *)
  | Download (ctype : string) (filename : string) (declared : option Z)
      (data : option (list byte)).

Definition line (s : string) : string := s +:+ String "010"%char EmptyString.

Definition safeCompareToken (provided expected : string) : bool :=
  if String.eqb provided "" || String.eqb expected "" then false
  else if negb (String.length provided =? String.length expected)%nat then false
  else String.eqb provided expected.

(** [requireToken(req, res, url)]: [None] when it returns [true], else the
    response it sent. *)
Definition requireToken (cfg : config) (req : request) : option response :=
  let expected := token cfg in
  if String.eqb expected "" then Some (Text 500 (line "server token not configured"))
  else if safeCompareToken (provided_token req) expected then None
  else Some (Text 401 (line "unauthorized")).

(** ** render/utils.js *)

(** [(num / den).toFixed(1)] for a power of two [den]: the quotient is
    exact, and of two tenths as near to it [toFixed] takes the larger. *)
Definition toFixed1 (num den : Z) : string :=
  let tenths := (num * 10 + den / 2) / den in
  pretty (tenths / 10) +:+ "." +:+ pretty (tenths mod 10).

Definition formatBytes (num : Z) : string :=
  if num <? 0 then pretty num
  else if num <? 1024 then pretty num +:+ " B"
  else if num <? 1024 * 1024 then toFixed1 num 1024 +:+ " KB"
  else if num <? 1024 * 1024 * 1024 then toFixed1 num (1024 * 1024) +:+ " MB"
  else toFixed1 num (1024 * 1024 * 1024) +:+ " GB".

(** ** stockhook.js *)

(** The fields of a [Date] that the two time stamps read. *)
Record utc := {
  getUTCFullYear : N;
  getUTCMonth : N;
  getUTCDate : N;
  getUTCHours : N;
  getUTCMinutes : N;
  getUTCSeconds : N;
}.

(** [utcNowIso()], for a year of four digits. *)
Definition utcNowIso (d : utc) : string :=
  Js.padStart0 4 (getUTCFullYear d) +:+ "-" +:+
  Js.padStart0 2 (getUTCMonth d + 1) +:+ "-" +:+
  Js.padStart0 2 (getUTCDate d) +:+ "T" +:+
  Js.padStart0 2 (getUTCHours d) +:+ ":" +:+
  Js.padStart0 2 (getUTCMinutes d) +:+ ":" +:+
  Js.padStart0 2 (getUTCSeconds d) +:+ "+00:00".

Definition utcNowStamp (d : utc) : string :=
  let y := Js.padStart0 4 (getUTCFullYear d) in
  let mo := Js.padStart0 2 (getUTCMonth d + 1) in
  let da := Js.padStart0 2 (getUTCDate d) in
  let hh := Js.padStart0 2 (getUTCHours d) in
  let mm := Js.padStart0 2 (getUTCMinutes d) in
  let ss := Js.padStart0 2 (getUTCSeconds d) in
  y +:+ mo +:+ da +:+ "T" +:+ hh +:+ mm +:+ ss +:+ "Z".

Definition invalidId (name : string) : bool :=
  let s := Js.trim name in
  if String.eqb s "" then true
  else if Js.includes ".." s then true
  else if Js.includes "/" s || Js.includes "\" s then true
  else false.

(** What one ingest takes from its surroundings: the clock when the names
    are made, [crypto.randomBytes(6)], the clock when the record is built,
    and the disk errors it meets. *)
Record ambient := {
  stamp_clock : utc;
  random6 : list byte;
  iso_clock : utc;
  io : faults;
}.

Definition recordNameOf (env : ambient) : string :=
  utcNowStamp (stamp_clock env) +:+ "-" +:+ Buffer.toString_hex (random6 env) +:+ ".json".

Definition bodyNameOf (env : ambient) : string :=
  utcNowStamp (stamp_clock env) +:+ "-" +:+ Buffer.toString_hex (random6 env) +:+ ".body".

(** The placeholder title of the index page. *)
Definition untitled : string := "（无标题）".

(** Lines 46 to 56 of [handlePostWebhook]: the value of [expectedLength],
    or [inl] when the [Content-Length] header is not a decimal number. *)
Definition declaredLength (req : request) : unit + option Z :=
  match header_content_length req with
  | Some clHeader =>
      let s := Js.trim clHeader in
      if Js.is_decimal s then inr (Some (Js.parseInt s)) else inl tt
  | None => inr None
  end.

(** Lines 69 and 70 of [handlePostWebhook]: the value of [contentType]. *)
Definition contentTypeOf (req : request) : string :=
  let ctRaw := Js.string_or (header_content_type req) "application/octet-stream" in
  let t := Js.trim (Js.before_semicolon ctRaw) in
  if String.eqb t "" then "application/octet-stream" else t.

Section Handlers.
Context {rt : JsRuntime}.

(** Lines 125 to 143 of [handlePostWebhook]: the values of [decodedBody],
    [bodyText] and [bodyB64] for a content type and a preview. *)
Definition sniff (contentType : string) (preview : list byte)
    : option json * option string * option string :=
  if (String.eqb contentType "application/json" || String.eqb contentType "text/json")
     && negb (length preview =? 0)%nat then
    match decodeUtf8Strict preview ≫= JSON_parse with
    | Some v => (Some v, None, None)
    | None => (None, Some (Buffer.toString_utf8 preview), None)
    end
  else if negb (length preview =? 0)%nat then
    match decodeUtf8Strict preview with
    | Some t => (None, Some t, None)
    | None => (None, None, Some (Buffer.toString_base64 preview))
    end
  else (None, None, None).

(** [handlePostWebhook(req, res, url)]: the response sent, or [None] when
    an exception leaves the handler, and the world it leaves. *)
Definition handlePostWebhook (cfg : config) (env : ambient) (req : request)
    (w : world) : option response * world :=
  match requireToken cfg req with
  | Some denied => (Some denied, w)
  | None =>
  match declaredLength req with
  | inl _ => (Some (Text 400 (line "invalid content-length")), w)
  | inr expectedLength =>
  let limit := maxBody cfg in
  if match expectedLength with Some e => e <=? 0 | None => false end then
    (Some (Text 400 (line "empty body")), w)
  else if match expectedLength with Some e => e >? limit | None => false end then
    (Some (Text 413 (line "payload too large")), w)
  else
  let contentType := contentTypeOf req in
  let recordName := recordNameOf env in
  let bodyName := bodyNameOf env in
  let w := call Mkdir w in
  let recordPath := recordName in
  let bodyPath := bodyName in
  let tmpBodyPath := bodyPath +:+ ".tmp" in
  let tmpRecordPath := recordPath +:+ ".tmp" in
  match writeBodyToFile cfg (io env) req tmpBodyPath limit expectedLength w with
  | (inl err, w) =>
      let w := unlink tmpBodyPath w in
      match err with
      | PAYLOAD_TOO_LARGE => (Some (Text 413 (line "payload too large")), w)
      | _ => (Some (Text 400 (line "incomplete body")), w)
      end
  | (inr writeResult, w) =>
  if written writeResult <=? 0 then
    (Some (Text 400 (line "empty body")), unlink tmpBodyPath w)
  else if match expectedLength with
          | Some e => negb (written writeResult =? e)
          | None => false
          end then
    (Some (Text 400 (line "incomplete body")), unlink tmpBodyPath w)
  else
  match rename (rename_body_fault (io env)) tmpBodyPath bodyPath w with
  | (false, w) => (None, w)
  | (true, w) =>
  let preview := preview writeResult in
  let '(decodedBody, bodyText, bodyB64) := sniff contentType preview in
  let record := {|
    received_at := utcNowIso (iso_clock env);
    remote_addr := socket_remoteAddress req;
    path := url_pathname req;
    content_type := contentType;
    user_agent := Js.string_or (header_user_agent req) "";
    body_file := bodyName;
    body_size := written writeResult;
    body_sha256 := bodySha256 writeResult;
    preview_truncated := written writeResult >? Z.of_nat (length preview);
    body_json := decodedBody;
    body_text := bodyText;
    body_b64 := bodyB64;
  |} in
  match writeFile (write_record_fault (io env)) tmpRecordPath (stringify_utf8 record) w with
  | (false, w) => (None, w)
  | (true, w) =>
  match rename (rename_record_fault (io env)) tmpRecordPath recordPath w with
  | (false, w) => (None, w)
  | (true, w) =>
  let w := enforceRetention cfg w in
  (Some (Text 200 (line ("ok " +:+ recordName))), w)
  end end end end end end.

(** The body of the loop of [handleGetIndex], for one document name. *)
Definition index_row (acc : list row * world) (name : string) : list row * world :=
  let '(records, w) := acc in
  let '(size, w) := stat_size name w in
  let size := default 0 size in
  let '(text, w) := readFile name w in
  let '(receivedAt, title) :=
    match text ≫= parse_utf8 with
    | Some record => index_fields record
    | None => ("", untitled)
    end in
  (records ++ [{| name := name; when := receivedAt; size := formatBytes size; title := title |}], w).

(** Lines 188 to 225 of [handleGetIndex]: the array [records]. *)
Definition index_records (w : world) : list row * world :=
  let w := call Mkdir w in
  let '(files, w) := readdir w in
  let files := take 50 (documents files) in
  foldl index_row ([], w) files.

Definition handleGetIndex (cfg : config) (req : request) (w : world)
    : option response * world :=
  match (if readTokenRequired cfg then requireToken cfg req else None) with
  | Some denied => (Some denied, w)
  | None =>
      let '(records, w) := index_records w in
      (Some (Html 200 (renderIndexPage records)), w)
  end.

Definition handleGetView (cfg : config) (req : request) (w : world)
    : option response * world :=
  match (if readTokenRequired cfg then requireToken cfg req else None) with
  | Some denied => (Some denied, w)
  | None =>
  let name := Js.trim (Js.string_or (url_id req) "") in
  if invalidId name then (Some (Text 400 (line "invalid id")), w)
  else
  let recordPath := name in
  let '(readable, w) := access recordPath w in
  if negb readable then (Some (Text 404 (line "not found")), w)
  else
  let '(text, w) := readFile recordPath w in
  match text ≫= parse_utf8 with
  | None => (Some (Text 500 (line "failed to read record")), w)
  | Some record =>
      (Some (Html 200 (renderViewPage name record (files w))), call Render w)
  end
  end.

Definition handleGetRaw (cfg : config) (req : request) (w : world)
    : option response * world :=
  match (if readTokenRequired cfg then requireToken cfg req else None) with
  | Some denied => (Some denied, w)
  | None =>
  let name := Js.trim (Js.string_or (url_id req) "") in
  if invalidId name then (Some (Text 400 (line "invalid id")), w)
  else
  let recordPath := name in
  let '(readable, w) := access recordPath w in
  if negb readable then (Some (Text 404 (line "not found")), w)
  else
  let '(text, w) := readFile recordPath w in
  match text ≫= parse_utf8 with
  | None => (Some (Text 500 (line "failed to read record")), w)
  | Some record =>
  match body_file_of record with
  | None => (None, w)
  | Some s =>
  let bodyName := Js.trim s in
  if String.eqb bodyName "" || unsafe_name bodyName then
    (Some (Text 404 (line "no body")), w)
  else
  let bodyPath := bodyName in
  let '(readable, w) := access bodyPath w in
  if negb readable then (Some (Text 404 (line "no body")), w)
  else
  let '(size, w) := stat_size bodyPath w in
  let ctype :=
    let c := Js.trim (content_type_of record) in
    if String.eqb c "" then "application/octet-stream" else c in
  let '(data, w) := createReadStream bodyPath w in
  (Some (Download
           (if Js.startsWith "text/" ctype then ctype +:+ "; charset=utf-8" else ctype)
           bodyName size data),
   w)
  end end end.

(** The [catch] of [createServer]: an exception that leaves a handler is
    answered with status 500. *)
Definition answered (r : option response) : response :=
  default (Text 500 (line "internal server error")) r.

End Handlers.

(** ** A runtime for closed examples

    The examples below run the handlers on concrete requests, which takes
    some [JsRuntime]. In this one the text of a document is an opening
    brace, the content type, a semicolon and the name of the blob; a text
    without a semicolon after the brace holds the name of the blob and no
    content type; and any other text is no JSON. *)
Module Sample.

Definition parse (s : string) : option string :=
  match s with
  | String "{"%char rest => Some rest
  | _ => None
  end.

(** What follows the first semicolon, if there is one. *)
Fixpoint after_semicolon (s : string) : option string :=
  match s with
  | EmptyString => None
  | String c r => if Ascii.eqb c ";" then Some r else after_semicolon r
  end.

#[export] Instance runtime : JsRuntime := {|
  json := string;
  JSON_parse := parse;
  stringify_utf8 r :=
    Buffer.bytes_of (String "{"%char (content_type r +:+ ";" +:+ body_file r));
  parse_utf8 b := parse (Buffer.text_of b);
  body_file_of v := Some (default v (after_semicolon v));
  content_type_of v :=
    match after_semicolon v with
    | Some _ => Js.string_or (Some (Js.before_semicolon v)) "application/octet-stream"
    | None => "application/octet-stream"
    end;
  index_fields v := ("", v);
  renderIndexPage rows := String.concat "," (name <$> rows);
  renderViewPage n _ _ := n;
|}.

Definition cfg (keep : Z) : config :=
  {| maxBody := 16; previewLimit := 4; maxRecords := keep;
     readTokenRequired := false; token := "secret" |}.

Definition at_second (s : N) : utc :=
  {| getUTCFullYear := 2026; getUTCMonth := 0; getUTCDate := 29;
     getUTCHours := 6; getUTCMinutes := 18; getUTCSeconds := s |}.

Definition env (s : N) (rnd : byte) (f : faults) : ambient :=
  {| stamp_clock := at_second s; random6 := replicate 6 rnd;
     iso_clock := at_second s; io := f |}.

Definition post (ctype : string) (len : option string) (body : list (list byte)) : request :=
  {| provided_token := "secret";
     header_content_length := len;
     header_content_type := Some ctype;
     header_user_agent := None;
     socket_remoteAddress := "127.0.0.1";
     url_pathname := "/webhook";
     url_id := None;
     chunks := body;
     aborted := false |}.

Definition get (id : string) : request :=
  {| provided_token := "";
     header_content_length := None;
     header_content_type := None;
     header_user_agent := None;
     socket_remoteAddress := "127.0.0.1";
     url_pathname := "/view";
     url_id := Some id;
     chunks := [];
     aborted := false |}.

Definition empty : world := {| files := ∅; dir_size := 4096; calls := [] |}.

Definition holding (l : list (string * list byte)) : world :=
  {| files := list_to_map l; dir_size := 4096; calls := [] |}.

End Sample.

(** * The vocabulary of the properties *)

(** A byte that is part of no white-space character: an ASCII character
    other than the six white ones. *)
Definition solid (c : ascii) : bool :=
  negb (Js.is_space c) && (N_of_ascii c <? 128)%N.

(** A byte that continues a character of several bytes. *)
Definition continues (c : ascii) : bool :=
  (128 <=? N_of_ascii c)%N && (N_of_ascii c <=? 191)%N.

(** A pattern whose first character is ASCII and no white space. *)
Definition starts_solid (p : string) : bool :=
  match p with
  | EmptyString => false
  | String c _ => solid c
  end.

(** A pattern whose last character is ASCII and no white space. *)
Fixpoint ends_solid (p : string) : bool :=
  match p with
  | EmptyString => false
  | String c EmptyString => solid c
  | String _ r => ends_solid r
  end.

(** An id that holds a path separator or a parent-directory step. *)
Definition traversing (id : string) : Prop :=
  Js.includes "../" id = true \/ Js.includes ".." id = true \/
  Js.includes "/" id = true \/ Js.includes "\" id = true.

(** A document of the directory: an entry whose name ends in [.json]. *)
Definition is_document (w : world) (n : string) : Prop :=
  is_Some (files w !! n) /\ Js.endsWith ".json" n = true.

(** A name that [path.join] keeps inside the directory: it is not empty and
    holds no separator and no parent-directory step. *)
Definition plain_name (p : string) : Prop :=
  p <> "" /\ unsafe_name p = false.

(** What the names of an ingest share: the time stamp and the random
    suffix. *)
Definition stem (env : ambient) : string :=
  utcNowStamp (stamp_clock env) +:+ "-" +:+ Buffer.toString_hex (random6 env).

(** What holds of the closure of [writeBodyToFile] between two chunks, for a
    preview limit [P]: the counter is the number of bytes hashed, and the
    preview chunks are the first [P] of them. *)
Record tap_inv (P : Z) (t : Tap.state) : Prop := {
  inv_written : Tap.written t = Z.of_nat (length (Tap.hasher t));
  inv_preview : concat (Tap.previewChunks t) = take (Z.to_nat P) (Tap.hasher t);
  inv_previewBytes : Tap.previewBytes t = Z.of_nat (length (concat (Tap.previewChunks t)));
}.

(** The number of bytes of a list of chunks. *)
Definition total (chunks : list (list byte)) : Z := Z.of_nat (length (concat chunks)).


(** The transform stream alone, fed a list of chunks. *)
Fixpoint feed (step : Tap.state -> list byte -> failure + Tap.state)
    (t : Tap.state) (chunks : list (list byte)) : failure + Tap.state :=
  match chunks with
  | [] => inr t
  | chunk :: rest =>
      match step t chunk with
      | inl e => inl e
      | inr t' => feed step t' rest
      end
  end.

(** The bytes of the body of a request. *)
Definition body (req : request) : list byte := concat (chunks req).

(** The names and temporary names of an ingest. *)
Definition tmpBodyPath (env : ambient) : string := bodyNameOf env +:+ ".tmp".
Definition tmpRecordPath (env : ambient) : string := recordNameOf env +:+ ".tmp".

(** The world an accepted ingest hands to retention, from the world it
    found: the blob and the document [doc] under their names, no temporary
    document, and the calls made on the way. *)
Definition published (env : ambient) (req : request) (doc : list byte)
    (w : world) : world :=
  {| files :=
       <[recordNameOf env := doc]>
         (delete (tmpRecordPath env)
            (<[bodyNameOf env := body req]> (files w)));
     dir_size := dir_size w;
     calls :=
       calls w ++ Mkdir :: OpenWx (tmpBodyPath env) ::
         replicate (length (chunks req)) (Append (tmpBodyPath env)) ++
         [Rename (tmpBodyPath env) (bodyNameOf env);
          WriteFile (tmpRecordPath env);
          Rename (tmpRecordPath env) (recordNameOf env)] |}.

(** A content type that [handlePostWebhook] treats as JSON. *)
Definition json_type (contentType : string) : Prop :=
  contentType = "application/json" \/ contentType = "text/json".

Section Vocabulary.
Context {rt : JsRuntime}.

(** The record document an ingest builds from what [writeBodyToFile]
    returned. *)
Definition builtRecord (env : ambient) (req : request) (wr : writeResult)
    : record json :=
  let sniffed := sniff (contentTypeOf req) (preview wr) in
  {| received_at := utcNowIso (iso_clock env);
     remote_addr := socket_remoteAddress req;
     path := url_pathname req;
     content_type := contentTypeOf req;
     user_agent := Js.string_or (header_user_agent req) "";
     body_file := bodyNameOf env;
     body_size := written wr;
     body_sha256 := bodySha256 wr;
     preview_truncated := written wr >? Z.of_nat (length (preview wr));
     body_json := sniffed.1.1;
     body_text := sniffed.1.2;
     body_b64 := sniffed.2 |}.

(** No document of the directory names, as its blob, a file that is listed
    as a document. *)
Definition tame (w : world) : Prop :=
  forall (n : string) (d : list byte),
    files w !! n = Some d ->
    Js.endsWith ".json" n = true ->
    Js.endsWith ".json" (staleBodyName (Some d)) = false.

(** A run of ingests, each answered [200], from a world to a world. *)
Fixpoint accepted_run (cfg : config) (w : world)
    (inputs : list (ambient * request)) (w' : world) : Prop :=
  match inputs with
  | [] => w' = w
  | (env, req) :: rest =>
      exists (msg : string) (w1 : world),
        handlePostWebhook cfg env req w = (Some (Text 200 msg), w1) /\
        accepted_run cfg w1 rest w'
  end.

(** A document that an ingest wrote and that is read back parses to a
    value that names the blob of that ingest. *)
Definition reads_back : Prop :=
  forall (env : ambient) (req : request) (wr : writeResult),
    parse_utf8 (stringify_utf8 (builtRecord env req wr)) ≫= body_file_of =
      Some (bodyNameOf env).

End Vocabulary.

(** The document names of a run, in the order of arrival. *)
Definition arrivals (inputs : list (ambient * request)) : list string :=
  (fun i => recordNameOf i.1) <$> inputs.

(** A name put at its place in a list of names that has the largest
    first. *)
Fixpoint insert_desc (x : string) (l : list string) : list string :=
  match l with
  | [] => [x]
  | y :: l' => if decide (Js.sort_le y x) then x :: l else y :: insert_desc x l'
  end.

(** A buffer without the byte order mark it may start with. *)
Definition without_bom (buf : list byte) : list byte :=
  match buf with
  | b1 :: b2 :: b3 :: rest =>
      if bool_decide ([b1; b2; b3] = Buffer.bom) then rest else buf
  | _ => buf
  end.

(** ** Sample requests and worlds *)

Definition sample_post : request :=
  Sample.post "text/plain" (Some "6")
    [Buffer.bytes_of "abc"; Buffer.bytes_of "def"].

Definition binary_json_post : request :=
  Sample.post "application/json; charset=utf-8" None [[xff]].

Definition oversized_post : request :=
  Sample.post "text/plain" None
    [Buffer.bytes_of "0123456789"; Buffer.bytes_of "0123456789"; Buffer.bytes_of "x"].


Definition record_write_fails : faults :=
  {| write_body_fault := None; rename_body_fault := false;
     write_record_fault := true; rename_record_fault := false |}.

Definition three_ingests : list (ambient * request) :=
  [(Sample.env 0 xff no_faults, sample_post);
   (Sample.env 1 x80 no_faults, sample_post);
   (Sample.env 2 x00 no_faults, sample_post)].

Definition after_three : world :=
  foldl (fun w i => (handlePostWebhook (rt := Sample.runtime) (Sample.cfg 2) i.1 i.2 w).2)
    Sample.empty three_ingests.

(** * The rest of the sources *)

(** ** More ECMAScript methods *)

Module JsText.

Definition LF : ascii := "010"%char.
Definition CR : ascii := "013"%char.

(** [c.toLowerCase()] for one character: the letters A to Z are mapped,
    any other byte is kept. The sources only compare lowered text with the
    words [bearer], [1], [true], [yes] and [on], and no character outside
    ASCII lowers to a letter of these. *)
Definition lower (c : ascii) : ascii :=
  let n := Ascii.N_of_ascii c in
  if (65 <=? n)%N && (n <=? 90)%N then Ascii.ascii_of_N (n + 32) else c.

(** [s.toLowerCase()] *)
Fixpoint toLowerCase (s : string) : string :=
  match s with
  | EmptyString => EmptyString
  | String c r => String (lower c) (toLowerCase r)
  end.

(** [s.slice(n)], where the first [n] characters are ASCII. *)
Fixpoint slice (n : nat) (s : string) : string :=
  match n, s with
  | O, _ => s
  | S _, EmptyString => EmptyString
  | S k, String _ r => slice k r
  end.

(** [s.replaceAll(c, r)] for a pattern [c] of one ASCII character. *)
Fixpoint replaceAll (c : ascii) (r s : string) : string :=
  match s with
  | EmptyString => EmptyString
  | String a t =>
      if Ascii.eqb a c then r +:+ replaceAll c r t else String a (replaceAll c r t)
  end.

(** Puts a character in front of the first string of a list. *)
Definition cons_first (c : ascii) (l : list string) : list string :=
  match l with
  | [] => [String c EmptyString]
  | x :: rest => String c x :: rest
  end.

(** [s.split(/\r?\n/)]: a line ends at a line feed, and a carriage return
    just before that line feed belongs to the separator. *)
Fixpoint split_lines (s : string) : list string :=
  match s with
  | EmptyString => [EmptyString]
  | String c r =>
      if Ascii.eqb c LF then EmptyString :: split_lines r
      else
        match r with
        | String d r' =>
            if Ascii.eqb c CR && Ascii.eqb d LF then EmptyString :: split_lines r'
            else cons_first c (split_lines r)
        | EmptyString => [String c EmptyString]
        end
  end.

(** The number value of a natural number [m]: [m] rounded to 53 significant
    bits, ties to even; [None] for [Infinity]. *)
Definition toDouble (m : Z) : option Z :=
  let bits := Z.log2 m + 1 in
  if bits <=? 53 then Some m
  else
    let e := bits - 53 in
    let q := Z.shiftr m e in
    let r := Z.land m (Z.ones e) in
    let half := Z.shiftl 1 (e - 1) in
    let q := if (r >? half) || ((r =? half) && Z.odd q) then q + 1 else q in
    let v := Z.shiftl q e in
    if v >=? 2 ^ 1024 then None else Some v.

(** The longest prefix of decimal digits. *)
Fixpoint digits_prefix (s : string) : string :=
  match s with
  | EmptyString => EmptyString
  | String c r =>
      match Js.digit_value c with
      | Some _ => String c (digits_prefix r)
      | None => EmptyString
      end
  end.

(** An optional sign in front of a string: whether it is a minus, and
    what follows it. *)
Definition signed (s : string) : bool * string :=
  match s with
  | String "-"%char r => (true, r)
  | String "+"%char r => (false, r)
  | _ => (false, s)
  end.

(** [Number.parseInt(s, 10)] when the result is finite, [None] when it is
    [NaN] or infinite: white space is skipped, then a sign and the longest
    run of digits are read, and what follows is ignored. *)
Definition parseInt10 (s : string) : option Z :=
  let '(negative, s) := signed (Js.trimStart s) in
  let z := digits_prefix s in
  if String.eqb z "" then None
  else (fun m => if negative : bool then - m else m) <$> toDouble (Js.parseInt z).

End JsText.

(** ** config.js *)

Module Config.

(** [envInt(name, fallback)], with [process.env] as a map. *)
Definition envInt (env : gmap string string) (name : string) (fallback : Z) : Z :=
  let raw := Js.trim (Js.string_or (env !! name) "") in
  if String.eqb raw "" then fallback
  else
    match JsText.parseInt10 raw with
    | Some n => n
    | None => fallback
    end.

Definition maxBody (env : gmap string string) : Z :=
  envInt env "STOCKHOOK_MAX_BODY" (10 * 1024 * 1024).

Definition previewLimit (env : gmap string string) : Z :=
  envInt env "STOCKHOOK_PREVIEW_BYTES" (500 * 1024).

Definition renderMaxBytes (env : gmap string string) : Z :=
  envInt env "STOCKHOOK_RENDER_MAX_BYTES" (10 * 1024 * 1024).

Definition maxRecords (env : gmap string string) : Z :=
  envInt env "STOCKHOOK_MAX_RECORDS" 100.

Definition readTokenRequired (env : gmap string string) : bool :=
  let v := JsText.toLowerCase
             (Js.trim (Js.string_or (env !! "STOCKHOOK_READ_TOKEN_REQUIRED") "")) in
  String.eqb v "1" || String.eqb v "true" || String.eqb v "yes" || String.eqb v "on".

End Config.

(** The configuration the handlers see under an environment. *)
Definition config_of (env : gmap string string) : config :=
  {| maxBody := Config.maxBody env;
     previewLimit := Config.previewLimit env;
     maxRecords := Config.maxRecords env;
     readTokenRequired := Config.readTokenRequired env;
     token := Js.trim (Js.string_or (env !! "STOCKHOOK_TOKEN") "") |}.

(** ** auth.js: the token a request carries *)

(** The three places [getProvidedToken] looks at. *)
Record credentials := {
  header_x_stockhook_token : option string;
  header_authorization : option string;
  (** [url.searchParams.get('token')] *)
  query_token : option string;
}.

Definition getProvidedToken (c : credentials) : string :=
  let headerToken := Js.trim (Js.string_or (header_x_stockhook_token c) "") in
  if negb (String.eqb headerToken "") then headerToken
  else
    let auth := Js.trim (Js.string_or (header_authorization c) "") in
    if Js.startsWith "bearer " (JsText.toLowerCase auth) then Js.trim (JsText.slice 7 auth)
    else Js.trim (Js.string_or (query_token c) "").

(** ** store.js: readFileMax *)

(** [readFileMax(filePath, maxBytes)]: [None] when it returns no buffer,
    because the file cannot be opened or read, because [Buffer.alloc]
    refuses a negative size, or because [maxBytes + 1] is more than the
    [2^31 - 1] bytes one [read] takes. *)
Definition readFileMax (filePath : string) (maxBytes : Z) (w : world)
    : option (list byte) * world :=
  let w := call (OpenRead filePath) w in
  match (if is_dir filePath then None else files w !! filePath) with
  | None => (None, w)
  | Some d =>
      if (maxBytes + 1 <? 0) || (2 ^ 31 - 1 <? maxBytes + 1) then (None, w)
      else (Some (take (Z.to_nat (maxBytes + 1)) d), w)
  end.

(** ** render/utils.js *)

Definition quot : ascii := "034"%char.

Definition htmlEscape (text : string) : string :=
  JsText.replaceAll "'" "&#39;"
    (JsText.replaceAll quot "&quot;"
       (JsText.replaceAll ">" "&gt;"
          (JsText.replaceAll "<" "&lt;"
             (JsText.replaceAll "&" "&amp;" text)))).

(** The loop of [firstNonEmptyLine] over the lines. *)
Fixpoint firstNonEmptyLine_loop (lines : list string) : string :=
  match lines with
  | [] => EmptyString
  | l :: rest =>
      let s := Js.trim l in
      if String.eqb s "" then firstNonEmptyLine_loop rest else s
  end.

Definition firstNonEmptyLine (text : string) : string :=
  firstNonEmptyLine_loop (JsText.split_lines text).

Section Values.
Variable number : Type.

(** A JavaScript value as [JSON.parse] builds it. The members of an object
    have distinct keys. *)
#[local] Unset Elimination Schemes.
Inductive value :=
  | Null
  | Bool (b : bool)
  | Number (n : number)
  | Str (s : string)
  | Array (items : list value)
  | Object (members : list (string * value)).
#[local] Set Elimination Schemes.

(** [cur[key]] where [hasOwnProperty.call(cur, key)] holds. *)
Fixpoint own (key : string) (members : list (string * value)) : option value :=
  match members with
  | [] => None
  | (k, v) :: rest => if String.eqb k key then Some v else own key rest
  end.

Fixpoint getByPath (cur : value) (pathParts : list string) : value :=
  match pathParts with
  | [] => cur
  | key :: rest =>
      match cur with
      | Object members =>
          match own key members with
          | Some v => getByPath v rest
          | None => Null
          end
      | _ => Null
      end
  end.

End Values.
Arguments Null {number}.
Arguments Bool {number} b.
Arguments Number {number} n.
Arguments Str {number} s.
Arguments Array {number} items.
Arguments Object {number} members.
Arguments own {number} key members.
Arguments getByPath {number} cur pathParts.

(** ** render/markdown.js: heading ids *)

Section Markdown.
(** [slugifyHeading], which rests on Unicode normalisation. *)
Variable slugifyHeading : string -> string.

(** The candidate with suffix [n]. *)
Definition suffixed (base : string) (n : N) : string := base +:+ "-" +:+ pretty n.

(** The [while] loop of [allocateHeadingId]: [id] is the candidate and [n]
    the next suffix. It is run for at most [fuel] more candidates. *)
Fixpoint allocateHeadingId_loop (fuel : nat) (base : string) (usedIds : gset string)
    (id : string) (n : N) : option string :=
  if bool_decide (id ∈ usedIds) then
    match fuel with
    | O => None
    | S fuel => allocateHeadingId_loop fuel base usedIds (suffixed base n) (n + 1)%N
    end
  else Some id.

(** The value of [base] in [allocateHeadingId]. *)
Definition heading_base (level : N) (title : string) : string :=
  let slug :=
    let s := slugifyHeading title in
    if String.eqb s "" then "section-" +:+ pretty level else s in
  "h" +:+ pretty level +:+ "-" +:+ slug.

(** [allocateHeadingId(level, title, usedIds)]: the id and the set as the
    call leaves it. The loop is given as many rounds as the set has
    elements. *)
Definition allocateHeadingId (level : N) (title : string) (usedIds : gset string)
    : option (string * gset string) :=
  let base := heading_base level title in
  match allocateHeadingId_loop (stdpp.base.size usedIds) base usedIds base 2%N with
  | Some id => Some (id, {[id]} ∪ usedIds)
  | None => None
  end.

(** The ids [renderMarkdownWithAnchors] gives the headings of a text, in
    order, each call working on the set the one before left. *)
Fixpoint heading_ids (headings : list (N * string)) (usedIds : gset string)
    : option (list string) :=
  match headings with
  | [] => Some []
  | (level, title) :: rest =>
      match allocateHeadingId level title usedIds with
      | Some (id, usedIds) => cons id <$> heading_ids rest usedIds
      | None => None
      end
  end.

End Markdown.

(** ** stockhook.js: the mock page and the router *)

(** What [handleGetMock] reads beside the request. The page is read from
    the directory of the program, which is no part of the world. *)
Record site := {
  (** [readFile(mockPath, 'utf8')]; [None] when it throws *)
  mock_file : option string;
  (** [__STOCKHOOK_MOCK_HTML__], when the build defined it as a string *)
  build_mock_html : option string;
}.

Definition EMBEDDED_MOCK_HTML (s : site) : string :=
  match build_mock_html s with
  | Some x => if String.eqb (Js.trim x) "" then "" else x
  | None => ""
  end.

Definition handleGetMock (cfg : config) (s : site) (req : request) (w : world)
    : option response * world :=
  match (if readTokenRequired cfg then requireToken cfg req else None) with
  | Some denied => (Some denied, w)
  | None =>
      let html := default "" (mock_file s) in
      let html :=
        if String.eqb (Js.trim html) "" && negb (String.eqb (EMBEDDED_MOCK_HTML s) "")
        then EMBEDDED_MOCK_HTML s else html in
      if String.eqb (Js.trim html) "" then
        (Some (Text 500 (line "failed to load mock page")), w)
      else (Some (Html 200 html), w)
  end.

(** A request as the listener of [createServer] gets it. *)
Record incoming := {
  method : string;
  (** whether [new URL(req.url, base)] returns; the fields of [message]
      that come from the URL are read only when it does *)
  url_parses : bool;
  message : request;
}.

(** The paths that take a webhook. *)
Definition hook_path (pathname : string) : bool :=
  String.eqb pathname "/" || String.eqb pathname "/webhook" || String.eqb pathname "/hook".

Section Server.
Context {rt : JsRuntime}.

(** The listener of [createServer]: the response sent and the world left. *)
Definition createServer (cfg : config) (s : site) (env : ambient) (inc : incoming)
    (w : world) : response * world :=
  if negb (url_parses inc) then (Text 400 (line "bad request"), w)
  else
    let req := message inc in
    let pathname := url_pathname req in
    let '(r, w) :=
      if String.eqb (method inc) "OPTIONS" then
        if hook_path pathname then (Some (Text 204 ""), w)
        else (Some (Text 404 (line "not found")), w)
      else if String.eqb (method inc) "GET" then
        if String.eqb pathname "/health" then (Some (Text 200 (line "ok")), w)
        else if String.eqb pathname "/mock" || String.eqb pathname "/mock.html" then
          handleGetMock cfg s req w
        else if String.eqb pathname "/" || String.eqb pathname "/index.html" then
          handleGetIndex cfg req w
        else if String.eqb pathname "/view" then handleGetView cfg req w
        else if String.eqb pathname "/raw" then handleGetRaw cfg req w
        else (Some (Text 404 (line "not found")), w)
      else if String.eqb (method inc) "POST" then
        if negb (hook_path pathname) then (Some (Text 404 (line "not found")), w)
        else handlePostWebhook cfg env req w
      else (Some (Text 404 (line "not found")), w) in
    (answered r, w).

End Server.

(** ** The vocabulary of the further properties *)

(** An ASCII character that is no white space, no dot and no path
    separator. *)
Definition harmless (c : ascii) : bool :=
  solid c && negb (Ascii.eqb c ".") && negb (Ascii.eqb c "/")
  && negb (Ascii.eqb c "\").

Definition all_harmless (s : string) : bool :=
  forallb harmless (String.list_ascii_of_string s).

(** [a] and [b] have one length and [a] comes first in the order of
    [Array.prototype.sort]: they differ, and at the first place where they
    do, the character of [a] is the smaller. *)
Fixpoint comes_before (a b : string) : bool :=
  match a, b with
  | String x a', String y b' =>
      match Ascii.compare x y with
      | Lt => (String.length a' =? String.length b')%nat
      | Eq => comes_before a' b'
      | Gt => false
      end
  | _, _ => false
  end.

(** The last [w] decimal digits of [n], the most significant first. *)
Fixpoint digits (w : nat) (n : N) : string :=
  match w with
  | O => EmptyString
  | S w' => digits w' (n / 10) +:+ String (pretty_N_char (n mod 10)) EmptyString
  end.

(** The fields of a clock reading that the time stamp shows, the largest
    unit first. *)
Definition clock_fields (d : utc) : list N :=
  [getUTCFullYear d; getUTCMonth d; getUTCDate d;
   getUTCHours d; getUTCMinutes d; getUTCSeconds d].

Fixpoint lex_lt (a b : list N) : Prop :=
  match a, b with
  | x :: a', y :: b' => (x < y)%N \/ (x = y /\ lex_lt a' b')
  | _, _ => False
  end.

(** One clock reading is at least a second before another. *)
Definition earlier (d1 d2 : utc) : Prop := lex_lt (clock_fields d1) (clock_fields d2).

(** A clock reading of the years 0 to 9999, with each field in its range. *)
Definition calendar (d : utc) : Prop :=
  (getUTCFullYear d <= 9999)%N /\ (getUTCMonth d <= 11)%N /\ (getUTCDate d <= 31)%N /\
  (getUTCHours d <= 23)%N /\ (getUTCMinutes d <= 59)%N /\ (getUTCSeconds d <= 59)%N.

Section Provenance.
Context {rt : JsRuntime}.

(** Every document of the directory was written by one of the ingests
    listed, and the blob of that ingest is in the directory with the bytes
    that were posted. *)
Definition faithful (inputs : list (ambient * request)) (w : world) : Prop :=
  forall (n : string) (d : list byte),
    files w !! n = Some d ->
    Js.endsWith ".json" n = true ->
    exists (env : ambient) (req : request) (wr : writeResult),
      (env, req) ∈ inputs /\
      n = recordNameOf env /\
      d = stringify_utf8 (builtRecord env req wr) /\
      files w !! bodyNameOf env = Some (body req).

End Provenance.

(** What stands for one character in escaped text. *)
Definition entity (c : ascii) : string :=
  if Ascii.eqb c "&" then "&amp;"
  else if Ascii.eqb c "<" then "&lt;"
  else if Ascii.eqb c ">" then "&gt;"
  else if Ascii.eqb c quot then "&quot;"
  else if Ascii.eqb c "'" then "&#39;"
  else String c EmptyString.

(** A text with each of its characters escaped, one after the other. *)
Fixpoint escape_each (s : string) : string :=
  match s with
  | EmptyString => EmptyString
  | String c r => entity c +:+ escape_each r
  end.

(** The characters that open or close a tag or an attribute value. *)
Definition markup (c : ascii) : bool :=
  Ascii.eqb c "<" || Ascii.eqb c ">" || Ascii.eqb c quot || Ascii.eqb c "'".

(** * Properties *)

(** ** The string and buffer methods on samples *)

Example trim_sample : Js.trim "  a b	" = "a b".
Proof. reflexivity. Qed.
(** U+00A0 and U+3000 in front, U+2028 and U+FEFF behind. *)
Example trim_wide :
  Js.trim (String "194" (String "160" (String "227" (String "128" (String "128"
             ("a b" +:+ String "226" (String "128" (String "168"
                (String "239" (String "187" (String "191" "")))))))))))
    = "a b".
Proof. reflexivity. Qed.
(** U+200B ZERO WIDTH SPACE and U+0085 NEXT LINE are no white space. *)
Example trim_keeps :
  Js.trim (String "226" (String "128" (String "139" " a"))) =
    String "226" (String "128" (String "139" " a")) /\
  Js.trim (String "194" (String "133" "")) = String "194" (String "133" "").
Proof. split; reflexivity. Qed.
(** U+1F600, two surrogates in UTF-16, sorts before U+FF5E. *)
Example sort_sample :
  documents [String "239" (String "189" (String "158" ".json"));
             String "240" (String "159" (String "152" (String "128" ".json")));
             "z.json"; "a.txt"] =
    [String "239" (String "189" (String "158" ".json"));
     String "240" (String "159" (String "152" (String "128" ".json")));
     "z.json"].
Proof. reflexivity. Qed.
Example includes_sample : Js.includes ".." "a/../b" = true /\ Js.includes ".." "a.b.c" = false.
Proof. split; reflexivity. Qed.
Example endsWith_sample : Js.endsWith ".json" "x.json" = true /\ Js.endsWith ".json" "x.json.tmp" = false.
Proof. split; reflexivity. Qed.
Example base64_sample : Buffer.toString_base64 (Buffer.bytes_of "Many hands") = "TWFueSBoYW5kcw==".
Proof. reflexivity. Qed.
Example base64_ff : Buffer.toString_base64 [xff] = "/w==".
Proof. reflexivity. Qed.
Example utf8_ok : Buffer.decode_fatal [xe2; x82; xac; x41] = Some (Buffer.text_of [xe2; x82; xac; x41]).
Proof. reflexivity. Qed.
Example utf8_bad : Buffer.decode_fatal [x41; xff] = None /\ Buffer.toString_utf8 [x41; xff] = Buffer.text_of [x41; xef; xbf; xbd].
Proof. split; reflexivity. Qed.
Example utf8_overlong : Buffer.decode_fatal [xc0; x80] = None /\ Buffer.decode_fatal [xed; xa0; x80] = None.
Proof. split; reflexivity. Qed.
Example utf8_bom : Buffer.decode_fatal [xef; xbb; xbf; x7b; x7d] = Some "{}".
Proof. reflexivity. Qed.
Example hex_sample : Buffer.toString_hex [x00; xff; x1a] = "00ff1a".
Proof. reflexivity. Qed.
Example pad_sample : Js.padStart0 2 7 = "07" /\ Js.padStart0 4 2026 = "2026".
Proof. split; reflexivity. Qed.
Example decimal_sample : Js.is_decimal "0123" = true /\ Js.is_decimal "" = false /\ Js.is_decimal "12a" = false /\ Js.parseInt "0123" = 123.
Proof. repeat split; reflexivity. Qed.

(** ** Names *)

Module Names.

Abbreviation chars := String.list_ascii_of_string.

Lemma append_cons (c : ascii) (a b : string) : String c a +:+ b = String c (a +:+ b).
Proof. reflexivity. Qed.

Lemma append_nil_l (b : string) : "" +:+ b = b.
Proof. reflexivity. Qed.

Lemma append_nil_r (s : string) : s +:+ "" = s.
Proof. induction s as [|c s IH]; [done|]. by rewrite append_cons, IH. Qed.

Lemma append_assoc (a b c : string) : (a +:+ b) +:+ c = a +:+ (b +:+ c).
Proof. induction a as [|x a IH]; [done|]. rewrite !append_cons. by f_equal. Qed.

Lemma chars_append (a b : string) : chars (a +:+ b) = chars a ++ chars b.
Proof. induction a as [|x a IH]; [done|]. rewrite append_cons. simpl. by f_equal. Qed.

Lemma chars_inj (a b : string) : chars a = chars b -> a = b.
Proof.
  intros Hab. rewrite <- (String.string_of_list_ascii_of_string a),
    <- (String.string_of_list_ascii_of_string b). by f_equal.
Qed.

(** Two ways to cut one text: one of the two first parts starts the
    other. *)
Lemma append_eq_inv (a b c d : string) :
  a +:+ b = c +:+ d ->
  (exists k, a = c +:+ k /\ d = k +:+ b) \/ (exists k, c = a +:+ k /\ b = k +:+ d).
Proof.
  revert c. induction a as [|x a IH]; intros c Heq.
  - right. exists c. by rewrite append_nil_l in *.
  - destruct c as [|y c].
    + left. exists (String x a). by rewrite append_nil_l in *.
    + rewrite !append_cons in Heq. injection Heq as -> Heq.
      destruct (IH c Heq) as [(k & -> & ->)|(k & -> & ->)]; [left|right]; by exists k.
Qed.

(** Two strings that end in suffixes of the same length end in the same
    suffix. *)
Lemma append_inj_suffix (a b p q : string) :
  String.length p = String.length q -> a +:+ p = b +:+ q -> a = b /\ p = q.
Proof.
  intros Hlen Heq. apply (f_equal chars) in Heq. rewrite !chars_append in Heq.
  apply app_inj_2 in Heq as [Ha Hp].
  - split; by apply chars_inj.
  - clear -Hlen. revert q Hlen. induction p as [|x p IH]; intros [|y q] Hlen; try done.
    simpl in *. f_equal. apply IH. lia.
Qed.

Lemma length_append (a b : string) :
  String.length (a +:+ b) = (String.length a + String.length b)%nat.
Proof. induction a as [|x a IH]; [done|]. rewrite append_cons. simpl. by rewrite IH. Qed.

Lemma endsWith_spec (p s : string) :
  Js.endsWith p s = true <-> exists a, s = a +:+ p.
Proof.
  induction s as [|x s IH]; cbn [Js.endsWith].
  - rewrite orb_false_r. split.
    + intros Hp%String.eqb_eq. subst. by exists "".
    + intros [a Ha]. destruct a; [|done]. rewrite append_nil_l in Ha. subst. done.
  - rewrite orb_true_iff, IH. split.
    + intros [Hp%String.eqb_eq|[a ->]]; [by exists ""|]. by exists (String x a).
    + intros [[|y a] Ha].
      * left. rewrite append_nil_l in Ha. subst. apply String.eqb_refl.
      * right. rewrite append_cons in Ha. injection Ha as -> ->. by exists a.
Qed.

Lemma endsWith_append (a p : string) : Js.endsWith p (a +:+ p) = true.
Proof. apply endsWith_spec. by exists a. Qed.

(** A name that ends in one suffix does not end in another of the same
    length. *)
Lemma endsWith_other (a p q : string) :
  String.length p = String.length q -> p <> q -> Js.endsWith p (a +:+ q) = false.
Proof.
  intros Hlen Hpq. apply not_true_is_false. intros [b Hb]%endsWith_spec.
  apply append_inj_suffix in Hb as [_ ->]; done.
Qed.

Lemma recordNameOf_stem (env : ambient) : recordNameOf env = stem env +:+ ".json".
Proof. unfold recordNameOf, stem. by rewrite !append_assoc. Qed.

Lemma bodyNameOf_stem (env : ambient) : bodyNameOf env = stem env +:+ ".body".
Proof. unfold bodyNameOf, stem. by rewrite !append_assoc. Qed.

Lemma recordName_is_json (env : ambient) : Js.endsWith ".json" (recordNameOf env) = true.
Proof. rewrite recordNameOf_stem. apply endsWith_append. Qed.

Lemma bodyName_not_json (env : ambient) : Js.endsWith ".json" (bodyNameOf env) = false.
Proof. rewrite bodyNameOf_stem. by apply endsWith_other. Qed.

Lemma tmp_not_json (s : string) : Js.endsWith ".json" (s +:+ ".tmp") = false.
Proof.
  apply not_true_is_false. intros [b Hb]%endsWith_spec.
  change ".json" with ("." +:+ "json") in Hb. rewrite <- append_assoc in Hb.
  apply append_inj_suffix in Hb as [_ ?]; done.
Qed.

Lemma tmp_neq (s : string) : s +:+ ".tmp" <> s.
Proof.
  intros Heq%(f_equal String.length). rewrite length_append in Heq. simpl in Heq. lia.
Qed.

Lemma recordName_neq_bodyName (env env' : ambient) : recordNameOf env <> bodyNameOf env'.
Proof.
  intros Heq. pose proof (recordName_is_json env) as Hj.
  rewrite Heq, bodyName_not_json in Hj. done.
Qed.


Lemma bodyName_neq_tmp (env : ambient) (s : string) : bodyNameOf env <> s +:+ ".tmp".
Proof.
  rewrite bodyNameOf_stem. intros Heq.
  change ".body" with ("." +:+ "body") in Heq. rewrite <- append_assoc in Heq.
  apply append_inj_suffix in Heq as [_ ?]; done.
Qed.

End Names.

(** ** White space *)

Module Space.
Import Js Names.

Lemma is_space_ascii (c : ascii) : is_space c = true -> (N_of_ascii c < 128)%N.
Proof. destruct c as [[] [] [] [] [] [] [] []]; try done; intros _; by compute. Qed.

Lemma solid_inv (a : ascii) :
  solid a = true -> is_space a = false /\ (N_of_ascii a < 128)%N.
Proof.
  unfold solid. intros [H1 H2]%andb_true_iff.
  split; [by apply negb_true_iff|by apply N.ltb_lt].
Qed.

Lemma continues_inv (a : ascii) :
  continues a = true -> (128 <= N_of_ascii a <= 191)%N.
Proof. unfold continues. intros [H1%N.leb_le H2%N.leb_le]%andb_true_iff. lia. Qed.

Lemma continues_not_solid (a : ascii) : continues a = true -> solid a = false.
Proof.
  intros Ha%continues_inv. unfold solid. apply andb_false_iff. right.
  apply N.ltb_ge. lia.
Qed.

Lemma is_space_not_solid (a : ascii) : is_space a = true -> solid a = false.
Proof. intros Ha. unfold solid. by rewrite Ha. Qed.

Lemma is_space2_inv (a b : ascii) :
  is_space2 a b = true -> N_of_ascii a = 194%N /\ N_of_ascii b = 160%N.
Proof.
  unfold is_space2. by intros [H1%N.eqb_eq H2%N.eqb_eq]%andb_true_iff.
Qed.

Lemma is_space3_inv (a b c : ascii) :
  is_space3 a b c = true ->
  (225 <= N_of_ascii a)%N /\ (128 <= N_of_ascii b <= 191)%N /\
  (128 <= N_of_ascii c <= 191)%N.
Proof.
  unfold is_space3. cbv zeta. intros H.
  repeat first [rewrite orb_true_iff in H | rewrite andb_true_iff in H
               | rewrite N.eqb_eq in H | rewrite N.leb_le in H].
  lia.
Qed.

(** A byte below [C2] starts no white-space character of several bytes. *)
Lemma low_lead (a b c : ascii) :
  (N_of_ascii a < 194)%N -> is_space2 a b = false /\ is_space3 a b c = false.
Proof.
  intros Ha. split.
  - destruct (is_space2 a b) eqn:H; [|done]. apply is_space2_inv in H. lia.
  - destruct (is_space3 a b c) eqn:H; [|done]. apply is_space3_inv in H. lia.
Qed.

Lemma skip_space_low (a : ascii) (r : string) :
  is_space a = false -> (N_of_ascii a < 194)%N -> skip_space (String a r) = None.
Proof.
  intros Hs Ha. unfold skip_space. rewrite Hs.
  destruct r as [|b [|c r]]; [done| |].
  - by rewrite (proj1 (low_lead a b b Ha)).
  - by rewrite (proj1 (low_lead a b c Ha)), (proj2 (low_lead a b c Ha)).
Qed.

Lemma skip_space_solid (a : ascii) (r : string) :
  solid a = true -> skip_space (String a r) = None.
Proof. intros [Hs Ha]%solid_inv. apply skip_space_low; [done|lia]. Qed.

Lemma skip_space_continues (a : ascii) (r : string) :
  continues a = true -> skip_space (String a r) = None.
Proof.
  intros Ha%continues_inv. apply skip_space_low; [|lia].
  destruct (is_space a) eqn:Hs; [|done]. apply is_space_ascii in Hs. lia.
Qed.

(** The white-space characters, by their number of bytes. *)
Lemma skip_space_inv (s r : string) :
  skip_space s = Some r ->
  (exists a, s = String a r /\ is_space a = true) \/
  (exists a b, s = String a (String b r) /\ is_space2 a b = true) \/
  (exists a b c, s = String a (String b (String c r)) /\ is_space3 a b c = true).
Proof.
  unfold skip_space. destruct s as [|a s]; [done|].
  destruct (is_space a) eqn:Ha; [intros [= <-]; eauto|].
  destruct s as [|b s]; [done|].
  destruct (is_space2 a b) eqn:Hb; [intros [= <-]; eauto 6|].
  destruct s as [|c s]; [done|].
  destruct (is_space3 a b c) eqn:Hc; [intros [= <-]; eauto 8|done].
Qed.

Lemma skip_space_shorter (s r : string) :
  skip_space s = Some r -> (String.length r < String.length s)%nat.
Proof.
  intros [(a & -> & _)|[(a & b & -> & _)|(a & b & c & -> & _)]]%skip_space_inv;
    simpl; lia.
Qed.

Lemma trimStart_unfold (s : string) :
  trimStart s = match skip_space s with Some r => trimStart r | None => s end.
Proof.
  destruct s as [|a [|b [|c r]]]; simpl; try done.
  - by destruct (is_space a).
  - destruct (is_space a); [done|]. by destruct (is_space2 a b).
  - destruct (is_space a); [done|]. destruct (is_space2 a b); [done|].
    by destruct (is_space3 a b c).
Qed.

Lemma skip_space_ind (P : string -> Prop) :
  (forall s, skip_space s = None -> P s) ->
  (forall s r, skip_space s = Some r -> P r -> P s) ->
  forall s, P s.
Proof.
  intros Hnone Hsome s.
  remember (String.length s) as n eqn:Hn. revert s Hn.
  induction n as [n IH] using lt_wf_ind. intros s ->.
  destruct (skip_space s) as [r|] eqn:Hs; [|by apply Hnone].
  apply (Hsome s r Hs). apply (IH (String.length r)); [|done].
  by apply skip_space_shorter.
Qed.

Lemma skip_space_app (s r t : string) :
  skip_space s = Some r -> skip_space (s +:+ t) = Some (r +:+ t).
Proof.
  intros [(a & -> & Ha)|[(a & b & -> & Hb)|(a & b & c & -> & Hc)]]%skip_space_inv;
    rewrite ?append_cons; unfold skip_space.
  - by rewrite Ha.
  - apply is_space2_inv in Hb as Hab.
    assert (is_space a = false) as ->.
    { destruct (is_space a) eqn:Hs; [|done]. apply is_space_ascii in Hs. lia. }
    by rewrite Hb.
  - apply is_space3_inv in Hc as Habc.
    assert (is_space a = false) as ->.
    { destruct (is_space a) eqn:Hs; [|done]. apply is_space_ascii in Hs. lia. }
    assert (is_space2 a b = false) as ->.
    { destruct (is_space2 a b) eqn:Hs; [|done]. apply is_space2_inv in Hs. lia. }
    by rewrite Hc.
Qed.

(** What [trimStart] leaves starts with no white space. *)
Lemma trimStart_stops (s : string) : skip_space (trimStart s) = None.
Proof.
  induction s as [s Hs|s r Hs IH] using skip_space_ind;
    rewrite trimStart_unfold, Hs; done.
Qed.

Lemma trimStart_fixed (s : string) : skip_space s = None -> trimStart s = s.
Proof. intros Hs. by rewrite trimStart_unfold, Hs. Qed.

Lemma trimStart_idem (s : string) : trimStart (trimStart s) = trimStart s.
Proof. apply trimStart_fixed, trimStart_stops. Qed.

(** What [trimStart] removes is made of bytes of white space. *)
Lemma trimStart_split (s : string) :
  exists pre, s = pre +:+ trimStart s /\ Forall (fun c => solid c = false) (chars pre).
Proof.
  induction s as [s Hs|s r Hs (pre & Hr & Hpre)] using skip_space_ind.
  - exists "". by rewrite trimStart_fixed.
  - rewrite trimStart_unfold, Hs.
    apply skip_space_inv in Hs
      as [(a & -> & Ha)|[(a & b & -> & Hb)|(a & b & c & -> & Hc)]].
    + exists (String a pre). rewrite append_cons, <- Hr. split; [done|].
      simpl. constructor; [by apply is_space_not_solid|done].
    + exists (String a (String b pre)). rewrite !append_cons, <- Hr. split; [done|].
      apply is_space2_inv in Hb. simpl. unfold solid.
      repeat constructor; try done; apply andb_false_iff; right; apply N.ltb_ge; lia.
    + exists (String a (String b (String c pre))). rewrite !append_cons, <- Hr.
      split; [done|]. apply is_space3_inv in Hc. simpl. unfold solid.
      repeat constructor; try done; apply andb_false_iff; right; apply N.ltb_ge; lia.
Qed.

Lemma blank_spec (s : string) : blank s = true <-> trimStart s = "".
Proof. unfold blank. apply String.eqb_eq. Qed.

Lemma blank_nil : blank "" = true.
Proof. done. Qed.

Lemma blank_skip (s r : string) : skip_space s = Some r -> blank s = blank r.
Proof. intros Hs. unfold blank. by rewrite (trimStart_unfold s), Hs. Qed.

Lemma blank_stuck (s : string) : skip_space s = None -> s <> "" -> blank s = false.
Proof.
  intros Hs Hne. unfold blank. rewrite trimStart_fixed by done.
  by apply String.eqb_neq.
Qed.

(** White space followed by text: [trimStart] goes on into the text. *)
Lemma trimStart_blank_app (x y : string) :
  blank x = true -> trimStart (x +:+ y) = trimStart y.
Proof.
  induction x as [x Hx|x r Hx IH] using skip_space_ind; intros Hb.
  - destruct x as [|a x]; [done|]. by rewrite blank_stuck in Hb.
  - rewrite (trimStart_unfold (x +:+ y)), (skip_space_app x r y Hx).
    apply IH. by rewrite <- (blank_skip x r).
Qed.

Lemma blank_app (x y : string) : blank x = true -> blank (x +:+ y) = blank y.
Proof. intros Hx. unfold blank. by rewrite trimStart_blank_app. Qed.

Lemma blank_bytes (s : string) :
  blank s = true -> Forall (fun c => solid c = false) (chars s).
Proof.
  intros Hs%blank_spec. destruct (trimStart_split s) as (pre & Heq & Hpre).
  rewrite Hs, append_nil_r in Heq. by subst.
Qed.

Lemma trimEnd_unfold (a : ascii) (r : string) :
  trimEnd (String a r) = if blank (String a r) then "" else String a (trimEnd r).
Proof. reflexivity. Qed.

Lemma trimEnd_blank (s : string) : blank s = true -> trimEnd s = "".
Proof. destruct s as [|a r]; [done|]. rewrite trimEnd_unfold. by intros ->. Qed.

(** What [trimEnd] removes is white space. *)
Lemma trimEnd_split (s : string) :
  exists post, s = trimEnd s +:+ post /\ blank post = true.
Proof.
  induction s as [|a r (post & Hr & Hpost)]; [by exists ""|].
  rewrite trimEnd_unfold. destruct (blank (String a r)) eqn:Hb.
  - by exists (String a r).
  - exists post. by rewrite append_cons, <- Hr.
Qed.

Lemma trimEnd_nil_blank (s : string) : trimEnd s = "" -> blank s = true.
Proof.
  destruct s as [|a r]; [done|]. rewrite trimEnd_unfold.
  by destruct (blank (String a r)).
Qed.

Lemma trimEnd_idem (s : string) : trimEnd (trimEnd s) = trimEnd s.
Proof.
  induction s as [|a r IH]; [done|].
  rewrite trimEnd_unfold. destruct (blank (String a r)) eqn:Hb; [done|].
  rewrite trimEnd_unfold, IH.
  destruct (blank (String a (trimEnd r))) eqn:Hb'; [|done].
  destruct (trimEnd_split r) as (post & Hr & Hpost).
  rewrite Hr, <- append_cons in Hb. rewrite (blank_app _ _ Hb') in Hb. congruence.
Qed.

(** A prefix of a text that starts with no white space starts with none. *)
Lemma skip_space_prefix (p q : string) : skip_space (p +:+ q) = None -> skip_space p = None.
Proof.
  intros Hpq. destruct (skip_space p) as [r|] eqn:Hp; [|done].
  by rewrite (skip_space_app p r q Hp) in Hpq.
Qed.

Lemma trimStart_trimEnd_fixed (s : string) :
  skip_space s = None -> trimStart (trimEnd s) = trimEnd s.
Proof.
  intros Hs. apply trimStart_fixed.
  destruct (trimEnd_split s) as (post & Heq & _). rewrite Heq in Hs.
  by apply skip_space_prefix in Hs.
Qed.

Lemma trimStart_trim (s : string) : trimStart (trim s) = trim s.
Proof. apply trimStart_trimEnd_fixed, trimStart_stops. Qed.

Lemma trim_idem (s : string) : trim (trim s) = trim s.
Proof. unfold trim at 1. rewrite trimStart_trim. apply trimEnd_idem. Qed.

Lemma is_space2_lead (a b : ascii) : is_space2 a b = true -> is_space a = false.
Proof.
  intros Hab%is_space2_inv. destruct (is_space a) eqn:Hs; [|done].
  apply is_space_ascii in Hs. lia.
Qed.

Lemma is_space3_lead (a b c : ascii) :
  is_space3 a b c = true -> is_space a = false /\ is_space2 a b = false.
Proof.
  intros Habc%is_space3_inv. split.
  - destruct (is_space a) eqn:Hs; [|done]. apply is_space_ascii in Hs. lia.
  - destruct (is_space2 a b) eqn:Hs; [|done]. apply is_space2_inv in Hs. lia.
Qed.

Lemma continues_range (a : ascii) : (128 <= N_of_ascii a <= 191)%N -> continues a = true.
Proof. intros Ha. unfold continues. apply andb_true_iff. split; apply N.leb_le; lia. Qed.

(** [trimEnd] keeps a white-space character that text follows. *)
Lemma trimEnd_skip (s r : string) :
  skip_space s = Some r -> blank r = false ->
  exists w, skip_space w = Some "" /\ trimEnd s = w +:+ trimEnd r.
Proof.
  intros Hs Hr. pose proof (blank_skip s r Hs) as Hb. rewrite Hr in Hb.
  apply skip_space_inv in Hs
    as [(a & -> & Ha)|[(a & b & -> & Hab)|(a & b & c & -> & Habc)]].
  - exists (String a ""). split.
    + unfold skip_space. by rewrite Ha.
    + by rewrite trimEnd_unfold, Hb.
  - exists (String a (String b "")). split.
    + unfold skip_space. by rewrite (is_space2_lead a b Hab), Hab.
    + rewrite trimEnd_unfold, Hb, trimEnd_unfold.
      apply is_space2_inv in Hab.
      rewrite blank_stuck; [done| |done].
      apply skip_space_continues, continues_range. lia.
  - exists (String a (String b (String c ""))). split.
    + unfold skip_space. destruct (is_space3_lead a b c Habc) as [-> ->]. by rewrite Habc.
    + rewrite trimEnd_unfold, Hb, !trimEnd_unfold.
      apply is_space3_inv in Habc.
      rewrite !blank_stuck; [done| |done| |done];
        apply skip_space_continues, continues_range; lia.
Qed.

Lemma trimStart_trimEnd (s : string) : trimStart (trimEnd s) = trimEnd (trimStart s).
Proof.
  induction s as [s Hs|s r Hs IH] using skip_space_ind.
  - by rewrite (trimStart_fixed s Hs), trimStart_trimEnd_fixed.
  - rewrite (trimStart_unfold s), Hs, <- IH.
    destruct (blank r) eqn:Hr.
    + rewrite (trimEnd_blank r Hr), (trimEnd_blank s); [done|].
      by rewrite (blank_skip s r Hs).
    + destruct (trimEnd_skip s r Hs Hr) as (w & Hw & ->).
      by rewrite trimStart_unfold, (skip_space_app w "" _ Hw).
Qed.

Lemma trim_trimEnd (s : string) : trim (trimEnd s) = trim s.
Proof. unfold trim. by rewrite trimStart_trimEnd, trimEnd_idem. Qed.

Lemma trim_trimStart (s : string) : trim (trimStart s) = trim s.
Proof. unfold trim. by rewrite trimStart_idem. Qed.

Lemma trimEnd_nonblank (s : string) : trim s <> "" -> trimEnd s <> "".
Proof.
  intros Hs He. apply Hs. unfold trim. by rewrite <- trimStart_trimEnd, He.
Qed.

Lemma trim_nil_blank (s : string) : trim s = "" <-> blank s = true.
Proof.
  unfold trim. split.
  - intros Hs%trimEnd_nil_blank. unfold blank in *. by rewrite trimStart_idem in Hs.
  - intros Hs%blank_spec. by rewrite Hs.
Qed.

(** A first byte that is ASCII and no white space stays in place. *)
(** White space in front of a text ends before a byte that is solid. *)
Lemma trimStart_append_solid (a p : string) :
  starts_solid p = true -> exists a', trimStart (a +:+ p) = a' +:+ p.
Proof.
  intros Hp. destruct (trimStart_split (a +:+ p)) as (pre & Heq & Hpre).
  apply append_eq_inv in Heq as [(k & _ & Hk)|(k & -> & Hk)]; [by exists k|].
  destruct k as [|c k].
  - exists "". by rewrite append_nil_l in *.
  - destruct p as [|c' p]; [done|]. rewrite append_cons in Hk. injection Hk as <- _.
    rewrite chars_append, Forall_app in Hpre. destruct Hpre as [_ Hc].
    apply Forall_cons in Hc as [Hc _]. simpl in Hp. by rewrite Hc in Hp.
Qed.

Lemma trimStart_solid (s : string) : starts_solid s = true -> trimStart s = s.
Proof.
  destruct s as [|a r]; [done|]. cbn [starts_solid]. intros Ha.
  by apply trimStart_fixed, skip_space_solid.
Qed.

Lemma trimEnd_solid_head (a : ascii) (r : string) :
  solid a = true -> trimEnd (String a r) = String a (trimEnd r).
Proof.
  intros Ha. rewrite trimEnd_unfold, blank_stuck; [done| |done].
  by apply skip_space_solid.
Qed.

Lemma ends_solid_append (a p : string) :
  ends_solid p = true -> ends_solid (a +:+ p) = true.
Proof.
  intros Hp. induction a as [|c a IH]; [done|].
  rewrite append_cons. cbn [ends_solid].
  destruct (a +:+ p) eqn:Hap; [done|done].
Qed.

Lemma ends_solid_nonempty (p : string) : ends_solid p = true -> p <> "".
Proof. by destruct p. Qed.

(** The last byte of a text is the last byte of what it ends with. *)
Lemma ends_solid_app_r (t k : string) : k <> "" -> ends_solid (t +:+ k) = ends_solid k.
Proof.
  intros Hk. induction t as [|c t IH]; [done|].
  rewrite append_cons. cbn [ends_solid]. rewrite IH.
  destruct (t +:+ k) eqn:Htk; [|done].
  destruct t; [|done]. rewrite append_nil_l in Htk. done.
Qed.

Lemma ends_solid_byte (k : string) :
  ends_solid k = true -> Exists (fun c => solid c = true) (chars k).
Proof.
  induction k as [|c k IH]; [done|]. cbn [ends_solid]. destruct k as [|d k].
  - intros Hc. by left.
  - intros Hk. right. by apply IH.
Qed.

Lemma not_solid_ends (k : string) :
  Forall (fun c => solid c = false) (chars k) -> ends_solid k = false.
Proof.
  intros Hk. destruct (ends_solid k) eqn:He; [|done].
  apply ends_solid_byte, Exists_exists in He as (c & Hc & Hs).
  rewrite Forall_forall in Hk. by rewrite (Hk c Hc) in Hs.
Qed.

Lemma trimEnd_solid (s : string) : ends_solid s = true -> trimEnd s = s.
Proof.
  intros Hs. destruct (trimEnd_split s) as (post & Heq & Hpost).
  destruct post as [|c post]; [by rewrite append_nil_r in Heq|].
  rewrite Heq, ends_solid_app_r in Hs by done.
  by rewrite (not_solid_ends _ (blank_bytes _ Hpost)) in Hs.
Qed.

Lemma chars_trimStart (s : string) (x : ascii) :
  x ∈ chars (trimStart s) -> x ∈ chars s.
Proof.
  intros Hx. destruct (trimStart_split s) as (pre & Heq & _).
  rewrite Heq, chars_append, elem_of_app. by right.
Qed.

Lemma chars_trimEnd (s : string) (x : ascii) :
  x ∈ chars (trimEnd s) -> x ∈ chars s.
Proof.
  intros Hx. destruct (trimEnd_split s) as (post & Heq & _).
  rewrite Heq, chars_append, elem_of_app. by left.
Qed.

Lemma chars_trim (s : string) (x : ascii) : x ∈ chars (trim s) -> x ∈ chars s.
Proof. intros Hx%chars_trimEnd. by apply chars_trimStart. Qed.

End Space.


(** ** Strings *)

Module JsFacts.
Import Js Names.

Lemma startsWith_nil s : startsWith "" s = true.
Proof. by destruct s. Qed.

Lemma startsWith_cons c p a r :
  startsWith (String c p) (String a r) = true <-> c = a /\ startsWith p r = true.
Proof.
  unfold startsWith. simpl. destruct (ascii_dec c a); split; intros; try tauto.
  discriminate.
Qed.

Lemma startsWith_spec (p s : string) :
  startsWith p s = true <-> exists v, s = p +:+ v.
Proof.
  revert s. induction p as [|c p IH]; intros s.
  - rewrite startsWith_nil. split; [|done]. intros _. by exists s.
  - destruct s as [|a r].
    + split; [done|]. by intros [v Hv].
    + rewrite startsWith_cons, IH. split.
      * intros [-> [v ->]]. by exists v.
      * intros [v Hv]. rewrite append_cons in Hv. injection Hv as -> ->. eauto.
Qed.

Lemma includes_startsWith p s : startsWith p s = true -> includes p s = true.
Proof. intros Hs. destruct s; cbn [includes]; by rewrite Hs. Qed.

Lemma includes_cons p a r :
  includes p (String a r) = startsWith p (String a r) || includes p r.
Proof. reflexivity. Qed.

Lemma includes_nil_false p : p <> "" -> includes p "" = false.
Proof. by destruct p. Qed.

Lemma includes_spec (p s : string) :
  includes p s = true <-> exists u v, s = u +:+ p +:+ v.
Proof.
  induction s as [|a r IH].
  - cbn [includes]. rewrite orb_false_r, startsWith_spec. split.
    + intros [v Hv]. by exists "", v.
    + intros ([|x u] & v & Hv); [|done]. by exists v.
  - rewrite includes_cons, orb_true_iff, startsWith_spec, IH. split.
    + intros [[v Hv]|(u & v & ->)]; [by exists "", v|]. by exists (String a u), v.
    + intros ([|x u] & v & Hv).
      * left. by exists v.
      * right. rewrite append_cons in Hv. injection Hv as -> ->. eauto.
Qed.

Lemma includes_trimStart p s :
  starts_solid p = true -> includes p s = true -> includes p (trimStart s) = true.
Proof.
  intros Hp (u & v & Hs)%includes_spec. apply includes_spec.
  destruct (Space.trimStart_split s) as (pre & Heq & Hpre).
  rewrite Hs in Heq at 1.
  apply append_eq_inv in Heq as [(k & -> & Hk)|(k & -> & Hk)].
  - rewrite Hk. by exists k, v.
  - destruct k as [|c k].
    + rewrite append_nil_l in Hk. exists "", v. by rewrite <- Hk.
    + destruct p as [|c' p]; [done|]. rewrite !append_cons in Hk. injection Hk as <- _.
      rewrite chars_append, Forall_app in Hpre. destruct Hpre as [_ Hc].
      apply Forall_cons in Hc as [Hc _]. simpl in Hp. by rewrite Hc in Hp.
Qed.

Lemma includes_trimEnd p s :
  ends_solid p = true -> includes p s = true -> includes p (trimEnd s) = true.
Proof.
  intros Hp (u & v & Hs)%includes_spec. apply includes_spec.
  destruct (Space.trimEnd_split s) as (post & Heq & Hpost).
  rewrite Hs in Heq at 1. rewrite <- append_assoc in Heq.
  apply append_eq_inv in Heq as [(k & Hk & ->)|(k & -> & Hk)].
  - destruct k as [|c k].
    + rewrite append_nil_r in Hk. exists u, "". by rewrite <- Hk, append_nil_r.
    + exfalso. apply Space.blank_bytes in Hpost.
      rewrite chars_append, Forall_app in Hpost. destruct Hpost as [Hk' _].
      apply Space.not_solid_ends in Hk'.
      rewrite <- (Space.ends_solid_app_r (trimEnd s)), <- Hk in Hk' by done.
      by rewrite Space.ends_solid_append in Hk'.
  - exists u, k. by rewrite append_assoc.
Qed.

(** Trimming removes no occurrence of a pattern that neither starts nor
    ends with a byte of white space. *)
Lemma includes_trim p s :
  starts_solid p = true -> ends_solid p = true ->
  includes p s = true -> includes p (trim s) = true.
Proof.
  intros ? ? ?. by apply includes_trimEnd, includes_trimStart.
Qed.

Lemma includes_weaken p q s :
  startsWith p q = true -> includes q s = true -> includes p s = true.
Proof.
  intros [v ->]%startsWith_spec (u & w & ->)%includes_spec.
  apply includes_spec. exists u, (v +:+ w). by rewrite append_assoc.
Qed.

Lemma includes_nonempty p s : p <> "" -> includes p s = true -> s <> "".
Proof. intros Hp Hs ->. by rewrite includes_nil_false in Hs. Qed.

End JsFacts.


(** ** The order of sort *)

Module Order.
Import Js Names.

Lemma unit_rank_N (c : ascii) :
  N_of_ascii (unit_rank c) =
    (let n := N_of_ascii c in
     if (238 <=? n) && (n <=? 239) then n + 5
     else if (240 <=? n) && (n <=? 244) then n - 2 else n)%N.
Proof.
  unfold unit_rank. cbv zeta.
  destruct ((238 <=? N_of_ascii c)%N && (N_of_ascii c <=? 239)%N) eqn:H1.
  { apply andb_true_iff in H1 as [_ H1%N.leb_le]. apply N_ascii_embedding. lia. }
  destruct ((240 <=? N_of_ascii c)%N && (N_of_ascii c <=? 244)%N) eqn:H2; [|done].
  apply andb_true_iff in H2 as [_ H2%N.leb_le]. apply N_ascii_embedding. lia.
Qed.

Lemma N_of_ascii_inj (a b : ascii) : N_of_ascii a = N_of_ascii b -> a = b.
Proof.
  intros Hab. rewrite <- (ascii_N_embedding a), <- (ascii_N_embedding b). by f_equal.
Qed.

Lemma unit_rank_inj (a b : ascii) : unit_rank a = unit_rank b -> a = b.
Proof.
  intros Hab%(f_equal N_of_ascii). rewrite !unit_rank_N in Hab. cbv zeta in Hab.
  apply N_of_ascii_inj.
  destruct (N.leb_spec 238 (N_of_ascii a)), (N.leb_spec (N_of_ascii a) 239),
    (N.leb_spec 240 (N_of_ascii a)), (N.leb_spec (N_of_ascii a) 244),
    (N.leb_spec 238 (N_of_ascii b)), (N.leb_spec (N_of_ascii b) 239),
    (N.leb_spec 240 (N_of_ascii b)), (N.leb_spec (N_of_ascii b) 244);
    simpl in Hab; lia.
Qed.

Lemma sort_key_inj (a b : string) : sort_key a = sort_key b -> a = b.
Proof.
  revert b. induction a as [|x a IH]; intros [|y b]; try done. simpl.
  intros [= Hxy%unit_rank_inj Hab%IH]. by subst.
Qed.

(** Below [EE] a byte keeps its place. *)
Lemma unit_rank_low (c : ascii) : (N_of_ascii c < 238)%N -> unit_rank c = c.
Proof.
  intros Hc. unfold unit_rank. cbv zeta.
  destruct (N.leb_spec 238 (N_of_ascii c)); [lia|]. simpl.
  destruct (N.leb_spec 240 (N_of_ascii c)); [lia|]. done.
Qed.

Lemma sort_key_low (s : string) :
  Forall (fun c => (N_of_ascii c < 238)%N) (chars s) -> sort_key s = s.
Proof.
  induction s as [|c s IH]; [done|]. simpl. intros [Hc Hs]%Forall_cons.
  by rewrite unit_rank_low, IH.
Qed.

#[global] Instance sort_le_po : PartialOrder sort_le.
Proof.
  unfold sort_le. split; [split|].
  - intros a. reflexivity.
  - intros a b c Hab Hbc. by etrans.
  - intros a b Hab Hba. apply sort_key_inj. by apply (anti_symm String.le).
Qed.

#[global] Instance sort_le_total : Total sort_le.
Proof. intros a b. unfold sort_le. apply (stdpp.base.total String.le). Qed.

(** Among names below [EE] throughout, the order of [sort] is the order
    of the bytes. *)
Lemma sort_le_low (a b : string) :
  Forall (fun c => (N_of_ascii c < 238)%N) (chars a) ->
  Forall (fun c => (N_of_ascii c < 238)%N) (chars b) ->
  sort_le a b <-> String.le a b.
Proof. intros Ha Hb. unfold sort_le. by rewrite !sort_key_low. Qed.

Lemma elem_of_sorted_reversed (names : list string) (n : string) :
  n ∈ sorted_reversed names <-> n ∈ names.
Proof. unfold sorted_reversed. by rewrite elem_of_reverse, merge_sort_Permutation. Qed.

Lemma sorted_reversed_Permutation (names : list string) : sorted_reversed names ≡ₚ names.
Proof. unfold sorted_reversed. by rewrite reverse_Permutation, merge_sort_Permutation. Qed.

Lemma sorted_reversed_NoDup (names : list string) :
  NoDup names -> NoDup (sorted_reversed names).
Proof. by rewrite sorted_reversed_Permutation. Qed.

Lemma sorted_reversed_length (names : list string) :
  length (sorted_reversed names) = length names.
Proof. by rewrite sorted_reversed_Permutation. Qed.

(** The largest first: every name is at least as large as the names after
    it. *)
Lemma sorted_reversed_sorted (names : list string) :
  StronglySorted (flip sort_le) (sorted_reversed names).
Proof.
  unfold sorted_reversed. apply Sorted_StronglySorted; [apply _|].
  apply Sorted_reverse, Sorted_merge_sort, _.
Qed.

(** Two lists of the same names, the largest first and without repetition,
    are the same list. *)
Lemma listing_unique (l1 l2 : list string) :
  StronglySorted (flip sort_le) l1 ->
  StronglySorted (flip sort_le) l2 ->
  NoDup l1 -> NoDup l2 ->
  (forall n, n ∈ l1 <-> n ∈ l2) ->
  l1 = l2.
Proof.
  intros Hs1 Hs2 Hn1 Hn2 Heq.
  apply (StronglySorted_unique_strong (flip sort_le)); try done.
  - intros x y _ _ Hxy Hyx. by apply (anti_symm sort_le).
  - by apply NoDup_Permutation.
Qed.

Lemma strictly_sorted_NoDup (names : list string) :
  StronglySorted (strict sort_le) names -> NoDup names.
Proof.
  induction 1 as [|x l Hl IH Hx]; constructor; [|done].
  intros Hin. rewrite Forall_forall in Hx. by destruct (Hx x Hin) as [_ []].
Qed.

Lemma strictly_sorted_Sorted (names : list string) :
  StronglySorted (strict sort_le) names -> Sorted sort_le names.
Proof.
  intros Hs. apply StronglySorted_Sorted.
  induction Hs as [|x l Hl IH Hx]; constructor; [done|].
  eapply Forall_impl; [exact Hx|]. by intros y [Hxy _].
Qed.

(** A list in the order of [sort], read backwards. *)
Lemma sorted_reversed_ascending (names : list string) :
  StronglySorted (strict sort_le) names -> sorted_reversed names = reverse names.
Proof.
  intros Hs. apply listing_unique.
  - apply sorted_reversed_sorted.
  - apply Sorted_StronglySorted; [apply _|].
    by apply Sorted_reverse, strictly_sorted_Sorted.
  - by apply sorted_reversed_NoDup, strictly_sorted_NoDup.
  - rewrite reverse_Permutation. by apply strictly_sorted_NoDup.
  - intros n. by rewrite elem_of_sorted_reversed, elem_of_reverse.
Qed.

Lemma elem_of_insert_desc (x n : string) (l : list string) :
  n ∈ insert_desc x l <-> n = x \/ n ∈ l.
Proof.
  induction l as [|y l IH]; simpl.
  - rewrite list_elem_of_singleton, elem_of_nil. tauto.
  - case_decide; rewrite !elem_of_cons, ?IH; tauto.
Qed.

Lemma insert_desc_sorted (x : string) (l : list string) :
  StronglySorted (flip sort_le) l -> StronglySorted (flip sort_le) (insert_desc x l).
Proof.
  induction l as [|y l IH]; intros Hl; simpl.
  - repeat constructor.
  - apply StronglySorted_inv in Hl as [Hl Hy]. case_decide as Hyx.
    + constructor; [by constructor|]. constructor; [done|].
      eapply Forall_impl; [exact Hy|]. intros z Hz. simpl in *. by etrans.
    + constructor; [by apply IH|]. apply Forall_forall.
      intros z [->|Hz]%elem_of_insert_desc.
      * simpl. by destruct (stdpp.base.total sort_le y x).
      * rewrite Forall_forall in Hy. by apply Hy.
Qed.

Lemma insert_desc_NoDup (x : string) (l : list string) :
  x ∉ l -> NoDup l -> NoDup (insert_desc x l).
Proof.
  induction l as [|y l IH]; intros Hx Hl; simpl.
  - apply NoDup_singleton.
  - case_decide; [by constructor|].
    apply NoDup_cons in Hl as [Hy Hl]. apply not_elem_of_cons in Hx as [Hxy Hx].
    constructor; [|by apply IH].
    intros [->|?]%elem_of_insert_desc; done.
Qed.

(** Putting a name in place commutes with keeping the first [N]. *)
Lemma take_insert_desc (N : nat) (x : string) (l : list string) :
  take N (insert_desc x (take N l)) = take N (insert_desc x l).
Proof.
  revert N. induction l as [|y l IH]; intros [|N]; try done.
  simpl. case_decide.
  - simpl. f_equal. destruct N as [|N]; [done|]. simpl. f_equal.
    rewrite take_take. f_equal. lia.
  - simpl. f_equal. apply IH.
Qed.

End Order.

(** ** Reading by id *)

Lemma string_or_empty s : Js.string_or (Some s) "" = s.
Proof. unfold Js.string_or. by destruct (String.eqb_spec s ""). Qed.

Lemma invalidId_traversing id : traversing id -> invalidId (Js.trim id) = true.
Proof.
  intros Hid. unfold invalidId.
  assert (Js.includes ".." id = true \/ Js.includes "/" id = true \/
          Js.includes "\" id = true) as Hcases.
  { destruct Hid as [Hid|Hid]; [left|tauto].
    by apply (JsFacts.includes_weaken ".." "../"). }
  cbv zeta.
  destruct (String.eqb _ ""); [done|].
  destruct Hcases as [Hd|[Hs|Hb]].
  - by rewrite (JsFacts.includes_trim ".." (Js.trim id))
      by (done || by apply JsFacts.includes_trim).
  - destruct (Js.includes ".." _); [done|].
    by rewrite (JsFacts.includes_trim "/" (Js.trim id))
      by (done || by apply JsFacts.includes_trim).
  - destruct (Js.includes ".." _); [done|].
    rewrite (JsFacts.includes_trim "\" (Js.trim id))
      by (done || by apply JsFacts.includes_trim).
    by rewrite orb_true_r.
Qed.

Section Reads.
Context {rt : JsRuntime}.

(** C9. A request for the view or for the raw body of an id that holds
    [../], [..], [/] or a backslash is answered [400 invalid id], and the
    world it leaves is the world it found: no file-system call is made. *)
Theorem invalid_id_rejected (cfg : config) (req : request) (w : world) (id : string) :
  url_id req = Some id ->
  traversing id ->
  (if readTokenRequired cfg then requireToken cfg req else None) = None ->
  handleGetView cfg req w = (Some (Text 400 (line "invalid id")), w) /\
  handleGetRaw cfg req w = (Some (Text 400 (line "invalid id")), w).
Proof.
  intros Hid Htr Hauth. unfold handleGetView, handleGetRaw.
  rewrite Hauth, Hid, string_or_empty.
  by rewrite (invalidId_traversing id Htr).
Qed.

End Reads.

(** C9 on a request for [../../etc/passwd]. *)
Lemma invalid_id_rejected_witness :
  let req := Sample.get "../../etc/passwd" in
  let w := Sample.holding [("a.json", [x7b])] in
  handleGetView (rt := Sample.runtime) (Sample.cfg 2) req w = (Some (Text 400 (line "invalid id")), w) /\
  handleGetRaw (rt := Sample.runtime) (Sample.cfg 2) req w = (Some (Text 400 (line "invalid id")), w).
Proof.
  apply (invalid_id_rejected (rt := Sample.runtime) (Sample.cfg 2)
           (Sample.get "../../etc/passwd") _ "../../etc/passwd").
  - reflexivity.
  - left. reflexivity.
  - reflexivity.
Defined.

(** ** The directory listing *)

Lemma elem_of_documents (names : list string) (n : string) :
  n ∈ documents names <-> n ∈ names /\ Js.endsWith ".json" n = true.
Proof.
  unfold documents.
  rewrite Order.elem_of_sorted_reversed, list_elem_of_filter. tauto.
Qed.

Lemma documents_NoDup (names : list string) : NoDup names -> NoDup (documents names).
Proof.
  intros Hnd. unfold documents. by apply Order.sorted_reversed_NoDup, NoDup_filter.
Qed.

(** Newest first: every name is at least as large as the names after it. *)
Lemma documents_sorted (names : list string) :
  StronglySorted (flip Js.sort_le) (documents names).
Proof. apply Order.sorted_reversed_sorted. Qed.

Lemma elem_of_readdir (w : world) (n : string) :
  n ∈ (readdir w).1 <-> is_Some (files w !! n).
Proof.
  unfold readdir. simpl. rewrite list_elem_of_fmap. split.
  - intros [[k v] [-> Hkv]]. apply elem_of_map_to_list in Hkv. eauto.
  - intros [v Hv]. exists (n, v). split; [done|]. by apply elem_of_map_to_list.
Qed.

Lemma readdir_NoDup (w : world) : NoDup (readdir w).1.
Proof. apply NoDup_fst_map_to_list. Qed.

Lemma elem_of_listing (w : world) (n : string) :
  n ∈ documents (readdir w).1 <-> is_document w n.
Proof. unfold is_document. by rewrite elem_of_documents, elem_of_readdir. Qed.

(** ** Eviction *)

Section Retention.
Context {rt : JsRuntime}.

Lemma evict_unfold (w : world) (n : string) :
  evict w n =
    let b := staleBodyName (readFile n w).1 in
    let w' := unlink n (call (ReadFile n) w) in
    if String.eqb b "" then w' else if unsafe_name b then w' else unlink b w'.
Proof. reflexivity. Qed.

Lemma evict_calls (w : world) (n : string) :
  exists extra,
    calls (evict w n) = calls w ++ ReadFile n :: Unlink n :: extra /\
    (extra = [] \/ exists b, extra = [Unlink b] /\ plain_name b).
Proof.
  rewrite evict_unfold. cbv zeta.
  destruct (String.eqb_spec (staleBodyName (readFile n w).1) "") as [Hb|Hb].
  { exists []. simpl. rewrite <- app_assoc. auto. }
  destruct (unsafe_name _) eqn:Hu.
  { exists []. simpl. rewrite <- app_assoc. auto. }
  eexists [Unlink _]. simpl. rewrite <- !app_assoc. split; [done|].
  right. eexists. split; [done|]. by split.
Qed.

Lemma evict_lookup (w : world) (n x : string) :
  files (evict w n) !! x = None \/ files (evict w n) !! x = files w !! x.
Proof.
  rewrite evict_unfold. cbv zeta.
  assert (forall m : gmap string (list byte), delete n m !! x = None \/ delete n m !! x = m !! x) as Hdel.
  { intros m. destruct (decide (n = x)) as [->|]; [left; apply lookup_delete_eq|right; by apply lookup_delete_ne]. }
  destruct (String.eqb _ ""); [apply Hdel|].
  destruct (unsafe_name _); [apply Hdel|]. simpl.
  set (b := staleBodyName _).
  destruct (decide (b = x)) as [->|]; [left; apply lookup_delete_eq|].
  rewrite lookup_delete_ne by done. apply Hdel.
Qed.

Lemma evict_gone (w : world) (n : string) : files (evict w n) !! n = None.
Proof.
  rewrite evict_unfold. cbv zeta.
  destruct (String.eqb _ ""); [apply lookup_delete_eq|].
  destruct (unsafe_name _); [apply lookup_delete_eq|]. simpl.
  set (b := staleBodyName _).
  destruct (decide (b = n)) as [->|]; [apply lookup_delete_eq|].
  rewrite lookup_delete_ne by done. apply lookup_delete_eq.
Qed.

(** Eviction only removes entries. *)
Lemma foldl_evict_lookup (stale : list string) (w : world) (x : string) :
  files (foldl evict w stale) !! x = None \/
  files (foldl evict w stale) !! x = files w !! x.
Proof.
  revert w. induction stale as [|n stale IH]; intros w; [by right|].
  simpl. destruct (IH (evict w n)) as [->| ->]; [by left|]. apply evict_lookup.
Qed.

Lemma foldl_evict_gone (stale : list string) (w : world) (n : string) :
  n ∈ stale -> files (foldl evict w stale) !! n = None.
Proof.
  revert w. induction stale as [|m stale IH]; intros w Hn; [by apply elem_of_nil in Hn|].
  simpl. apply elem_of_cons in Hn as [->|Hn]; [|by apply IH].
  destruct (foldl_evict_lookup stale (evict w m) m) as [->| ->]; [done|].
  apply evict_gone.
Qed.

Lemma foldl_evict_unlinks (ok : string -> Prop) (stale : list string) (w : world) :
  (forall n, n ∈ stale -> ok n) ->
  (forall p, Unlink p ∈ calls w -> ok p \/ plain_name p) ->
  forall p, Unlink p ∈ calls (foldl evict w stale) -> ok p \/ plain_name p.
Proof.
  revert w. induction stale as [|n stale IH]; intros w Hstale Hw; [done|].
  simpl. apply IH.
  - intros m Hm. apply Hstale. by right.
  - intros p. destruct (evict_calls w n) as (extra & -> & Hextra).
    rewrite elem_of_app, !elem_of_cons.
    intros [Hp|[Hp|[Hp|Hp]]]; [by apply Hw|done| |].
    + injection Hp as ->. left. apply Hstale. by left.
    + destruct Hextra as [->|(b & -> & Hb)]; [by apply elem_of_nil in Hp|].
      apply list_elem_of_singleton in Hp. injection Hp as ->. by right.
Qed.

(** C10. For a stale document whose [body_file] is empty after trimming, or
    holds [..], [/] or a backslash, eviction removes the document and leaves
    out the removal of the blob. Hence every path [enforceRetention] unlinks
    is a document of the directory or a plain name, which [path.join] keeps
    inside the directory, whatever the documents hold. *)
Theorem retention_checks_blob_name (cfg : config) (w : world) :
  (forall n : string,
     let b := staleBodyName (readFile n w).1 in
     b = "" \/ unsafe_name b = true ->
     evict w n = unlink n (call (ReadFile n) w) /\
     files (evict w n) = delete n (files w)) /\
  (forall p : string,
     Unlink p ∈ calls (enforceRetention cfg w) ->
     Unlink p ∈ calls w \/ is_document w p \/ plain_name p).
Proof.
  split.
  - intros n b Hb. rewrite evict_unfold. fold b. cbv zeta.
    destruct Hb as [-> | ->]; [done|]. by destruct (String.eqb b "").
  - intros p. unfold enforceRetention.
    destruct (maxRecords cfg <=? 0); [by left|].
    intros Hp.
    cut ((Unlink p ∈ calls w \/ is_document w p) \/ plain_name p); [tauto|].
    revert p Hp. simpl. apply foldl_evict_unlinks.
    + intros n Hn%subseteq_drop. right. by apply elem_of_listing.
    + intros p. simpl. rewrite elem_of_app, list_elem_of_singleton.
      intros [?|?]; [by left; left|done].
Qed.

End Retention.

(** C10 on a stale document whose [body_file] is [../../etc/passwd]. *)
Lemma retention_checks_blob_name_witness :
  let w := Sample.holding [("b.json", Buffer.bytes_of "{../../etc/passwd"); ("c.json", Buffer.bytes_of "{c.body")] in
  evict (rt := Sample.runtime) w "b.json" = unlink "b.json" (call (ReadFile "b.json") w) /\
  files (evict (rt := Sample.runtime) w "b.json") = delete "b.json" (files w).
Proof.
  intros w.
  apply (proj1 (retention_checks_blob_name (rt := Sample.runtime) (Sample.cfg 1) w) "b.json").
  right. reflexivity.
Defined.

(** ** The transform stream *)

Lemma tap_inv_init (P : Z) : tap_inv P Tap.init.
Proof. split; simpl; by rewrite ?take_nil. Qed.

Lemma transform_inr (maxBytes : Z) (expected : option Z) (P : Z)
    (t t' : Tap.state) (chunk : list byte) :
  transform maxBytes expected P t chunk = inr t' ->
  Tap.written t' = Tap.written t + Z.of_nat (length chunk) /\
  Tap.written t' <= maxBytes /\
  (forall e, expected = Some e -> Tap.written t' <= e) /\
  Tap.hasher t' = Tap.hasher t ++ chunk.
Proof.
  unfold transform.
  destruct (Z.gtb_spec (Tap.written t + Z.of_nat (length chunk)) maxBytes); [done|].
  assert (forall e, expected = Some e ->
            (Tap.written t + Z.of_nat (length chunk) >? e) = false ->
            Tap.written t + Z.of_nat (length chunk) <= e) as Hexp.
  { intros e _ He. by destruct (Z.gtb_spec (Tap.written t + Z.of_nat (length chunk)) e). }
  destruct expected as [e|].
  - destruct (_ >? e) eqn:He; [done|].
    destruct (_ <? _); intros [= <-]; simpl; repeat split; try done;
      intros ? [= <-]; by apply Hexp.
  - destruct (_ <? _); intros [= <-]; simpl; repeat split; done.
Qed.

Lemma transform_inv (maxBytes : Z) (expected : option Z) (P : Z)
    (t t' : Tap.state) (chunk : list byte) :
  tap_inv P t ->
  transform maxBytes expected P t chunk = inr t' ->
  tap_inv P t'.
Proof.
  intros [Hw Hp Hb] Ht. pose proof (transform_inr _ _ _ _ _ _ Ht) as (Hw' & _ & _ & Hh').
  revert Ht. unfold transform.
  destruct (_ >? maxBytes); [done|].
  destruct (match expected with Some _ => _ | None => _ end); [done|].
  destruct (Z.ltb_spec (Tap.previewBytes t) P) as [Hlt|Hge]; intros [= <-]; simpl in *.
  - assert (length (Tap.hasher t) < Z.to_nat P)%nat as Hshort.
    { destruct (decide (length (Tap.hasher t) < Z.to_nat P)%nat) as [|Hn]; [done|].
      rewrite Hp, length_take_le in Hb by lia. lia. }
    assert (concat (Tap.previewChunks t) = Tap.hasher t) as Hall.
    { rewrite Hp. apply take_ge. lia. }
    split; simpl.
    + rewrite length_app. lia.
    + rewrite concat_app, Hall. simpl. rewrite app_nil_r.
      rewrite take_app. rewrite (take_ge (Tap.hasher t)) by lia.
      f_equal. rewrite Hb, Hall.
      destruct (Z.min_spec (P - Z.of_nat (length (Tap.hasher t))) (Z.of_nat (length chunk)))
        as [[? ->]|[? ->]].
      * f_equal. lia.
      * rewrite Nat2Z.id. rewrite !take_ge; [done|lia..].
    + rewrite concat_app, !length_app. simpl. rewrite app_nil_r, length_take.
      rewrite Hb. lia.
  - split; simpl; [rewrite length_app; lia| |done].
    rewrite Hp. destruct (decide (0 <= P)) as [HP|HP].
    + rewrite Hp, length_take in Hb.
      rewrite take_app_le by lia. done.
    + replace (Z.to_nat P) with 0%nat by lia. done.
Qed.


Lemma append_files (out : string) (chunk d : list byte) (w : world) :
  files w !! out = Some d ->
  files (append out chunk w) = <[out := d ++ chunk]> (files w).
Proof.
  intros Hd. simpl. apply map_eq. intros x.
  destruct (decide (out = x)) as [->|Hne].
  - by rewrite lookup_alter_eq, lookup_insert_eq, Hd.
  - by rewrite lookup_alter_ne, lookup_insert_ne.
Qed.

Section Pump.
Variables (maxBytes : Z) (expected : option Z) (P : Z).
Variables (disk : option nat) (ab : bool) (out : string).

Lemma pump_files (i : nat) (t : Tap.state) (chunks : list (list byte))
    (w w' : world) (res : failure + Tap.state) (d : list byte) :
  pump (transform maxBytes expected P) disk ab out i t chunks w = (res, w') ->
  files w !! out = Some d ->
  exists d', files w' = <[out := d']> (files w).
Proof.
  revert i t w d. induction chunks as [|chunk rest IH]; intros i t w d; simpl.
  - intros [= _ <-] Hd. exists d. by rewrite insert_id.
  - destruct (transform _ _ _ t chunk) as [e|t1].
    { intros [= _ <-] Hd. exists d. by rewrite insert_id. }
    case_bool_decide.
    { intros [= _ <-] Hd. exists d. by rewrite insert_id. }
    intros Hpump Hd.
    apply (IH _ _ _ (d ++ chunk)) in Hpump as [d' ->].
    + exists d'. by rewrite (append_files _ _ d), insert_insert_eq.
    + by rewrite (append_files _ _ d), lookup_insert_eq.
Qed.

Lemma pump_inr (i : nat) (t t' : Tap.state) (chunks : list (list byte))
    (w w' : world) (d : list byte) :
  pump (transform maxBytes expected P) disk ab out i t chunks w = (inr t', w') ->
  tap_inv P t ->
  files w !! out = Some d ->
  tap_inv P t' /\
  Tap.hasher t' = Tap.hasher t ++ concat chunks /\
  ab = false /\
  files w' = <[out := d ++ concat chunks]> (files w) /\
  calls w' = calls w ++ replicate (length chunks) (Append out) /\
  (chunks <> [] -> Tap.written t' <= maxBytes /\
                   forall e, expected = Some e -> Tap.written t' <= e).
Proof.
  revert i t w d. induction chunks as [|chunk rest IH]; intros i t w d; simpl.
  - destruct ab; [done|]. intros [= <- <-] Hinv Hd.
    rewrite !app_nil_r, insert_id by done. done.
  - destruct (transform _ _ _ t chunk) as [e|t1] eqn:Ht; [done|].
    case_bool_decide; [done|].
    intros Hpump Hinv Hd.
    pose proof (transform_inr _ _ _ _ _ _ Ht) as (Hw1 & Hmax & Hexp & Hh1).
    apply (IH _ _ _ (d ++ chunk)) in Hpump as (Hinv' & Hh & Hab & Hf & Hc & Hbound).
    + split_and!; try done.
      * by rewrite Hh, Hh1, <- app_assoc.
      * by rewrite Hf, (append_files _ _ d), insert_insert_eq, <- app_assoc.
      * rewrite Hc. simpl. by rewrite <- app_assoc.
      * intros _. destruct rest as [|c rest]; [|by apply Hbound].
        simpl in Hh. rewrite app_nil_r in Hh.
        destruct Hinv' as [Hw' _ _].
        destruct (transform_inv _ _ _ _ _ _ Hinv Ht) as [Hw1' _ _].
        rewrite Hw', Hh, <- Hw1'. done.
    + by eapply transform_inv.
    + by rewrite (append_files _ _ d), lookup_insert_eq.
Qed.


End Pump.


Lemma concat_to_exact (chunks : list (list byte)) :
  Buffer.concat_to chunks (Z.of_nat (length (concat chunks))) = concat chunks.
Proof.
  unfold Buffer.concat_to. rewrite Nat2Z.id, take_ge, Nat.sub_diag by lia.
  apply app_nil_r.
Qed.

(** ** Writing the blob *)

Lemma writeBodyToFile_inr (cfg : config) (io : faults) (req : request)
    (out : string) (maxBytes : Z) (expected : option Z) (w w' : world)
    (wr : writeResult) :
  writeBodyToFile cfg io req out maxBytes expected w = (inr wr, w') ->
  0 < maxBytes /\
  files w !! out = None /\
  aborted req = false /\
  files w' = <[out := body req]> (files w) /\
  calls w' = calls w ++ OpenWx out :: replicate (length (chunks req)) (Append out) /\
  written wr = Z.of_nat (length (body req)) /\
  bodySha256 wr = Sha256Hex (body req) /\
  preview wr = take (Z.to_nat (previewLimit cfg)) (body req) /\
  (chunks req <> [] ->
   written wr <= maxBytes /\ forall e, expected = Some e -> written wr <= e).
Proof.
  unfold writeBodyToFile.
  destruct (Z.leb_spec maxBytes 0) as [|Hmax]; [done|].
  simpl files at 1. destruct (files w !! out) eqn:Hout; [done|].
  destruct (pump _ _ _ _ _ _ _ _) as [[e|t] w1] eqn:Hpump; [done|].
  intros [= <- <-].
  eapply (pump_inr _ _ _ _ _ _ _ _ _ _ _ _ []) in Hpump
    as (Hinv & Hh & Hab & Hf & Hc & Hbound);
    [|apply tap_inv_init|by apply lookup_insert_eq].
  simpl in Hh, Hf, Hc. destruct Hinv as [Hw Hp Hb].
  split_and!; try done; simpl.
  - by rewrite Hf, insert_insert_eq.
  - by rewrite Hc, <- app_assoc.
  - by rewrite Hw, Hh.
  - by rewrite Hh.
  - by rewrite Hb, concat_to_exact, Hp, Hh.
Qed.

(** Whatever its outcome, [writeBodyToFile] touches no entry but [out]. *)
Lemma writeBodyToFile_frame (cfg : config) (io : faults) (req : request)
    (out : string) (maxBytes : Z) (expected : option Z) (w w' : world)
    (res : failure + writeResult) :
  writeBodyToFile cfg io req out maxBytes expected w = (res, w') ->
  delete out (files w') = delete out (files w).
Proof.
  unfold writeBodyToFile.
  destruct (maxBytes <=? 0); [by intros [= _ <-]|].
  simpl files at 1. destruct (files w !! out) eqn:Hout; [by intros [= _ <-]|].
  destruct (pump _ _ _ _ _ _ _ _) as [r w1] eqn:Hpump.
  eapply (pump_files _ _ _ _ _ _ _ _ _ _ _ _ []) in Hpump as [d' Hf];
    [|by apply lookup_insert_eq].
  simpl in Hf. rewrite insert_insert_eq in Hf.
  destruct r; intros [= _ <-]; by rewrite Hf, delete_insert_eq.
Qed.

Lemma rename_true (fault : bool) (p q : string) (w w' : world) :
  rename fault p q w = (true, w') ->
  fault = false /\
  exists d, files w !! p = Some d /\
            files w' = <[q := d]> (delete p (files w)) /\
            calls w' = calls w ++ [Rename p q].
Proof.
  unfold rename. simpl. destruct (files w !! p) as [d|]; [|done].
  destruct fault; [done|]. intros [= <-]. eauto.
Qed.

Lemma writeFile_true (fault : bool) (p : string) (d : list byte) (w w' : world) :
  writeFile fault p d w = (true, w') ->
  fault = false /\
  files w' = <[p := d]> (files w) /\
  calls w' = calls w ++ [WriteFile p].
Proof. unfold writeFile. destruct fault; [done|]. by intros [= <-]. Qed.

(** No call changes the size of the directory itself. *)
Lemma pump_dir_size (step : Tap.state -> list byte -> failure + Tap.state)
    (disk : option nat) (ab : bool) (out : string) (i : nat) (t : Tap.state)
    (chunks : list (list byte)) (w w' : world) (res : failure + Tap.state) :
  pump step disk ab out i t chunks w = (res, w') -> dir_size w' = dir_size w.
Proof.
  revert i t w. induction chunks as [|chunk rest IH]; intros i t w; simpl.
  - by intros [= _ <-].
  - destruct (step t chunk) as [e|t1]; [by intros [= _ <-]|].
    case_bool_decide; [by intros [= _ <-]|]. by intros ->%IH.
Qed.

Lemma writeBodyToFile_dir_size (cfg : config) (io : faults) (req : request)
    (out : string) (maxBytes : Z) (expected : option Z) (w w' : world)
    (res : failure + writeResult) :
  writeBodyToFile cfg io req out maxBytes expected w = (res, w') ->
  dir_size w' = dir_size w.
Proof.
  unfold writeBodyToFile.
  destruct (maxBytes <=? 0); [by intros [= _ <-]|].
  simpl files at 1. destruct (files w !! out); [by intros [= _ <-]|].
  destruct (pump _ _ _ _ _ _ _ _) as [r w1] eqn:Hpump.
  apply pump_dir_size in Hpump. by destruct r; intros [= _ <-].
Qed.

Lemma rename_dir_size (fault : bool) (p q : string) (w w' : world) (ok : bool) :
  rename fault p q w = (ok, w') -> dir_size w' = dir_size w.
Proof.
  unfold rename. simpl. destruct (files w !! p); [|by intros [= _ <-]].
  by destruct fault; intros [= _ <-].
Qed.

Lemma writeFile_dir_size (fault : bool) (p : string) (d : list byte) (w w' : world)
    (ok : bool) :
  writeFile fault p d w = (ok, w') -> dir_size w' = dir_size w.
Proof. unfold writeFile. by destruct fault; intros [= _ <-]. Qed.

Lemma requireToken_not_ok (cfg : config) (req : request) (msg : string) :
  requireToken cfg req <> Some (Text 200 msg).
Proof.
  unfold requireToken. destruct (String.eqb _ ""); [done|].
  by destruct (safeCompareToken _ _).
Qed.

Section Ingest.
Context {rt : JsRuntime}.

(** What a [200] tells: the request was authorised, the body was written
    under its temporary name, which was free, and renamed; the document was
    written and renamed; retention ran on the world that resulted. *)
Lemma handlePostWebhook_accepted (cfg : config) (env : ambient) (req : request)
    (w w' : world) (msg : string) :
  handlePostWebhook cfg env req w = (Some (Text 200 msg), w') ->
  exists (expected : option Z) (wr : writeResult) (w1 : world),
    requireToken cfg req = None /\
    declaredLength req = inr expected /\
    writeBodyToFile cfg (io env) req (tmpBodyPath env) (maxBody cfg) expected
      (call Mkdir w) = (inr wr, w1) /\
    0 < written wr /\
    (forall e, expected = Some e -> written wr = e) /\
    msg = line ("ok " +:+ recordNameOf env) /\
    w' = enforceRetention cfg
           (published env req (stringify_utf8 (builtRecord env req wr)) w).
Proof.
  unfold handlePostWebhook.
  destruct (requireToken cfg req) as [denied|] eqn:Hauth.
  { intros [= -> _]. by apply requireToken_not_ok in Hauth. }
  destruct (declaredLength req) as [[]|expected] eqn:Hlen; [done|].
  destruct (match expected with Some e => e <=? 0 | None => false end); [done|].
  destruct (match expected with Some e => e >? maxBody cfg | None => false end); [done|].
  fold (tmpBodyPath env). fold (tmpRecordPath env).
  destruct (writeBodyToFile _ _ _ _ _ _ _) as [[err|wr] w1] eqn:Hwb.
  { by destruct err. }
  destruct (Z.leb_spec (written wr) 0) as [|Hpos]; [done|].
  destruct (match expected with Some e => negb (written wr =? e) | None => false end) eqn:Hexp;
    [done|].
  destruct (rename _ _ _ w1) as [[] w3] eqn:Hr1; [|done].
  destruct (sniff _ _) as [[j t] b] eqn:Hs.
  destruct (writeFile _ _ _ w3) as [[] w4] eqn:Hwf; [|done].
  destruct (rename _ _ _ w4) as [[] w5] eqn:Hr2; [|done].
  intros [= <- <-].
  exists expected, wr, w1. split_and!; try done.
  - intros e ->. simpl in Hexp. apply negb_false_iff in Hexp. lia.
  - f_equal.
    pose proof (writeBodyToFile_inr _ _ _ _ _ _ _ _ _ Hwb) as (_ & Hfree & _ & Hf1 & Hc1 & _).
    pose proof (writeBodyToFile_dir_size _ _ _ _ _ _ _ _ _ Hwb) as Hs1.
    pose proof (rename_dir_size _ _ _ _ _ _ Hr1) as Hs3.
    pose proof (writeFile_dir_size _ _ _ _ _ _ Hwf) as Hs4.
    pose proof (rename_dir_size _ _ _ _ _ _ Hr2) as Hs5.
    apply rename_true in Hr1 as (_ & d1 & Hd1 & Hf3 & Hc3).
    apply writeFile_true in Hwf as (_ & Hf4 & Hc4).
    apply rename_true in Hr2 as (_ & d2 & Hd2 & Hf5 & Hc5).
    rewrite Hf4, lookup_insert_eq in Hd2. injection Hd2 as <-.
    rewrite Hf1, lookup_insert_eq in Hd1. injection Hd1 as <-.
    destruct w5 as [f5 s5 c5]. unfold published. simpl in *. f_equal.
    + rewrite Hf5, Hf4, Hf3, Hf1, !delete_insert_eq.
      rewrite (delete_id (files w)) by done.
      unfold builtRecord. by rewrite Hs.
    + by rewrite Hs5, Hs4, Hs3, Hs1.
    + rewrite Hc5, Hc4, Hc3, Hc1. simpl. by rewrite <- !app_assoc.
Qed.

Lemma published_record (env : ambient) (req : request) (doc : list byte) (w : world) :
  files (published env req doc w) !! recordNameOf env = Some doc.
Proof. apply lookup_insert_eq. Qed.

Lemma published_body (env : ambient) (req : request) (doc : list byte) (w : world) :
  files (published env req doc w) !! bodyNameOf env = Some (body req).
Proof.
  simpl. rewrite lookup_insert_ne by apply Names.recordName_neq_bodyName.
  rewrite lookup_delete_ne by (apply not_eq_sym, Names.bodyName_neq_tmp).
  apply lookup_insert_eq.
Qed.


End Ingest.

Lemma feed_inv (maxBytes : Z) (expected : option Z) (P : Z)
    (chunks : list (list byte)) (t t' : Tap.state) :
  tap_inv P t ->
  feed (transform maxBytes expected P) t chunks = inr t' ->
  tap_inv P t'.
Proof.
  revert t. induction chunks as [|chunk rest IH]; intros t Hinv; simpl.
  - by intros [= <-].
  - destruct (transform _ _ _ t chunk) as [e|t1] eqn:Ht; [done|].
    apply IH. by eapply transform_inv.
Qed.

Lemma tap_inv_bounded (P : Z) (t : Tap.state) :
  0 <= P -> tap_inv P t -> Tap.previewBytes t <= P.
Proof.
  intros HP [_ Hp Hb]. rewrite Hb, Hp, length_take. lia.
Qed.

Section Accepted.
Context {rt : JsRuntime}.

(** C4. When a payload is accepted, the blob published under the body name
    holds exactly the bytes received, [body_size] is their number, at most
    [maxBody], and [body_sha256] is the SHA-256 digest of those same bytes,
    the whole stream and not its preview. [r] is the record whose document
    is in the world that retention is then run on. *)
Theorem accepted_blob_and_digest (cfg : config) (env : ambient) (req : request)
    (w w' : world) (msg : string) :
  handlePostWebhook cfg env req w = (Some (Text 200 msg), w') ->
  exists r : record json,
    w' = enforceRetention cfg (published env req (stringify_utf8 r) w) /\
    files (published env req (stringify_utf8 r) w) !! bodyNameOf env = Some (body req) /\
    body_file r = bodyNameOf env /\
    body_size r = Z.of_nat (length (body req)) /\
    body_sha256 r = Sha256Hex (body req) /\
    0 < body_size r <= maxBody cfg.
Proof.
  intros (expected & wr & w1 & _ & _ & Hwb & Hpos & _ & _ & Hw')
    %handlePostWebhook_accepted.
  apply writeBodyToFile_inr in Hwb as (_ & _ & _ & _ & _ & Hlen & Hsha & _ & Hbound).
  exists (builtRecord env req wr). split_and!; try done.
  - apply published_body.
  - simpl. destruct Hbound as [Hle _]; [|exact Hle].
    intros Hnil. unfold body in Hlen. rewrite Hnil in Hlen. simpl in Hlen. lia.
Qed.

(** C5. When a payload of [S] bytes is accepted under a preview limit
    [P >= 0], the preview is the first [min S P] bytes of the body, the
    stored [preview_truncated] tells whether [S] exceeds the length of the
    preview, and at no point of the stream does the closure hold more than
    [P] bytes of preview. *)
Theorem accepted_preview (cfg : config) (env : ambient) (req : request)
    (w w' : world) (msg : string) :
  handlePostWebhook cfg env req w = (Some (Text 200 msg), w') ->
  0 <= previewLimit cfg ->
  exists (expected : option Z) (wr : writeResult) (r : record json) (w1 : world),
    writeBodyToFile cfg (io env) req (tmpBodyPath env) (maxBody cfg) expected
      (call Mkdir w) = (inr wr, w1) /\
    w' = enforceRetention cfg (published env req (stringify_utf8 r) w) /\
    preview wr = take (Z.to_nat (previewLimit cfg)) (body req) /\
    Z.of_nat (length (preview wr)) =
      Z.min (Z.of_nat (length (body req))) (previewLimit cfg) /\
    body_size r = Z.of_nat (length (body req)) /\
    (preview_truncated r = true <->
     Z.of_nat (length (body req)) > Z.of_nat (length (preview wr))) /\
    (forall (k : nat) (t : Tap.state),
       feed (transform (maxBody cfg) expected (previewLimit cfg)) Tap.init
         (take k (chunks req)) = inr t ->
       Z.of_nat (length (concat (Tap.previewChunks t))) <= previewLimit cfg).
Proof.
  intros (expected & wr & w1 & _ & _ & Hwb & Hpos & _ & _ & Hw')
    %handlePostWebhook_accepted HP.
  pose proof (writeBodyToFile_inr _ _ _ _ _ _ _ _ _ Hwb)
    as (_ & _ & _ & _ & _ & Hlen & _ & Hprev & _).
  exists expected, wr, (builtRecord env req wr), w1. split_and!; try done.
  - rewrite Hprev, length_take. lia.
  - simpl. rewrite Hlen. split.
    + intros Hgt. by destruct (Z.gtb_spec (Z.of_nat (length (body req)))
                                 (Z.of_nat (length (preview wr)))); [lia|].
    + intros Hgt. by destruct (Z.gtb_spec (Z.of_nat (length (body req)))
                                 (Z.of_nat (length (preview wr)))); [|lia].
  - intros k t Hfeed. apply feed_inv in Hfeed; [|apply tap_inv_init].
    pose proof (tap_inv_bounded _ _ HP Hfeed) as Hb.
    by rewrite (inv_previewBytes _ _ Hfeed) in Hb.
Qed.

End Accepted.

(** C4 on a body of six bytes sent in two chunks. *)
Lemma accepted_blob_and_digest_witness :
  let env := Sample.env 0 x01 no_faults in
  exists r : record string,
    (handlePostWebhook (rt := Sample.runtime) (Sample.cfg 2) env sample_post Sample.empty).2 =
      enforceRetention (rt := Sample.runtime) (Sample.cfg 2)
        (published env sample_post (stringify_utf8 (JsRuntime := Sample.runtime) r) Sample.empty) /\
    files (published env sample_post (stringify_utf8 (JsRuntime := Sample.runtime) r) Sample.empty)
      !! bodyNameOf env = Some (body sample_post) /\
    body_file r = bodyNameOf env /\
    body_size r = Z.of_nat (length (body sample_post)) /\
    body_sha256 r = Sha256Hex (body sample_post) /\
    0 < body_size r <= maxBody (Sample.cfg 2).
Proof.
  intros env.
  apply (accepted_blob_and_digest (rt := Sample.runtime) (Sample.cfg 2)
           env sample_post Sample.empty _ (line ("ok " +:+ recordNameOf env))).
  vm_compute. reflexivity.
Defined.

(** C5 on a body of six bytes under a preview limit of four. *)
Lemma accepted_preview_witness :
  let env := Sample.env 0 x01 no_faults in
  exists (expected : option Z) (wr : writeResult) (r : record string) (w1 : world),
    writeBodyToFile (Sample.cfg 2) no_faults sample_post (tmpBodyPath env) 16 expected
      (call Mkdir Sample.empty) = (inr wr, w1) /\
    (handlePostWebhook (rt := Sample.runtime) (Sample.cfg 2) env sample_post Sample.empty).2 =
      enforceRetention (rt := Sample.runtime) (Sample.cfg 2)
        (published env sample_post (stringify_utf8 (JsRuntime := Sample.runtime) r) Sample.empty) /\
    preview wr = take (Z.to_nat 4) (body sample_post) /\
    Z.of_nat (length (preview wr)) = Z.min (Z.of_nat (length (body sample_post))) 4 /\
    body_size r = Z.of_nat (length (body sample_post)) /\
    (preview_truncated r = true <->
     Z.of_nat (length (body sample_post)) > Z.of_nat (length (preview wr))) /\
    (forall (k : nat) (t : Tap.state),
       feed (transform 16 expected 4) Tap.init (take k (chunks sample_post)) = inr t ->
       Z.of_nat (length (concat (Tap.previewChunks t))) <= 4).
Proof.
  intros env.
  apply (accepted_preview (rt := Sample.runtime) (Sample.cfg 2)
           env sample_post Sample.empty _ (line ("ok " +:+ recordNameOf env))).
  - vm_compute. reflexivity.
  - vm_compute. discriminate.
Defined.


Section Oversized.
Context {rt : JsRuntime}.


End Oversized.



Section Sniffing.
Context {rt : JsRuntime}.

Lemma sniff_json (contentType : string) (pv : list byte) :
  json_type contentType ->
  sniff contentType pv =
    match pv with
    | [] => (None, None, None)
    | _ :: _ =>
        match decodeUtf8Strict pv ≫= JSON_parse with
        | Some v => (Some v, None, None)
        | None => (None, Some (Buffer.toString_utf8 pv), None)
        end
    end.
Proof.
  intros Hct. unfold sniff.
  assert (String.eqb contentType "application/json" || String.eqb contentType "text/json" = true)
    as ->.
  { destruct Hct as [-> | ->]; by rewrite String.eqb_refl, ?orb_true_r. }
  by destruct pv.
Qed.

Lemma sniff_other (contentType : string) (pv : list byte) :
  ~ json_type contentType ->
  sniff contentType pv =
    match pv with
    | [] => (None, None, None)
    | _ :: _ =>
        match decodeUtf8Strict pv with
        | Some t => (None, Some t, None)
        | None => (None, None, Some (Buffer.toString_base64 pv))
        end
    end.
Proof.
  intros Hct. unfold sniff.
  assert (String.eqb contentType "application/json" || String.eqb contentType "text/json" = false)
    as ->.
  { apply orb_false_iff. split; apply String.eqb_neq; intros ->; apply Hct;
      [by left|by right]. }
  by destruct pv.
Qed.

(** C2, as the code has it. For an accepted payload the three decoded
    fields are a function of the preview, the first [previewLimit] bytes of
    the body, alone, and an empty preview leaves all three empty. For a JSON
    content type: when the strict UTF-8 decoding of the preview parses as
    JSON, the value is stored in [body_json]; when the decoding or the parse
    fails, [body_text] gets [preview.toString('utf8')], which replaces
    ill-formed bytes and never fails, so [body_b64] stays empty. For any
    other content type: [body_text] gets the strict decoding, and
    [body_b64] the base64 of the preview when that decoding fails. *)
Theorem preview_sniffed (cfg : config) (env : ambient) (req : request)
    (w w' : world) (msg : string) :
  handlePostWebhook cfg env req w = (Some (Text 200 msg), w') ->
  exists r : record json,
    w' = enforceRetention cfg (published env req (stringify_utf8 r) w) /\
    content_type r = contentTypeOf req /\
    let pv := take (Z.to_nat (previewLimit cfg)) (body req) in
    (json_type (contentTypeOf req) ->
     (body_json r, body_text r, body_b64 r) =
       match pv with
       | [] => (None, None, None)
       | _ :: _ =>
           match decodeUtf8Strict pv ≫= JSON_parse with
           | Some v => (Some v, None, None)
           | None => (None, Some (Buffer.toString_utf8 pv), None)
           end
       end) /\
    (~ json_type (contentTypeOf req) ->
     (body_json r, body_text r, body_b64 r) =
       match pv with
       | [] => (None, None, None)
       | _ :: _ =>
           match decodeUtf8Strict pv with
           | Some t => (None, Some t, None)
           | None => (None, None, Some (Buffer.toString_base64 pv))
           end
       end).
Proof.
  intros (expected & wr & w1 & _ & _ & Hwb & _ & _ & _ & Hw')
    %handlePostWebhook_accepted.
  apply writeBodyToFile_inr in Hwb as (_ & _ & _ & _ & _ & _ & _ & Hprev & _).
  exists (builtRecord env req wr). split_and!; try done.
  cbv zeta. assert ((body_json (builtRecord env req wr), body_text (builtRecord env req wr),
                     body_b64 (builtRecord env req wr)) =
                    sniff (contentTypeOf req) (preview wr)) as ->.
  { simpl. by destruct (sniff _ _) as [[? ?] ?]. }
  rewrite <- Hprev. split; intros Hct; [by apply sniff_json|by apply sniff_other].
Qed.

Lemma index_row_spec (acc : list row) (w : world) (n : string) :
  exists (r : row) (w1 : world),
    index_row (acc, w) n = (acc ++ [r], w1) /\
    name r = n /\
    files w1 = files w /\
    (is_dir n = false ->
     size r = formatBytes (default 0 ((fun d => Z.of_nat (length d)) <$> files w !! n)) /\
     (when r, title r) =
       match files w !! n ≫= parse_utf8 with
       | Some v => index_fields v
       | None => ("", untitled)
       end).
Proof.
  unfold index_row, stat_size, readFile. cbv beta iota zeta.
  destruct (match (if is_dir n then None else files (call (Stat n) w) !! n) ≫= parse_utf8 with
            | Some record => index_fields record
            | None => ("", untitled)
            end) as [receivedAt ttl] eqn:Hfields.
  eexists _, _. split; [done|]. split_and!; try done.
  simpl. intros Hdir. simpl in Hfields. rewrite Hdir in Hfields |- *. by rewrite Hfields.
Qed.

(** The rows the loop of [handleGetIndex] adds: one for each name, in
    order, whatever the file holds. *)
Lemma foldl_index_row (names : list string) (acc : list row) (w : world) :
  exists rows,
    (foldl index_row (acc, w) names).1 = acc ++ rows /\
    name <$> rows = names /\
    files (foldl index_row (acc, w) names).2 = files w /\
    Forall (fun r =>
              is_dir (name r) = false ->
              size r = formatBytes
                         (default 0 ((fun d => Z.of_nat (length d)) <$> files w !! name r)) /\
              (when r, title r) =
                match files w !! name r ≫= parse_utf8 with
                | Some v => index_fields v
                | None => ("", untitled)
                end) rows.
Proof.
  revert acc w. induction names as [|n names IH]; intros acc w.
  - exists []. simpl. by rewrite app_nil_r.
  - cbn [foldl].
    destruct (index_row_spec acc w n) as (r & w1 & -> & Hname & Hfiles & Hrow).
    destruct (IH (acc ++ [r]) w1) as (rows & Hrows & Hnames & Hfiles' & Hall).
    exists (r :: rows). rewrite Hrows, Hfiles', Hfiles, <- app_assoc.
    split_and!; try done.
    + by rewrite fmap_cons, Hname, Hnames.
    + constructor; [by rewrite Hname|].
      eapply Forall_impl; [done|]. simpl. intros r' Hr'. by rewrite <- Hfiles.
Qed.

(** C7, as the code has it. The index lists the fifty largest document
    names, largest first in the order of [sort], and lists every one of
    them: each gets a row with its name and the size of the file, and with
    the date and the title read from the document when it parses as JSON; a
    document that does not parse gets an empty date and the placeholder
    title. Listing changes no file. *)
Theorem index_lists_every_document (w : world) :
  let listing := take 50 (documents (readdir w).1) in
  name <$> (index_records w).1 = listing /\
  StronglySorted (flip Js.sort_le) listing /\
  (forall n, n ∈ listing -> is_document w n) /\
  (forall n m, n ∈ listing -> is_document w m -> m ∉ listing -> Js.sort_le m n) /\
  (length (documents (readdir w).1) <= 50 ->
   forall n, is_document w n -> n ∈ listing)%nat /\
  Forall (fun r =>
            exists d : list byte,
              files w !! name r = Some d /\
              size r = formatBytes (Z.of_nat (length d)) /\
              (parse_utf8 d = None -> when r = "" /\ title r = untitled) /\
              (forall v, parse_utf8 d = Some v -> (when r, title r) = index_fields v))
         (index_records w).1 /\
  files (index_records w).2 = files w.
Proof.
  cbv zeta.
  assert (index_records w =
            foldl index_row ([], call Readdir (call Mkdir w))
              (take 50 (documents (readdir w).1))) as -> by reflexivity.
  destruct (foldl_index_row (take 50 (documents (readdir w).1)) []
              (call Readdir (call Mkdir w))) as (rows & Hrows & Hnames & Hfiles & Hall).
  rewrite app_nil_l in Hrows. rewrite Hrows, Hfiles.
  assert (forall n, n ∈ take 50 (documents (readdir w).1) -> is_document w n) as Hdocs.
  { intros n Hn%subseteq_take. by apply elem_of_listing. }
  pose proof (documents_sorted (readdir w).1) as Hsorted.
  rewrite <- (take_drop 50 (documents (readdir w).1)) in Hsorted.
  split_and!; try done.
  - by eapply StronglySorted_app_1_l.
  - intros n m Hn Hm%elem_of_listing Hout.
    rewrite <- (take_drop 50 (documents (readdir w).1)) in Hm.
    apply elem_of_app in Hm as [?|Hm]; [done|].
    by apply (StronglySorted_app_1_elem_of _ _ _ n m Hsorted).
  - intros Hlen n Hn. rewrite take_ge by done. by apply elem_of_listing.
  - apply Forall_forall. intros r Hr. rewrite Forall_forall in Hall.
    specialize (Hall r Hr). simpl in Hall.
    assert (name r ∈ take 50 (documents (readdir w).1)) as Hin.
    { rewrite <- Hnames. by apply list_elem_of_fmap_2. }
    apply Hdocs in Hin as [[d Hd] Hjson].
    destruct Hall as [Hsize Hfields].
    { unfold is_dir. apply not_true_is_false. intros Heq%String.eqb_eq.
      by rewrite Heq in Hjson. }
    rewrite Hd in Hsize, Hfields. simpl in Hsize, Hfields.
    exists d. split_and!; try done.
    + intros Hnone. rewrite Hnone in Hfields. by injection Hfields as -> ->.
    + intros v Hv. by rewrite Hv in Hfields.
Qed.

End Sniffing.

(** C2 fails as stated: an accepted JSON payload that is not UTF-8 is not
    stored as base64. The strict decoding of its preview throws, and the
    field that is filled is [body_text], with U+FFFD in place of the byte. *)
Lemma json_fallback_is_lossy_text :
  let env := Sample.env 0 x01 no_faults in
  let pv := take (Z.to_nat (previewLimit (Sample.cfg 2))) (body binary_json_post) in
  (handlePostWebhook (rt := Sample.runtime) (Sample.cfg 2) env binary_json_post
     Sample.empty).1 = Some (Text 200 (line ("ok " +:+ recordNameOf env))) /\
  contentTypeOf binary_json_post = "application/json" /\
  decodeUtf8Strict pv = None /\
  sniff (rt := Sample.runtime) "application/json" pv =
    (None, Some (Buffer.text_of Buffer.replacement), None) /\
  sniff (rt := Sample.runtime) "application/json" pv <>
    (None, None, Some (Buffer.toString_base64 pv)).
Proof. split_and!; [vm_compute; reflexivity..|discriminate]. Qed.

(** C2, as the code has it, on that payload. *)
Lemma preview_sniffed_witness :
  let req := binary_json_post in
  let env := Sample.env 0 x01 no_faults in
  exists r : record string,
    (handlePostWebhook (rt := Sample.runtime) (Sample.cfg 2) env req Sample.empty).2 =
      enforceRetention (rt := Sample.runtime) (Sample.cfg 2)
        (published env req (stringify_utf8 (JsRuntime := Sample.runtime) r) Sample.empty) /\
    content_type r = contentTypeOf req /\
    let pv := take (Z.to_nat 4) (body req) in
    (json_type (contentTypeOf req) ->
     (body_json r, body_text r, body_b64 r) =
       match pv with
       | [] => (None, None, None)
       | _ :: _ =>
           match decodeUtf8Strict pv ≫= JSON_parse (JsRuntime := Sample.runtime) with
           | Some v => (Some v, None, None)
           | None => (None, Some (Buffer.toString_utf8 pv), None)
           end
       end) /\
    (~ json_type (contentTypeOf req) ->
     (body_json r, body_text r, body_b64 r) =
       match pv with
       | [] => (None, None, None)
       | _ :: _ =>
           match decodeUtf8Strict pv with
           | Some t => (None, Some t, None)
           | None => (None, None, Some (Buffer.toString_base64 pv))
           end
       end).
Proof.
  intros req env.
  apply (preview_sniffed (rt := Sample.runtime) (Sample.cfg 2) env req Sample.empty _
           (line ("ok " +:+ recordNameOf env))).
  vm_compute. reflexivity.
Defined.

(** C7 fails as stated: a document that is no JSON is listed, not skipped. *)
Lemma corrupt_document_is_listed :
  parse_utf8 (JsRuntime := Sample.runtime) (Buffer.bytes_of "oops") = None /\
  (index_records (rt := Sample.runtime)
     (Sample.holding [("a.json", Buffer.bytes_of "oops")])).1 =
    [{| name := "a.json"; when := ""; size := "4 B"; title := untitled |}].
Proof. split; reflexivity. Qed.




Section Discipline.
Context {rt : JsRuntime}.



(** An ingest that is refused with [400] or [413] has touched no entry but
    its temporary blob path, which it leaves absent. *)
Lemma refused_ingest_cleans_up (cfg : config) (env : ambient) (req : request)
    (w w' : world) (status : Z) (msg : string) :
  handlePostWebhook cfg env req w = (Some (Text status msg), w') ->
  status <> 200 ->
  w' = w \/ files w' = delete (tmpBodyPath env) (files w).
Proof.
  unfold handlePostWebhook.
  destruct (requireToken cfg req); [intros [= _ <-] _; by left|].
  destruct (declaredLength req) as [[]|expected]; [intros [= _ _ <-] _; by left|].
  destruct (match expected with Some e => e <=? 0 | None => false end);
    [intros [= _ _ <-] _; by left|].
  destruct (match expected with Some e => e >? maxBody cfg | None => false end);
    [intros [= _ _ <-] _; by left|].
  fold (tmpBodyPath env). fold (tmpRecordPath env).
  destruct (writeBodyToFile _ _ _ _ _ _ _) as [[err|wr] w1] eqn:Hwb;
    apply writeBodyToFile_frame in Hwb; simpl in Hwb.
  { intros Hres _. right.
    assert (w' = unlink (tmpBodyPath env) w1) as -> by (by destruct err; injection Hres).
    simpl. done. }
  destruct (written wr <=? 0); [intros [= _ _ <-] _; right; simpl; done|].
  destruct (match expected with Some e => negb (written wr =? e) | None => false end);
    [intros [= _ _ <-] _; right; simpl; done|].
  destruct (rename _ _ _ w1) as [[] w3]; [|done].
  destruct (sniff _ _) as [[j t] b].
  destruct (writeFile _ _ _ w3) as [[] w4]; [|done].
  destruct (rename _ _ _ w4) as [[] w5]; [|done].
  by intros [= <- _ _].
Qed.

End Discipline.

(** The refusal of an oversized body, as an instance: the directory is as
    it was. *)
Lemma refused_ingest_cleans_up_witness :
  let env := Sample.env 0 x01 no_faults in
  let result := handlePostWebhook (rt := Sample.runtime) (Sample.cfg 2) env
                  oversized_post Sample.empty in
  result.2 = Sample.empty \/
  files result.2 = delete (tmpBodyPath env) (files Sample.empty).
Proof.
  intros env result.
  apply (refused_ingest_cleans_up (rt := Sample.runtime) (Sample.cfg 2) env
           oversized_post Sample.empty result.2 413 (line "payload too large")).
  - vm_compute. reflexivity.
  - discriminate.
Defined.



(** C1 fails on the code: when writing the document fails, the handler
    throws after the blob was renamed. The request is answered [500], the
    blob stays published and no document names it. *)
Lemma blob_left_without_record :
  let env := Sample.env 0 x01 record_write_fails in
  let result := handlePostWebhook (rt := Sample.runtime) (Sample.cfg 2) env
                  sample_post Sample.empty in
  result.1 = None /\
  answered result.1 = Text 500 (line "internal server error") /\
  files result.2 !! bodyNameOf env = Some (body sample_post) /\
  files result.2 !! recordNameOf env = None /\
  files Sample.empty !! bodyNameOf env = None.
Proof. split_and!; vm_compute; reflexivity. Qed.

(** ** Retention *)

Lemma listing_nil (w : world) :
  (forall n, ~ is_document w n) -> documents (readdir w).1 = [].
Proof.
  intros Hnone. destruct (documents (readdir w).1) as [|n l] eqn:Hl; [done|].
  destruct (Hnone n). apply elem_of_listing. rewrite Hl. by left.
Qed.

(** Trimming the name of a blob leaves a name that ends in [.body]. *)
Lemma trim_bodyName_not_json (env : ambient) :
  Js.endsWith ".json" (Js.trim (bodyNameOf env)) = false.
Proof.
  rewrite Names.bodyNameOf_stem. unfold Js.trim.
  destruct (Space.trimStart_append_solid (stem env) ".body") as [a' ->]; [done|].
  rewrite Space.trimEnd_solid by by apply Space.ends_solid_append.
  by apply Names.endsWith_other.
Qed.

Section Keeping.
Context {rt : JsRuntime}.

Lemma tame_subset (w w' : world) :
  (forall n, files w' !! n = None \/ files w' !! n = files w !! n) ->
  tame w -> tame w'.
Proof.
  intros Hsub Htame n d Hd Hjson. destruct (Hsub n) as [Hn|Hn].
  - by rewrite Hn in Hd.
  - rewrite Hn in Hd. by eapply Htame.
Qed.

Lemma evict_keeps (w : world) (m n : string) :
  tame w ->
  Js.endsWith ".json" m = true ->
  Js.endsWith ".json" n = true ->
  n <> m ->
  files (evict w m) !! n = files w !! n.
Proof.
  intros Htame Hm Hn Hne. rewrite evict_unfold. cbv zeta.
  assert (delete m (files w) !! n = files w !! n) as Hdel by by apply lookup_delete_ne.
  destruct (String.eqb _ ""); [done|].
  destruct (unsafe_name _); [done|]. simpl.
  rewrite lookup_delete_ne; [done|].
  intros Hb. unfold readFile in Hb. simpl in Hb.
  destruct (is_dir m); [by rewrite <- Hb in Hn|].
  destruct (files w !! m) as [d|] eqn:Hd; [|by rewrite <- Hb in Hn].
  specialize (Htame m d Hd Hm). by rewrite Hb, Hn in Htame.
Qed.

Lemma foldl_evict_keeps (stale : list string) (w : world) (n : string) :
  tame w ->
  (forall m, m ∈ stale -> Js.endsWith ".json" m = true) ->
  Js.endsWith ".json" n = true ->
  n ∉ stale ->
  files (foldl evict w stale) !! n = files w !! n.
Proof.
  revert w. induction stale as [|m stale IH]; intros w Htame Hstale Hn Hnotin; [done|].
  simpl. apply not_elem_of_cons in Hnotin as [Hne Hnotin].
  rewrite IH; try done.
  - apply evict_keeps; try done. apply Hstale. by left.
  - eapply tame_subset; [|done]. intros x. apply evict_lookup.
  - intros m' Hm'. apply Hstale. by right.
Qed.

(** With a positive keep-count [N] and a tame directory, retention leaves
    exactly the first [N] documents of the listing, untouched. *)
Lemma enforceRetention_listing (cfg : config) (w : world) :
  0 < maxRecords cfg ->
  tame w ->
  documents (readdir (enforceRetention cfg w)).1 =
    take (Z.to_nat (maxRecords cfg)) (documents (readdir w).1) /\
  tame (enforceRetention cfg w).
Proof.
  intros Hkeep Htame. unfold enforceRetention.
  destruct (Z.leb_spec (maxRecords cfg) 0) as [|_]; [lia|].
  change (let '(names, w0) := readdir w in
          foldl evict w0 (drop (Z.to_nat (maxRecords cfg)) (documents names)))
    with (foldl evict (call Readdir w)
            (drop (Z.to_nat (maxRecords cfg)) (documents (readdir w).1))).
  set (N := Z.to_nat (maxRecords cfg)). set (L := documents (readdir w).1).
  set (w' := foldl evict (call Readdir w) (drop N L)).
  assert (NoDup L) as HndL by apply documents_NoDup, readdir_NoDup.
  assert (StronglySorted (flip Js.sort_le) L) as HsL by apply documents_sorted.
  assert (forall n, files w' !! n = None \/ files w' !! n = files w !! n) as Hsub.
  { intros n. apply (foldl_evict_lookup (drop N L) (call Readdir w) n). }
  split; [|by eapply tame_subset].
  apply Order.listing_unique.
  - apply documents_sorted.
  - eapply StronglySorted_app_1_l. rewrite take_drop. exact HsL.
  - apply documents_NoDup, readdir_NoDup.
  - rewrite <- (take_drop N L) in HndL. by apply NoDup_app in HndL as [? _].
  - intros n. rewrite elem_of_listing. split.
    + intros [[d Hd] Hjson].
      assert (n ∈ L) as HnL.
      { apply elem_of_listing. split; [|done]. destruct (Hsub n) as [Hn|Hn].
        - by rewrite Hn in Hd.
        - rewrite <- Hn. eauto. }
      rewrite <- (take_drop N L) in HnL. apply elem_of_app in HnL as [?|Hstale]; [done|].
      unfold w' in Hd. by rewrite (foldl_evict_gone _ _ _ Hstale) in Hd.
    + intros Hn. assert (n ∈ L) as HnL by by apply (subseteq_take N).
      apply elem_of_listing in HnL as [Hsome Hjson]. split; [|done].
      unfold w'. rewrite foldl_evict_keeps; try done.
      * intros m Hm%subseteq_drop. by apply elem_of_listing in Hm as [_ ?].
      * rewrite <- (take_drop N L) in HndL.
        apply NoDup_app in HndL as (_ & Hdisj & _). by apply Hdisj.
Qed.

End Keeping.

(** ** Runs of ingests *)

Section Runs.
Context {rt : JsRuntime}.

Hypothesis round_trip : reads_back.

Lemma staleBodyName_stringify (env : ambient) (req : request) (wr : writeResult) :
  staleBodyName (Some (stringify_utf8 (builtRecord env req wr))) =
    Js.trim (bodyNameOf env).
Proof.
  unfold staleBodyName. simpl. pose proof (round_trip env req wr) as Hlaw.
  destruct (parse_utf8 (stringify_utf8 (builtRecord env req wr))) as [v|]; [|done].
  simpl in Hlaw. by rewrite Hlaw.
Qed.

(** One accepted ingest, on a tame directory that does not hold a document
    of its name: the new document takes its place in the listing, which is
    cut to the keep-count. *)
Lemma accepted_ingest_listing (cfg : config) (env : ambient) (req : request)
    (w w' : world) (msg : string) :
  0 < maxRecords cfg ->
  tame w ->
  recordNameOf env ∉ documents (readdir w).1 ->
  handlePostWebhook cfg env req w = (Some (Text 200 msg), w') ->
  documents (readdir w').1 =
    take (Z.to_nat (maxRecords cfg))
      (insert_desc (recordNameOf env) (documents (readdir w).1)) /\
  tame w'.
Proof.
  intros Hkeep Htame Hnew
    (expected & wr & w1 & _ & _ & _ & _ & _ & _ & ->)%handlePostWebhook_accepted.
  set (w2 := published env req (stringify_utf8 (builtRecord env req wr)) w).
  assert (files w2 =
            <[recordNameOf env := stringify_utf8 (builtRecord env req wr)]>
              (delete (tmpRecordPath env) (<[bodyNameOf env := body req]> (files w))))
    as Hf by reflexivity.
  assert (forall n, Js.endsWith ".json" n = true ->
            n <> recordNameOf env -> files w2 !! n = files w !! n) as Hother.
  { intros n Hjson Hne. rewrite Hf, lookup_insert_ne by done.
    rewrite lookup_delete_ne, lookup_insert_ne; [done| |].
    - intros <-. by rewrite Names.bodyName_not_json in Hjson.
    - intros <-. unfold tmpRecordPath in Hjson. by rewrite Names.tmp_not_json in Hjson. }
  assert (tame w2) as Htame2.
  { intros n d Hd Hjson. destruct (decide (n = recordNameOf env)) as [->|Hne].
    - rewrite Hf, lookup_insert_eq in Hd. injection Hd as <-.
      rewrite staleBodyName_stringify. apply trim_bodyName_not_json.
    - rewrite Hother in Hd by done. by eapply Htame. }
  destruct (enforceRetention_listing cfg w2 Hkeep Htame2) as [-> Htame'].
  split; [|done]. f_equal. apply Order.listing_unique.
  - apply documents_sorted.
  - apply Order.insert_desc_sorted, documents_sorted.
  - apply documents_NoDup, readdir_NoDup.
  - apply Order.insert_desc_NoDup; [done|]. apply documents_NoDup, readdir_NoDup.
  - intros n. rewrite Order.elem_of_insert_desc, !elem_of_listing. unfold is_document. split.
    + intros [Hsome Hjson]. destruct (decide (n = recordNameOf env)) as [->|Hne]; [by left|].
      right. by rewrite <- Hother.
    + intros [->|[Hsome Hjson]].
      * split; [|apply Names.recordName_is_json]. rewrite Hf, lookup_insert_eq. eauto.
      * split; [|done]. destruct (decide (n = recordNameOf env)) as [->|Hne].
        -- rewrite Hf, lookup_insert_eq. eauto.
        -- by rewrite Hother.
Qed.

Lemma arrivals_cons (env : ambient) (req : request) (inputs : list (ambient * request)) :
  arrivals ((env, req) :: inputs) = recordNameOf env :: arrivals inputs.
Proof. reflexivity. Qed.

(** A run of accepted ingests whose names differ from each other and from
    the names [prev] met before: the listing goes from the largest names
    of [prev] to the largest names of all. *)
Lemma accepted_run_listing (cfg : config) (inputs : list (ambient * request))
    (prev : list string) (w w' : world) :
  0 < maxRecords cfg ->
  tame w ->
  documents (readdir w).1 = take (Z.to_nat (maxRecords cfg)) (sorted_reversed prev) ->
  NoDup (prev ++ arrivals inputs) ->
  accepted_run cfg w inputs w' ->
  documents (readdir w').1 =
    take (Z.to_nat (maxRecords cfg)) (sorted_reversed (prev ++ arrivals inputs)).
Proof.
  intros Hkeep. revert prev w.
  induction inputs as [|[env req] inputs IH]; intros prev w Htame Hlist Hnd Hrun.
  - simpl in Hrun. subst w'. unfold arrivals. simpl. by rewrite app_nil_r.
  - destruct Hrun as (msg & w1 & Hok & Hrun).
    rewrite arrivals_cons in Hnd |- *.
    rewrite (cons_middle _ prev), app_assoc in Hnd |- *.
    assert (NoDup (prev ++ [recordNameOf env])) as Hnd1.
    { by apply NoDup_app in Hnd as [? _]. }
    assert (recordNameOf env ∉ prev) as Hnew.
    { apply NoDup_app in Hnd1 as (_ & Hdisj & _). intros Hin.
      apply (Hdisj _ Hin). by left. }
    destruct (accepted_ingest_listing cfg env req w w1 msg) as [Hlist1 Htame1]; try done.
    { rewrite Hlist. intros Hin%subseteq_take. apply Hnew.
      by apply Order.elem_of_sorted_reversed. }
    apply (IH (prev ++ [recordNameOf env]) w1); try done.
    rewrite Hlist1, Hlist, Order.take_insert_desc. f_equal.
    apply Order.listing_unique.
    + apply Order.insert_desc_sorted, Order.sorted_reversed_sorted.
    + apply Order.sorted_reversed_sorted.
    + apply Order.insert_desc_NoDup.
      * by rewrite Order.elem_of_sorted_reversed.
      * apply Order.sorted_reversed_NoDup. by apply NoDup_app in Hnd1 as [? _].
    + by apply Order.sorted_reversed_NoDup.
    + intros n. rewrite Order.elem_of_insert_desc, !Order.elem_of_sorted_reversed.
      rewrite elem_of_app, list_elem_of_singleton. tauto.
Qed.

(** C3, as the code has it. Retention keeps the documents with the largest
    names, in the order of [sort]. Start from a directory without documents
    and run [k] accepted ingests whose document names differ, under a
    keep-count [N > 0]: the listing is then made of the [N] largest of
    their names, so it has exactly [min k N] documents; and when the names
    grow with the order of arrival, these are the latest arrivals, newest
    first. A keep-count of zero or less makes retention leave the world as
    it is. *)
Theorem retention_keeps_latest (cfg : config) (inputs : list (ambient * request))
    (w w' : world) :
  (0 < maxRecords cfg ->
   (forall n, ~ is_document w n) ->
   NoDup (arrivals inputs) ->
   accepted_run cfg w inputs w' ->
   documents (readdir w').1 =
     take (Z.to_nat (maxRecords cfg)) (sorted_reversed (arrivals inputs)) /\
   length (documents (readdir w').1) =
     Nat.min (length inputs) (Z.to_nat (maxRecords cfg)) /\
   (StronglySorted (strict Js.sort_le) (arrivals inputs) ->
    documents (readdir w').1 =
      take (Z.to_nat (maxRecords cfg)) (reverse (arrivals inputs)))) /\
  (maxRecords cfg <= 0 -> enforceRetention cfg w = w).
Proof.
  split.
  - intros Hkeep Hempty Hnd Hrun.
    assert (documents (readdir w').1 =
              take (Z.to_nat (maxRecords cfg)) (sorted_reversed ([] ++ arrivals inputs)))
      as Hlist.
    { apply (accepted_run_listing cfg inputs [] w w'); try done.
      - intros n d Hd Hjson. destruct (Hempty n). split; [eauto|done].
      - rewrite listing_nil by done. change (sorted_reversed []) with (@nil string).
        by rewrite take_nil. }
    rewrite app_nil_l in Hlist. split_and!; [done| |].
    + rewrite Hlist, length_take, Order.sorted_reversed_length. unfold arrivals.
      rewrite length_fmap. lia.
    + intros Hsorted. by rewrite Hlist, Order.sorted_reversed_ascending.
  - intros Hkeep. unfold enforceRetention.
    by destruct (Z.leb_spec (maxRecords cfg) 0); [|lia].
Qed.

End Runs.

Lemma text_of_bytes_of (s : string) : Buffer.text_of (Buffer.bytes_of s) = s.
Proof. apply String.string_of_list_byte_of_string. Qed.

Lemma before_semicolon_chars (s : string) :
  ";"%char ∉ Names.chars (Js.before_semicolon s).
Proof.
  induction s as [|c s IH]; [by intros ?%elem_of_nil|]. simpl.
  destruct (Ascii.eqb_spec c ";") as [->|Hc]; [by intros ?%elem_of_nil|].
  simpl. intros [Heq|?]%elem_of_cons; [by symmetry in Heq|done].
Qed.

(** The content type of a record holds no semicolon. *)
Lemma contentTypeOf_chars (req : request) : ";"%char ∉ Names.chars (contentTypeOf req).
Proof.
  unfold contentTypeOf. cbv zeta.
  destruct (String.eqb _ "").
  { by apply (bool_decide_unpack (";"%char ∉ Names.chars "application/octet-stream")). }
  intros Hin%Space.chars_trim. by apply before_semicolon_chars in Hin.
Qed.

Lemma after_semicolon_append (a b : string) :
  ";"%char ∉ Names.chars a -> Sample.after_semicolon (a +:+ ";" +:+ b) = Some b.
Proof.
  induction a as [|c a IH]; [done|]. rewrite Names.append_cons. simpl.
  intros [Hc Ha]%not_elem_of_cons.
  destruct (Ascii.eqb_spec c ";") as [->|_]; [done|]. by apply IH.
Qed.

Lemma sample_reads_back : reads_back (rt := Sample.runtime).
Proof.
  intros env req wr.
  change (Sample.parse (Buffer.text_of (Buffer.bytes_of
            (String "{"%char (contentTypeOf req +:+ ";" +:+ bodyNameOf env))))
            ≫= (fun v => Some (default v (Sample.after_semicolon v))) =
          Some (bodyNameOf env)).
  rewrite text_of_bytes_of. simpl.
  by rewrite after_semicolon_append by apply contentTypeOf_chars.
Qed.

(** C3, as the code has it, on three ingests in three seconds under a
    keep-count of two. *)
Lemma retention_keeps_latest_witness :
  documents (readdir after_three).1 =
    take (Z.to_nat 2) (sorted_reversed (arrivals three_ingests)) /\
  length (documents (readdir after_three).1) = Nat.min (length three_ingests) (Z.to_nat 2) /\
  documents (readdir after_three).1 = take (Z.to_nat 2) (reverse (arrivals three_ingests)).
Proof.
  destruct (proj1 (retention_keeps_latest (rt := Sample.runtime) sample_reads_back
                     (Sample.cfg 2) three_ingests Sample.empty after_three))
    as (Hlist & Hcount & Hlatest).
  - reflexivity.
  - intros n [[d Hd] _]. cbn [Sample.empty files] in Hd. by rewrite lookup_empty in Hd.
  - apply (bool_decide_unpack (NoDup (arrivals three_ingests))). vm_compute. exact I.
  - repeat (eexists _, _; split; [vm_compute; reflexivity|]). vm_compute. reflexivity.
  - split_and!; [exact Hlist|exact Hcount|]. apply Hlatest.
    apply (bool_decide_unpack (StronglySorted (strict Js.sort_le) (arrivals three_ingests))).
    vm_compute. exact I.
Defined.

(** C3 fails as stated, in two ways. Two ingests in the same second, the
    second with the smaller random suffix, under a keep-count of one: both
    are answered [200]; the document that stays is the first, and the one
    just ingested is evicted. And two ingests in the same second with the
    same random suffix, under a keep-count of two: both are answered [200],
    the second overwrites the document of the first, and one document is
    listed, not two. *)
Lemma same_second_evicts_latest :
  let first := Sample.env 0 xff no_faults in
  let second := Sample.env 0 x00 no_faults in
  let one := handlePostWebhook (rt := Sample.runtime) (Sample.cfg 1) first sample_post Sample.empty in
  let two := handlePostWebhook (rt := Sample.runtime) (Sample.cfg 1) second sample_post one.2 in
  let once := handlePostWebhook (rt := Sample.runtime) (Sample.cfg 2) first sample_post Sample.empty in
  let again := handlePostWebhook (rt := Sample.runtime) (Sample.cfg 2) first sample_post once.2 in
  (one.1 = Some (Text 200 (line ("ok " +:+ recordNameOf first))) /\
   two.1 = Some (Text 200 (line ("ok " +:+ recordNameOf second))) /\
   documents (readdir two.2).1 = [recordNameOf first] /\
   files two.2 !! recordNameOf second = None) /\
  (once.1 = Some (Text 200 (line ("ok " +:+ recordNameOf first))) /\
   again.1 = Some (Text 200 (line ("ok " +:+ recordNameOf first))) /\
   documents (readdir again.2).1 = [recordNameOf first] /\
   length (documents (readdir again.2).1) <> Nat.min 2 (Z.to_nat (maxRecords (Sample.cfg 2)))).
Proof. split_and!; try (vm_compute; reflexivity). vm_compute. discriminate. Qed.

(** * Properties of the rest of the sources *)

(** ** The characters of the names of an ingest *)

Module NameChars.

Import Names.

Lemma digit_harmless (c : ascii) : is_Some (Js.digit_value c) -> harmless c = true.
Proof.
  unfold Js.digit_value. intros [z Hz].
  destruct c as [[] [] [] [] [] [] [] []]; try done.
Qed.

Lemma pretty_N_go_digits (x : N) (s : string) :
  Js.all_digits s = true -> Js.all_digits (pretty_N_go x s) = true.
Proof.
  revert s. induction (N.lt_wf_0 x) as [x _ IH]; intros s Hs.
  assert (x = 0 \/ 0 < x)%N as [->|Hpos] by lia.
  - by rewrite pretty_N_go_0.
  - rewrite pretty_N_go_step by done. apply IH; [by apply N.div_lt|].
    cbn [Js.all_digits]. rewrite Hs, andb_true_r.
    unfold pretty_N_char. by repeat case_match.
Qed.

Lemma pretty_N_digits (n : N) : Js.all_digits (pretty n) = true.
Proof.
  unfold pretty, pretty_N. case_decide; [done|]. by apply pretty_N_go_digits.
Qed.

Lemma pretty_N_nonempty (n : N) : pretty n <> "".
Proof.
  unfold pretty, pretty_N. case_decide; [done|].
  assert (0 < n)%N as Hpos by lia.
  rewrite pretty_N_go_step by done.
  assert (forall x s, s <> "" -> pretty_N_go x s <> "") as Hgo.
  { intros x. induction (N.lt_wf_0 x) as [x _ IH]; intros s Hs.
    assert (x = 0 \/ 0 < x)%N as [->|Hx] by lia; [by rewrite pretty_N_go_0|].
    rewrite pretty_N_go_step by done. apply IH; [by apply N.div_lt|done]. }
  by apply Hgo.
Qed.

Lemma all_digits_app (a b : string) :
  Js.all_digits (a +:+ b) = Js.all_digits a && Js.all_digits b.
Proof.
  induction a as [|c a IH]; [done|]. rewrite append_cons. cbn [Js.all_digits].
  by rewrite IH, andb_assoc.
Qed.

Lemma zeros_digits (k : nat) : Js.all_digits (String.concat "" (replicate k "0")) = true.
Proof.
  induction k as [|k IH]; [done|]. simpl replicate.
  destruct k; [done|]. cbn [String.concat replicate] in *.
  rewrite append_nil_l. rewrite all_digits_app. by rewrite IH.
Qed.

Lemma padStart0_digits (w : nat) (n : N) : Js.all_digits (Js.padStart0 w n) = true.
Proof.
  unfold Js.padStart0. by rewrite all_digits_app, zeros_digits, pretty_N_digits.
Qed.

Lemma padStart0_nonempty (w : nat) (n : N) : Js.padStart0 w n <> "".
Proof.
  unfold Js.padStart0. intros Heq.
  assert (String.length (String.concat "" (replicate (w - String.length (pretty n)) "0")
                           +:+ pretty n) = 0%nat) as Hlen by by rewrite Heq.
  rewrite length_append in Hlen.
  destruct (pretty n) eqn:Hp; [by apply pretty_N_nonempty in Hp|]. simpl in Hlen. lia.
Qed.

Lemma all_harmless_app (a b : string) :
  all_harmless (a +:+ b) = all_harmless a && all_harmless b.
Proof. unfold all_harmless. by rewrite chars_append, forallb_app. Qed.

Lemma digits_all_harmless (s : string) : Js.all_digits s = true -> all_harmless s = true.
Proof.
  induction s as [|c s IH]; [done|]. cbn [Js.all_digits].
  intros [Hc Hs]%andb_true_iff. unfold all_harmless. simpl.
  rewrite digit_harmless by by apply bool_decide_eq_true in Hc.
  by apply IH.
Qed.

Lemma hex_digit_harmless (n : N) : harmless (Buffer.hex_digit n) = true.
Proof.
  unfold Buffer.hex_digit.
  assert (N.to_nat (n mod 16) < 16)%nat as Hlt.
  { pose proof (N.mod_upper_bound n 16). lia. }
  set (k := N.to_nat (n mod 16)) in *. clearbody k.
  do 16 (destruct k as [|k]; [done|]). lia.
Qed.

Lemma toString_hex_harmless (buf : list byte) :
  all_harmless (Buffer.toString_hex buf) = true.
Proof.
  induction buf as [|b buf IH]; [done|]. unfold all_harmless in *. simpl.
  by rewrite !hex_digit_harmless, IH.
Qed.

Lemma utcNowStamp_harmless (d : utc) : all_harmless (utcNowStamp d) = true.
Proof.
  unfold utcNowStamp. cbv zeta. rewrite !all_harmless_app.
  by rewrite !(digits_all_harmless _ (padStart0_digits _ _)).
Qed.

Lemma stem_harmless (env : ambient) : all_harmless (stem env) = true.
Proof.
  unfold stem. rewrite !all_harmless_app.
  by rewrite utcNowStamp_harmless, toString_hex_harmless.
Qed.

Lemma stem_nonempty (env : ambient) : stem env <> "".
Proof.
  unfold stem, utcNowStamp. cbv zeta.
  destruct (Js.padStart0 4 _) eqn:Hy; [by apply padStart0_nonempty in Hy|].
  by rewrite !append_cons.
Qed.

(** A pattern that starts with a character the text before does not hold
    can only occur in the text after. *)
Lemma includes_app_l (c : ascii) (p a b : string) :
  Forall (fun x => x <> c) (chars a) ->
  Js.includes (String c p) (a +:+ b) = Js.includes (String c p) b.
Proof.
  induction a as [|x a IH]; intros Ha; [by rewrite append_nil_l|].
  simpl in Ha. apply Forall_cons in Ha as [Hx Ha].
  rewrite append_cons, JsFacts.includes_cons, IH by done.
  unfold Js.startsWith. simpl.
  destruct (Ascii.eqb_spec c x) as [<-|]; [done|].
  by destruct (ascii_dec c x).
Qed.

Lemma harmless_neq (s : string) (c : ascii) :
  all_harmless s = true -> harmless c = false -> Forall (fun x => x <> c) (chars s).
Proof.
  unfold all_harmless. intros Hs Hc. apply Forall_forall. intros x Hx <-.
  rewrite forallb_forall in Hs. rewrite Hs in Hc; [done|]. by apply list_elem_of_In.
Qed.

Lemma harmless_solid (c : ascii) : harmless c = true -> solid c = true.
Proof. unfold harmless. by intros [[[? _]%andb_true_iff _]%andb_true_iff _]%andb_true_iff. Qed.

Lemma starts_solid_harmless (s b : string) :
  s <> "" -> all_harmless s = true -> starts_solid (s +:+ b) = true.
Proof.
  destruct s as [|c s]; [done|]. intros _. unfold all_harmless. simpl.
  intros [Hc _]%andb_true_iff. by apply harmless_solid.
Qed.

(** The bytes of a name are ASCII, and one name comes before another in
    the order of [sort] exactly when it does byte by byte. *)
Lemma all_harmless_low (s : string) :
  all_harmless s = true -> Forall (fun c => (N_of_ascii c < 238)%N) (chars s).
Proof.
  unfold all_harmless. rewrite forallb_forall, Forall_forall.
  intros Hs c Hc%list_elem_of_In. apply Hs, harmless_solid, Space.solid_inv in Hc as [_ Hc].
  lia.
Qed.

Lemma recordName_low (env : ambient) :
  Forall (fun c => (N_of_ascii c < 238)%N) (chars (recordNameOf env)).
Proof.
  rewrite recordNameOf_stem, chars_append. apply Forall_app. split.
  - apply all_harmless_low, stem_harmless.
  - simpl. repeat constructor.
Qed.

Lemma recordName_sort_le (env1 env2 : ambient) :
  Js.sort_le (recordNameOf env1) (recordNameOf env2) <->
  String.le (recordNameOf env1) (recordNameOf env2).
Proof. apply Order.sort_le_low; apply recordName_low. Qed.

(** The name of a document or of a blob: a stem of harmless characters and
    one of the two extensions. *)
Lemma name_facts (env : ambient) (ext : string) :
  ext = ".json" \/ ext = ".body" ->
  let n := stem env +:+ ext in
  Js.trim n = n /\ n <> "" /\ n <> "." /\ unsafe_name n = false /\ invalidId n = false.
Proof.
  intros Hext n.
  assert (Js.trim n = n) as Htrim.
  { unfold Js.trim. rewrite Space.trimStart_solid.
    - apply Space.trimEnd_solid, Space.ends_solid_append. by destruct Hext as [-> | ->].
    - apply starts_solid_harmless; [apply stem_nonempty|apply stem_harmless]. }
  assert (n <> "") as Hne.
  { unfold n. pose proof (stem_nonempty env). destruct (stem env); [done|].
    by rewrite append_cons. }
  assert (unsafe_name n = false) as Hsafe.
  { unfold unsafe_name, n.
    rewrite !includes_app_l by (by apply harmless_neq; [apply stem_harmless|]).
    by destruct Hext as [-> | ->]. }
  split_and!; try done.
  - intros Hdot%(f_equal String.length). unfold n in Hdot.
    rewrite length_append in Hdot. destruct Hext as [-> | ->]; simpl in Hdot; lia.
  - unfold invalidId. rewrite Htrim. unfold unsafe_name in Hsafe.
    apply orb_false_iff in Hsafe as [[H1 H2]%orb_false_iff H3].
    destruct (String.eqb_spec n ""); [done|]. by rewrite H1, H2, H3.
Qed.

Lemma recordName_facts (env : ambient) :
  let n := recordNameOf env in
  Js.trim n = n /\ n <> "" /\ n <> "." /\ unsafe_name n = false /\ invalidId n = false.
Proof. rewrite recordNameOf_stem. apply name_facts. by left. Qed.

Lemma bodyName_facts (env : ambient) :
  let n := bodyNameOf env in
  Js.trim n = n /\ n <> "" /\ n <> "." /\ unsafe_name n = false /\ invalidId n = false.
Proof. rewrite bodyNameOf_stem. apply name_facts. by right. Qed.

Lemma bodyName_inj (env env' : ambient) :
  bodyNameOf env = bodyNameOf env' -> recordNameOf env = recordNameOf env'.
Proof.
  rewrite !bodyNameOf_stem, !recordNameOf_stem.
  intros [-> _]%append_inj_suffix; done.
Qed.

End NameChars.

(** ** Names and the clock *)

Module Clock.

Import Names.

Lemma ascii_compare_refl (c : ascii) : Ascii.compare c c = Eq.
Proof. unfold Ascii.compare. apply N.compare_refl. Qed.

Lemma compare_app_common (a x y : string) :
  String.compare (a +:+ x) (a +:+ y) = String.compare x y.
Proof.
  induction a as [|c a IH]; [done|]. rewrite !append_cons. simpl.
  by rewrite ascii_compare_refl.
Qed.

Lemma comes_before_length (a b : string) :
  comes_before a b = true -> String.length a = String.length b.
Proof.
  revert b. induction a as [|x a IH]; intros [|y b]; try done. simpl.
  destruct (Ascii.compare x y); [intros H; f_equal; by apply IH| |done].
  intros H%Nat.eqb_eq. by f_equal.
Qed.

Lemma comes_before_compare (a b x y : string) :
  comes_before a b = true -> String.compare (a +:+ x) (b +:+ y) = Lt.
Proof.
  revert b. induction a as [|c a IH]; intros [|d b]; try done.
  rewrite !append_cons. simpl.
  destruct (Ascii.compare c d); [apply IH|done|done].
Qed.

Lemma comes_before_app (a b x y : string) :
  comes_before a b = true -> String.length x = String.length y ->
  comes_before (a +:+ x) (b +:+ y) = true.
Proof.
  revert b. induction a as [|c a IH]; intros [|d b]; try done.
  rewrite !append_cons. simpl.
  destruct (Ascii.compare c d); [by apply IH| |done].
  intros Hab%Nat.eqb_eq Hxy. apply Nat.eqb_eq. rewrite !length_append. lia.
Qed.

Lemma comes_before_common (a x y : string) :
  comes_before x y = true -> comes_before (a +:+ x) (a +:+ y) = true.
Proof.
  intros Hxy. induction a as [|c a IH]; [done|]. rewrite !append_cons. simpl.
  by rewrite ascii_compare_refl.
Qed.

Lemma pretty_N_char_lt (i j : N) :
  (i < j)%N -> (j < 10)%N -> Ascii.compare (pretty_N_char i) (pretty_N_char j) = Lt.
Proof.
  intros Hij Hj.
  assert (forallb (fun i => forallb (fun j =>
            if (i <? j)%N
            then bool_decide (Ascii.compare (pretty_N_char i) (pretty_N_char j) = Lt)
            else true) [0; 1; 2; 3; 4; 5; 6; 7; 8; 9]%N)
            [0; 1; 2; 3; 4; 5; 6; 7; 8; 9]%N = true) as Hall by reflexivity.
  rewrite forallb_forall in Hall.
  assert (forall k, (k < 10)%N -> In k [0; 1; 2; 3; 4; 5; 6; 7; 8; 9]%N) as Hin.
  { intros k Hk. simpl.
    assert (k = 0 \/ k = 1 \/ k = 2 \/ k = 3 \/ k = 4 \/ k = 5 \/ k = 6 \/ k = 7 \/
            k = 8 \/ k = 9)%N by lia. intuition auto. }
  specialize (Hall i (Hin i ltac:(lia))). rewrite forallb_forall in Hall.
  specialize (Hall j (Hin j Hj)). apply N.ltb_lt in Hij. rewrite Hij in Hall.
  by apply bool_decide_eq_true in Hall.
Qed.

Lemma digits_length (w : nat) (n : N) : String.length (digits w n) = w.
Proof.
  revert n. induction w as [|w IH]; intros n; [done|]. simpl.
  rewrite length_append, IH. simpl. lia.
Qed.

(** Padded to one width, a smaller number is written by a string that
    comes first. *)
Lemma digits_mono (w : nat) (n m : N) :
  (n < m)%N -> (m < 10 ^ N.of_nat w)%N -> comes_before (digits w n) (digits w m) = true.
Proof.
  revert n m. induction w as [|w IH]; intros n m Hnm Hm.
  - simpl in Hm. lia.
  - rewrite Nat2N.inj_succ, N.pow_succ_r' in Hm. simpl.
    pose proof (N.div_mod n 10 ltac:(lia)). pose proof (N.div_mod m 10 ltac:(lia)).
    pose proof (N.mod_upper_bound n 10 ltac:(lia)).
    pose proof (N.mod_upper_bound m 10 ltac:(lia)).
    destruct (decide (n / 10 = m / 10)%N) as [Heq|Hne].
    + rewrite Heq. apply comes_before_common. simpl.
      rewrite pretty_N_char_lt by lia. done.
    + apply comes_before_app; [|done].
      assert (n / 10 <= m / 10)%N by (apply N.Div0.div_le_mono; lia).
      apply IH; [lia|]. apply N.Div0.div_lt_upper_bound. lia.
Qed.

Lemma pretty_N_go_acc (x : N) (s : string) : pretty_N_go x s = pretty_N_go x "" +:+ s.
Proof.
  revert s. induction (N.lt_wf_0 x) as [x _ IH]; intros s.
  assert (x = 0 \/ 0 < x)%N as [->|Hpos] by lia.
  - by rewrite !pretty_N_go_0.
  - rewrite !(pretty_N_go_step x) by done.
    assert (x / 10 < x)%N as Hlt by by apply N.div_lt.
    rewrite (IH _ Hlt (String _ s)), (IH _ Hlt (String _ "")).
    by rewrite append_assoc.
Qed.

(** [count] zeros, as [padStart] puts them in front. *)
Lemma zeros_S (k : nat) :
  String.concat "" (replicate (S k) "0") = String "0" (String.concat "" (replicate k "0")).
Proof. simpl. by destruct k. Qed.

Lemma zeros_snoc (k : nat) :
  String.concat "" (replicate k "0") +:+ "0" = String.concat "" (replicate (S k) "0").
Proof.
  induction k as [|k IH]; [done|]. rewrite zeros_S, append_cons, IH. by rewrite !zeros_S.
Qed.

Lemma digits_pretty (w : nat) (n : N) :
  (n < 10 ^ N.of_nat w)%N ->
  (String.length (pretty_N_go n "") <= w)%nat /\
  digits w n =
    String.concat "" (replicate (w - String.length (pretty_N_go n "")) "0")
    +:+ pretty_N_go n "".
Proof.
  revert n. induction w as [|w IH]; intros n Hn.
  - simpl in Hn. assert (n = 0%N) as -> by lia. done.
  - rewrite Nat2N.inj_succ, N.pow_succ_r' in Hn. cbn [digits].
    assert (n = 0 \/ 0 < n)%N as [->|Hpos] by lia.
    + destruct (IH 0%N) as [_ IH0]; [apply N.neq_0_lt_0, N.pow_nonzero; lia|].
      change (0 / 10)%N with 0%N. change (0 mod 10)%N with 0%N.
      rewrite pretty_N_go_0 in IH0 |- *. simpl String.length in *. split; [lia|].
      rewrite IH0, Nat.sub_0_r. replace (S w - 0)%nat with (S w) by lia.
      rewrite !append_nil_r. apply zeros_snoc.
    + destruct (IH (n / 10)%N) as [Hlen IHn].
      { apply N.Div0.div_lt_upper_bound. lia. }
      rewrite (pretty_N_go_step n) by done. rewrite pretty_N_go_acc.
      rewrite length_append. simpl String.length. split; [lia|].
      rewrite IHn, append_assoc. f_equal. f_equal. f_equal. lia.
Qed.

Lemma padStart0_fixed (w : nat) (n : N) :
  (1 <= w)%nat -> (n < 10 ^ N.of_nat w)%N -> Js.padStart0 w n = digits w n.
Proof.
  intros Hw Hn. destruct (digits_pretty w n Hn) as [Hlen ->].
  unfold Js.padStart0, pretty, pretty_N. case_decide as Hz; [|done].
  subst n. rewrite pretty_N_go_0. simpl String.length.
  rewrite append_nil_r, zeros_snoc. f_equal. f_equal. lia.
Qed.

Lemma field_2 (n m : N) (x y : string) :
  (n < m)%N -> (m <= 99)%N ->
  String.compare (Js.padStart0 2 n +:+ x) (Js.padStart0 2 m +:+ y) = Lt.
Proof.
  intros Hnm Hm. apply comes_before_compare.
  rewrite !padStart0_fixed by (simpl; lia). apply digits_mono; simpl; lia.
Qed.

Lemma field_4 (n m : N) (x y : string) :
  (n < m)%N -> (m <= 9999)%N ->
  String.compare (Js.padStart0 4 n +:+ x) (Js.padStart0 4 m +:+ y) = Lt.
Proof.
  intros Hnm Hm. apply comes_before_compare.
  rewrite !padStart0_fixed by (simpl; lia). apply digits_mono; simpl; lia.
Qed.

Lemma utcNowStamp_shape (d : utc) (t : string) :
  utcNowStamp d +:+ t =
    Js.padStart0 4 (getUTCFullYear d) +:+ Js.padStart0 2 (getUTCMonth d + 1) +:+
    Js.padStart0 2 (getUTCDate d) +:+ "T" +:+ Js.padStart0 2 (getUTCHours d) +:+
    Js.padStart0 2 (getUTCMinutes d) +:+ Js.padStart0 2 (getUTCSeconds d) +:+ "Z" +:+ t.
Proof. unfold utcNowStamp. cbv zeta. by rewrite !append_assoc. Qed.

Lemma stamps_compare (d1 d2 : utc) (t1 t2 : string) :
  calendar d1 -> calendar d2 -> earlier d1 d2 ->
  String.compare (utcNowStamp d1 +:+ t1) (utcNowStamp d2 +:+ t2) = Lt.
Proof.
  intros _ (Hy & Hmo & Hda & Hhh & Hmm & Hss). unfold earlier, clock_fields. simpl.
  rewrite !utcNowStamp_shape.
  intros [?|[-> H]]; [by apply field_4|]. rewrite compare_app_common. revert H.
  intros [?|[-> H]]; [apply field_2; lia|]. rewrite compare_app_common. revert H.
  intros [?|[-> H]]; [apply field_2; lia|]. rewrite compare_app_common. revert H.
  rewrite (compare_app_common "T").
  intros [?|[-> H]]; [apply field_2; lia|]. rewrite compare_app_common. revert H.
  intros [?|[-> H]]; [apply field_2; lia|]. rewrite compare_app_common. revert H.
  intros [?|[-> H]]; [apply field_2; lia|]. done.
Qed.

End Clock.

Lemma names_strict (env1 env2 : ambient) :
  calendar (stamp_clock env1) -> calendar (stamp_clock env2) ->
  earlier (stamp_clock env1) (stamp_clock env2) ->
  strict String.le (recordNameOf env1) (recordNameOf env2).
Proof.
  intros H1 H2 Hearlier.
  assert (String.compare (recordNameOf env1) (recordNameOf env2) = Lt) as Hlt
    by by apply Clock.stamps_compare.
  split; unfold String.le, String.leb.
  - by rewrite Hlt.
  - rewrite String.compare_antisym, Hlt. simpl. tauto.
Qed.

(** Document names follow the clock: of two ingests whose names were made
    in different seconds, the earlier one has the smaller name, byte by
    byte and in the order of [sort], whatever the random suffixes are.
    Retention and the index, which go by that order, then go by time. *)
Theorem names_follow_the_clock (env1 env2 : ambient) :
  calendar (stamp_clock env1) -> calendar (stamp_clock env2) ->
  earlier (stamp_clock env1) (stamp_clock env2) ->
  strict String.le (recordNameOf env1) (recordNameOf env2) /\
  strict Js.sort_le (recordNameOf env1) (recordNameOf env2).
Proof.
  intros H1 H2 Hearlier. pose proof (names_strict env1 env2 H1 H2 Hearlier) as Hlt.
  split; [done|]. unfold strict. by rewrite !NameChars.recordName_sort_le.
Qed.

Lemma names_follow_the_clock_witness :
  strict String.le (recordNameOf (Sample.env 9 xff no_faults))
    (recordNameOf (Sample.env 10 x00 no_faults)) /\
  strict Js.sort_le (recordNameOf (Sample.env 9 xff no_faults))
    (recordNameOf (Sample.env 10 x00 no_faults)).
Proof.
  apply names_follow_the_clock; [vm_compute; intuition discriminate..|].
  unfold earlier, clock_fields. simpl.
  do 5 (right; split; [reflexivity|]). left. reflexivity.
Defined.

(** ** Strict decoding keeps the bytes *)

Lemma items_well_formed (bs pend : list byte) (need : nat) (lo hi : N) :
  forallb Buffer.well_formed (Buffer.items pend need lo hi bs) = true ->
  concat (Buffer.item_bytes <$> Buffer.items pend need lo hi bs) =
    match need with O => [] | S _ => pend end ++ bs.
Proof.
  revert pend need lo hi. induction bs as [|b rest IH]; intros pend need lo hi.
  - destruct need; [done|]. simpl. done.
  - assert (forallb Buffer.well_formed
              match Buffer.lead b with
              | inl it => it :: Buffer.items [] 0 128 191 rest
              | inr (n, lo', hi') => Buffer.items [b] n lo' hi' rest
              end = true ->
            concat (Buffer.item_bytes <$>
              match Buffer.lead b with
              | inl it => it :: Buffer.items [] 0 128 191 rest
              | inr (n, lo', hi') => Buffer.items [b] n lo' hi' rest
              end) = b :: rest) as Hfresh.
    { unfold Buffer.lead.
      destruct (_ <=? 127)%N.
      { simpl. intros H. by rewrite IH. }
      destruct (_ && _).
      { intros H. by rewrite IH. }
      destruct (_ && _).
      { intros H. by rewrite IH. }
      destruct (_ && _).
      { intros H. by rewrite IH. }
      done. }
    destruct need as [|k]; [exact Hfresh|].
    cbn [Buffer.items].
    destruct (_ && _).
    + destruct k as [|k].
      * simpl. intros H. rewrite IH by done. simpl. by rewrite <- app_assoc.
      * intros H. rewrite IH by done. by rewrite <- app_assoc.
    + done.
Qed.

Lemma decode_bom (rest : list byte) :
  Buffer.decode (Buffer.bom ++ rest) = Buffer.Scalar Buffer.bom :: Buffer.decode rest.
Proof. reflexivity. Qed.

(** What [decodeUtf8Strict] returns holds the bytes it was given, all of
    them and unchanged, but for a byte order mark at the very start: when
    the buffer starts with one, that one is dropped, and no other is. *)
Theorem strict_decoding_keeps_bytes (buf : list byte) (s : string) :
  decodeUtf8Strict buf = Some s ->
  Buffer.bytes_of s = without_bom buf.
Proof.
  unfold decodeUtf8Strict, Buffer.decode_fatal, Buffer.decode.
  destruct (forallb _ _) eqn:Hwf; [|done].
  pose proof (items_well_formed _ _ _ _ _ Hwf) as Hall. simpl in Hall.
  intros [= <-]. unfold Buffer.bytes_of, Buffer.text_of.
  rewrite String.list_byte_of_string_of_list_byte.
  destruct (Buffer.items [] 0 128 191 buf) as [|[enc|] its] eqn:Hits;
    [by rewrite <- Hall|..|done].
  case_bool_decide as Hbom.
  - rewrite <- Hall. simpl. by rewrite Hbom.
  - rewrite Hall. destruct buf as [|b1 [|b2 [|b3 rest]]]; try done.
    simpl. case_bool_decide as Hstart; [|done].
    injection Hstart as -> -> ->.
    pose proof (decode_bom rest) as Hdec. unfold Buffer.decode in Hdec.
    simpl app in Hdec. rewrite Hdec in Hits. by injection Hits as <- _.
Qed.

Lemma strict_decoding_keeps_bytes_witness :
  decodeUtf8Strict [xef; xbb; xbf; xef; xbb; xbf; x7b; x7d] =
    Some (Buffer.text_of [xef; xbb; xbf; x7b; x7d]) /\
  Buffer.bytes_of (Buffer.text_of [xef; xbb; xbf; x7b; x7d]) =
    without_bom [xef; xbb; xbf; xef; xbb; xbf; x7b; x7d].
Proof.
  split; [reflexivity|].
  apply strict_decoding_keeps_bytes. reflexivity.
Defined.

(** ** When an ingest is accepted *)

Section Acceptance.
Context {rt : JsRuntime}.


(** With a body limit of zero or less no request is accepted, whatever it
    is and whatever the disk does: the client is answered with status
    [400], [401], [413] or [500], the last also when an exception leaves
    the handler, and never with [200]; and the directory is left as it
    was, but for the temporary blob name of the ingest, which is unlinked
    when no length was declared. *)
Theorem nonpositive_limit_refuses_all (cfg : config) (env : ambient) (req : request)
    (w : world) :
  maxBody cfg <= 0 ->
  (exists status msg,
     answered (handlePostWebhook cfg env req w).1 = Text status msg /\
     (status = 400 \/ status = 401 \/ status = 413 \/ status = 500)) /\
  (files (handlePostWebhook cfg env req w).2 = files w \/
   files (handlePostWebhook cfg env req w).2 = delete (tmpBodyPath env) (files w)).
Proof.
  intros Hmax. unfold handlePostWebhook.
  destruct (requireToken cfg req) as [denied|] eqn:Hauth.
  { unfold requireToken in Hauth. destruct (String.eqb _ ""); [|destruct (safeCompareToken _ _)];
      simplify_eq; simpl; eauto 10. }
  destruct (declaredLength req) as [[]|[e|]]; [simpl; eauto 10| |].
  - destruct (Z.leb_spec e 0); [simpl; eauto 10|].
    destruct (Z.gtb_spec e (maxBody cfg)); [simpl; eauto 10|lia].
  - unfold writeBodyToFile. destruct (Z.leb_spec (maxBody cfg) 0); [|lia].
    simpl. eauto 10.
Qed.

End Acceptance.


Lemma nonpositive_limit_refuses_all_witness :
  let zero := {| maxBody := 0; previewLimit := 4; maxRecords := 2;
                 readTokenRequired := false; token := "secret" |} in
  let out := handlePostWebhook (rt := Sample.runtime) zero (Sample.env 0 x01 no_faults)
               oversized_post after_three in
  (exists status msg,
     answered out.1 = Text status msg /\
     (status = 400 \/ status = 401 \/ status = 413 \/ status = 500)) /\
  (files out.2 = files after_three \/
   files out.2 = delete (tmpBodyPath (Sample.env 0 x01 no_faults)) (files after_three)).
Proof.
  apply (nonpositive_limit_refuses_all (rt := Sample.runtime)). simpl. lia.
Defined.

(** ** Retention on any directory *)

Section Settling.
Context {rt : JsRuntime}.

Lemma enforceRetention_unfold (cfg : config) (w : world) :
  0 < maxRecords cfg ->
  enforceRetention cfg w =
    foldl evict (call Readdir w)
      (drop (Z.to_nat (maxRecords cfg)) (documents (readdir w).1)).
Proof.
  intros Hkeep. unfold enforceRetention.
  by destruct (Z.leb_spec (maxRecords cfg) 0) as [|_]; [lia|].
Qed.

(** Whatever the directory holds, corrupt documents included, a retention
    pass with a positive keep-count [N] leaves at most [N] documents, each
    of them one of the [N] first of the listing and with the content it
    had; and a second pass right after it changes no file. *)
Theorem retention_settles (cfg : config) (w : world) :
  0 < maxRecords cfg ->
  let keep := Z.to_nat (maxRecords cfg) in
  let w1 := enforceRetention cfg w in
  (forall n, is_document w1 n ->
     n ∈ take keep (documents (readdir w).1) /\ files w1 !! n = files w !! n) /\
  (length (documents (readdir w1).1) <= keep)%nat /\
  files (enforceRetention cfg w1) = files w1.
Proof.
  intros Hkeep keep w1.
  set (L := documents (readdir w).1).
  assert (w1 = foldl evict (call Readdir w) (drop keep L)) as Hw1
    by by apply enforceRetention_unfold.
  assert (forall n, is_document w1 n ->
            n ∈ take keep L /\ files w1 !! n = files w !! n) as Hkept.
  { intros n [[d Hd] Hjson].
    destruct (foldl_evict_lookup (drop keep L) (call Readdir w) n) as [Hn|Hn];
      rewrite <- Hw1 in Hn; [by rewrite Hn in Hd|].
    simpl in Hn. split; [|done].
    assert (n ∈ L) as HnL.
    { apply elem_of_listing. split; [|done]. rewrite <- Hn. eauto. }
    rewrite <- (take_drop keep L) in HnL. apply elem_of_app in HnL as [?|Hstale]; [done|].
    rewrite Hw1 in Hd. by rewrite (foldl_evict_gone _ _ _ Hstale) in Hd. }
  assert (length (documents (readdir w1).1) <= keep)%nat as Hlen.
  { trans (length (take keep L)); [|rewrite length_take; lia].
    apply submseteq_length, NoDup_submseteq.
    - apply documents_NoDup, readdir_NoDup.
    - intros n Hn%elem_of_listing. by apply Hkept. }
  split_and!; try done.
  rewrite enforceRetention_unfold by done.
  by rewrite drop_ge.
Qed.

End Settling.

Lemma retention_settles_witness :
  let keep := Z.to_nat (maxRecords (Sample.cfg 1)) in
  let w := Sample.holding [("a.json", Buffer.bytes_of "oops");
                           ("b.json", Buffer.bytes_of "{a.json");
                           ("c.json", Buffer.bytes_of "{c.body")] in
  let w1 := enforceRetention (rt := Sample.runtime) (Sample.cfg 1) w in
  (forall n, is_document w1 n ->
     n ∈ take keep (documents (readdir w).1) /\ files w1 !! n = files w !! n) /\
  (length (documents (readdir w1).1) <= keep)%nat /\
  files (enforceRetention (rt := Sample.runtime) (Sample.cfg 1) w1) = files w1.
Proof.
  apply (retention_settles (rt := Sample.runtime)). simpl. lia.
Defined.

(** ** The pages read and never write *)

Section Reading.
Context {rt : JsRuntime}.

Lemma handleGetIndex_files (cfg : config) (req : request) (w : world) :
  files (handleGetIndex cfg req w).2 = files w.
Proof.
  unfold handleGetIndex.
  destruct (if readTokenRequired cfg then requireToken cfg req else None); [done|].
  assert (index_records w =
            foldl index_row ([], call Readdir (call Mkdir w))
              (take 50 (documents (readdir w).1))) as Hrec by reflexivity.
  destruct (foldl_index_row (take 50 (documents (readdir w).1)) []
              (call Readdir (call Mkdir w))) as (rows & _ & _ & Hfiles & _).
  rewrite <- Hrec in Hfiles. by destruct (index_records w).
Qed.

Lemma handleGetView_files (cfg : config) (req : request) (w : world) :
  files (handleGetView cfg req w).2 = files w.
Proof.
  unfold handleGetView, access, readFile.
  destruct (if readTokenRequired cfg then requireToken cfg req else None); [done|].
  destruct (invalidId _); [done|]. cbv beta iota zeta.
  destruct (negb _); [done|].
  by destruct (_ ≫= parse_utf8).
Qed.

Lemma handleGetRaw_files (cfg : config) (req : request) (w : world) :
  files (handleGetRaw cfg req w).2 = files w.
Proof.
  unfold handleGetRaw, access, readFile, stat_size.
  destruct (if readTokenRequired cfg then requireToken cfg req else None); [done|].
  destruct (invalidId _); [done|]. cbv beta iota zeta.
  destruct (negb _); [done|].
  destruct (_ ≫= parse_utf8) as [v|]; [|done].
  destruct (body_file_of v) as [s|]; [|done].
  destruct (_ || _); [done|].
  by destruct (negb _).
Qed.

Lemma handleGetMock_world (cfg : config) (s : site) (req : request) (w : world) :
  (handleGetMock cfg s req w).2 = w.
Proof.
  unfold handleGetMock.
  destruct (if readTokenRequired cfg then requireToken cfg req else None); [done|].
  cbv zeta. by destruct (String.eqb (Js.trim _) "").
Qed.

(** Of all the requests the server takes, only a [POST] to [/], [/webhook]
    or [/hook] can change a file of the data directory: every other
    request, whatever its method, path, token and query, leaves each file
    as it was. *)
Theorem only_webhooks_write (cfg : config) (s : site) (env : ambient)
    (inc : incoming) (w : world) :
  method inc <> "POST" \/ hook_path (url_pathname (message inc)) = false ->
  files (createServer cfg s env inc w).2 = files w.
Proof.
  intros Hread. unfold createServer.
  destruct (url_parses inc); [|done]. cbv beta iota zeta. simpl negb. cbv iota.
  destruct (String.eqb (method inc) "OPTIONS").
  { by destruct (hook_path _). }
  destruct (String.eqb (method inc) "GET").
  { destruct (String.eqb _ "/health"); [done|].
    destruct (_ || _).
    { pose proof (handleGetMock_world cfg s (message inc) w) as H.
      by destruct (handleGetMock _ _ _ _) as [r w']; simpl in *; subst. }
    destruct (_ || _).
    { pose proof (handleGetIndex_files cfg (message inc) w) as H.
      by destruct (handleGetIndex _ _ _). }
    destruct (String.eqb _ "/view").
    { pose proof (handleGetView_files cfg (message inc) w) as H.
      by destruct (handleGetView _ _ _). }
    destruct (String.eqb _ "/raw"); [|done].
    pose proof (handleGetRaw_files cfg (message inc) w) as H.
    by destruct (handleGetRaw _ _ _). }
  destruct (String.eqb_spec (method inc) "POST") as [Hpost|]; [|done].
  destruct Hread as [? | ->]; done.
Qed.

(** When reading takes a token, a request that carries no valid one learns
    nothing and changes nothing: it gets the refusal of [requireToken], or
    one of the fixed answers that depend on the method and the path alone,
    and never a page or a download. *)
Theorem unauthorised_sees_nothing (cfg : config) (s : site) (env : ambient)
    (inc : incoming) (w : world) (denied : response) :
  readTokenRequired cfg = true ->
  requireToken cfg (message inc) = Some denied ->
  (createServer cfg s env inc w).2 = w /\
  ((createServer cfg s env inc w).1 = denied \/
   (createServer cfg s env inc w).1 = Text 200 (line "ok") /\
     method inc = "GET" /\ url_pathname (message inc) = "/health" \/
   (createServer cfg s env inc w).1 = Text 204 "" /\ method inc = "OPTIONS" \/
   (createServer cfg s env inc w).1 = Text 404 (line "not found") \/
   (createServer cfg s env inc w).1 = Text 400 (line "bad request")).
Proof.
  intros Hreq Hdenied. unfold createServer.
  destruct (url_parses inc); [|simpl; auto 10]. cbv beta iota zeta. simpl negb. cbv iota.
  destruct (String.eqb_spec (method inc) "OPTIONS").
  { destruct (hook_path _); simpl; auto 10. }
  destruct (String.eqb_spec (method inc) "GET").
  { destruct (String.eqb_spec (url_pathname (message inc)) "/health"); [simpl; auto 10|].
    destruct (_ || _).
    { unfold handleGetMock. rewrite Hreq, Hdenied. simpl. auto. }
    destruct (_ || _).
    { unfold handleGetIndex. rewrite Hreq, Hdenied. simpl. auto. }
    destruct (String.eqb _ "/view").
    { unfold handleGetView. rewrite Hreq, Hdenied. simpl. auto. }
    destruct (String.eqb _ "/raw"); [|simpl; auto 10].
    unfold handleGetRaw. rewrite Hreq, Hdenied. simpl. auto. }
  destruct (String.eqb (method inc) "POST"); [|simpl; auto 10].
  destruct (hook_path _); [|simpl; auto 10]. simpl negb. cbv iota.
  unfold handlePostWebhook. rewrite Hdenied. simpl. auto.
Qed.

Lemma requireToken_text (cfg : config) (req : request) (r : response) :
  (if readTokenRequired cfg then requireToken cfg req else None) = Some r ->
  exists status msg, r = Text status msg.
Proof.
  destruct (readTokenRequired cfg); [|done]. unfold requireToken.
  destruct (String.eqb _ ""); [intros [= <-]; eauto|].
  destruct (safeCompareToken _ _); [done|]. intros [= <-]; eauto.
Qed.

(** What [/raw] streams is the entry of the data directory that the
    document names, under a name that is not empty and holds no [..], no
    slash and no backslash. The entry exists, its bytes are streamed and
    the length declared is their number; but for the name [.], which is
    the directory itself: then the length declared is the size of the
    directory and the stream fails. No file is changed. *)
Theorem raw_serves_the_named_blob (cfg : config) (req : request) (w w' : world)
    (ctype filename : string) (declared : option Z) (data : option (list byte)) :
  handleGetRaw cfg req w = (Some (Download ctype filename declared data), w') ->
  let id := Js.trim (Js.string_or (url_id req) "") in
  invalidId id = false /\
  (exists (v : json) (s : string),
     files w !! id ≫= parse_utf8 = Some v /\
     body_file_of v = Some s /\ filename = Js.trim s) /\
  plain_name filename /\
  (filename <> "." ->
   exists d : list byte,
     files w !! filename = Some d /\ data = Some d /\
     declared = Some (Z.of_nat (length d))) /\
  (filename = "." -> data = None /\ declared = Some (dir_size w)) /\
  files w' = files w.
Proof.
  intros Hraw id. pose proof (handleGetRaw_files cfg req w) as Hfiles.
  rewrite Hraw in Hfiles. revert Hraw.
  unfold handleGetRaw, access, readFile, stat_size, createReadStream.
  destruct (if readTokenRequired cfg then requireToken cfg req else None) as [r|] eqn:Hauth.
  { apply requireToken_text in Hauth as (status & msg & ->). done. }
  fold id. destruct (invalidId id) eqn:Hid; [done|]. cbv beta iota zeta.
  destruct (negb _); [done|]. simpl files.
  destruct (is_dir id) eqn:Hdir; [done|].
  destruct (files w !! id ≫= parse_utf8) as [v|] eqn:Hv; [|done].
  destruct (body_file_of v) as [s|] eqn:Hs; [|done].
  destruct (String.eqb_spec (Js.trim s) "") as [|Hne]; [done|]. simpl orb.
  destruct (unsafe_name (Js.trim s)) eqn:Hsafe; [done|].
  destruct (is_dir (Js.trim s)) eqn:Hdot.
  - simpl. intros [= <- <- <- <-]. apply String.eqb_eq in Hdot.
    split_and!; try done; eauto.
  - simpl orb. case_bool_decide as Hsome; [|done]. simpl.
    intros [= <- <- <- <-]. apply String.eqb_neq in Hdot.
    destruct Hsome as [d Hd]. split_and!; try done; eauto.
    intros _. exists d. by rewrite Hd.
Qed.

End Reading.

Lemma only_webhooks_write_witness :
  files (createServer (rt := Sample.runtime) (Sample.cfg 2)
           {| mock_file := None; build_mock_html := None |}
           (Sample.env 0 x01 no_faults)
           {| method := "DELETE"; url_parses := true; message := sample_post |}
           after_three).2 = files after_three.
Proof.
  apply (only_webhooks_write (rt := Sample.runtime)). left. discriminate.
Defined.

Lemma unauthorised_sees_nothing_witness :
  let cfg := {| maxBody := 16; previewLimit := 4; maxRecords := 2;
                readTokenRequired := true; token := "secret" |} in
  let site := {| mock_file := Some "<p>mock</p>"; build_mock_html := None |} in
  let inc := {| method := "GET"; url_parses := true;
                message := Sample.get "20260129T061802Z-000000000000.json" |} in
  let out := createServer (rt := Sample.runtime) cfg site (Sample.env 0 x01 no_faults)
               inc after_three in
  out.2 = after_three /\
  (out.1 = Text 401 (line "unauthorized") \/
   out.1 = Text 200 (line "ok") /\
     method inc = "GET" /\ url_pathname (message inc) = "/health" \/
   out.1 = Text 204 "" /\ method inc = "OPTIONS" \/
   out.1 = Text 404 (line "not found") \/
   out.1 = Text 400 (line "bad request")).
Proof.
  intros cfg site inc out.
  apply (unauthorised_sees_nothing (rt := Sample.runtime) cfg site
           (Sample.env 0 x01 no_faults) inc after_three (Text 401 (line "unauthorized")));
    reflexivity.
Defined.

(** The last of three ingests of [text/plain], fetched after the run. *)
Lemma raw_serves_the_named_blob_witness :
  let req := {| provided_token := ""; header_content_length := None;
                header_content_type := None; header_user_agent := None;
                socket_remoteAddress := "127.0.0.1"; url_pathname := "/raw";
                url_id := Some " 20260129T061802Z-000000000000.json ";
                chunks := []; aborted := false |} in
  let id := Js.trim (Js.string_or (url_id req) "") in
  let out := handleGetRaw (rt := Sample.runtime) (Sample.cfg 2) req after_three in
  out.1 = Some (Download "text/plain; charset=utf-8"
                  "20260129T061802Z-000000000000.body" (Some 6)
                  (Some (Buffer.bytes_of "abcdef"))) /\
  invalidId id = false /\
  (exists (v : json (JsRuntime := Sample.runtime)) (s : string),
     files after_three !! id ≫= parse_utf8 (JsRuntime := Sample.runtime) = Some v /\
     body_file_of (JsRuntime := Sample.runtime) v = Some s /\
     "20260129T061802Z-000000000000.body" = Js.trim s) /\
  plain_name "20260129T061802Z-000000000000.body" /\
  ("20260129T061802Z-000000000000.body" <> "." ->
   exists d : list byte,
     files after_three !! "20260129T061802Z-000000000000.body" = Some d /\
     Some (Buffer.bytes_of "abcdef") = Some d /\
     Some 6 = Some (Z.of_nat (length d))) /\
  ("20260129T061802Z-000000000000.body" = "." ->
   Some (Buffer.bytes_of "abcdef") = None /\ Some 6 = Some (dir_size after_three)) /\
  files out.2 = files after_three.
Proof.
  intros req id out. split; [vm_compute; reflexivity|].
  apply (raw_serves_the_named_blob (rt := Sample.runtime) (Sample.cfg 2) req after_three out.2
           "text/plain; charset=utf-8" "20260129T061802Z-000000000000.body" (Some 6)
           (Some (Buffer.bytes_of "abcdef"))).
  vm_compute. reflexivity.
Defined.

(** ** What was posted can be downloaded *)

Section Provenance.
Context {rt : JsRuntime}.

Hypothesis round_trip : reads_back.

Lemma staleBodyName_built (env : ambient) (req : request) (wr : writeResult) :
  staleBodyName (Some (stringify_utf8 (builtRecord env req wr))) = bodyNameOf env.
Proof.
  unfold staleBodyName. simpl. pose proof (round_trip env req wr) as Hlaw.
  destruct (parse_utf8 (stringify_utf8 (builtRecord env req wr))) as [v|]; [|done].
  simpl in Hlaw. rewrite Hlaw. apply NameChars.bodyName_facts.
Qed.

Lemma evict_preserves (w : world) (m x : string) :
  m <> x ->
  staleBodyName (readFile m w).1 <> x ->
  files (evict w m) !! x = files w !! x.
Proof.
  intros Hm Hb. rewrite evict_unfold. cbv zeta.
  assert (delete m (files w) !! x = files w !! x) as Hdel by by apply lookup_delete_ne.
  destruct (String.eqb _ ""); [done|].
  destruct (unsafe_name _); [done|]. simpl.
  by rewrite lookup_delete_ne.
Qed.

Lemma foldl_evict_preserves (stale : list string) (w : world) (x : string) :
  x <> "" ->
  (forall m, m ∈ stale -> m <> x /\ staleBodyName (readFile m w).1 <> x) ->
  files (foldl evict w stale) !! x = files w !! x.
Proof.
  intros Hx. revert w. induction stale as [|m stale IH]; intros w Hstale; [done|].
  simpl. rewrite IH.
  - apply evict_preserves; apply Hstale; by left.
  - intros m' Hm'. destruct (Hstale m') as [Hne Hb]; [by right|]. split; [done|].
    unfold readFile in *. simpl in *. destruct (is_dir m'); [done|].
    destruct (evict_lookup w m m') as [-> | ->]; [|done].
    unfold staleBodyName. simpl. by apply not_eq_sym.
Qed.

(** Retention keeps the blob of every document it keeps, in a directory
    whose documents were all written by ingests. *)
Lemma enforceRetention_faithful (cfg : config) (inputs : list (ambient * request))
    (w : world) :
  faithful inputs w -> faithful inputs (enforceRetention cfg w).
Proof.
  intros Hw. destruct (Z.leb_spec (maxRecords cfg) 0) as [Hkeep|Hkeep].
  { unfold enforceRetention. by destruct (Z.leb_spec (maxRecords cfg) 0); [|lia]. }
  rewrite enforceRetention_unfold by done.
  set (stale := drop _ _).
  intros n d Hd Hjson.
  destruct (foldl_evict_lookup stale (call Readdir w) n) as [Hn|Hn]; [by rewrite Hn in Hd|].
  rewrite Hn in Hd. simpl in Hd.
  destruct (Hw n d Hd Hjson) as (env & req & wr & Hin & -> & -> & Hblob).
  exists env, req, wr. split_and!; try done.
  rewrite foldl_evict_preserves; [done|apply NameChars.bodyName_facts|].
  intros m Hm. split.
  { intros ->. apply subseteq_drop, elem_of_listing in Hm as [_ Hm].
    by rewrite Names.bodyName_not_json in Hm. }
  assert (m <> recordNameOf env) as Hne.
  { intros ->. rewrite (foldl_evict_gone _ _ _ Hm) in Hn. simpl in Hn. by rewrite Hd in Hn. }
  apply subseteq_drop, elem_of_listing in Hm as [[dm Hdm] Hmjson].
  unfold readFile. simpl.
  destruct (is_dir m).
  { unfold staleBodyName. simpl. apply not_eq_sym, NameChars.bodyName_facts. }
  rewrite Hdm.
  destruct (Hw m dm Hdm Hmjson) as (envm & reqm & wrm & _ & -> & -> & _).
  rewrite staleBodyName_built. intros Heq%NameChars.bodyName_inj. done.
Qed.

Lemma published_faithful (inputs : list (ambient * request)) (env : ambient)
    (req : request) (wr : writeResult) (w : world) :
  faithful inputs w ->
  faithful (inputs ++ [(env, req)])
    (published env req (stringify_utf8 (builtRecord env req wr)) w).
Proof.
  intros Hw n d Hd Hjson.
  destruct (decide (n = recordNameOf env)) as [->|Hne].
  - rewrite published_record in Hd. injection Hd as <-.
    exists env, req, wr. split_and!; try done.
    + apply elem_of_app. right. by left.
    + apply published_body.
  - simpl in Hd. rewrite lookup_insert_ne in Hd by done.
    rewrite lookup_delete_ne, lookup_insert_ne in Hd.
    + destruct (Hw n d Hd Hjson) as (envn & reqn & wrn & Hin & -> & -> & Hblob).
      exists envn, reqn, wrn. split_and!; try done.
      * apply elem_of_app. by left.
      * simpl. rewrite lookup_insert_ne by apply Names.recordName_neq_bodyName.
        rewrite lookup_delete_ne by (apply not_eq_sym, Names.bodyName_neq_tmp).
        rewrite lookup_insert_ne; [done|].
        intros Heq%NameChars.bodyName_inj. by symmetry in Heq.
    + intros <-. by rewrite Names.bodyName_not_json in Hjson.
    + intros <-. unfold tmpRecordPath in Hjson. by rewrite Names.tmp_not_json in Hjson.
Qed.

Lemma accepted_run_faithful (cfg : config) (inputs prev : list (ambient * request))
    (w w' : world) :
  faithful prev w ->
  accepted_run cfg w inputs w' ->
  faithful (prev ++ inputs) w'.
Proof.
  revert prev w. induction inputs as [|[env req] inputs IH]; intros prev w Hw Hrun.
  - simpl in Hrun. subst w'. by rewrite app_nil_r.
  - destruct Hrun as (msg & w1 & Hok & Hrun).
    apply handlePostWebhook_accepted in Hok as (expected & wr & w0 & _ & _ & _ & _ & _ & _ & ->).
    rewrite (cons_middle _ prev), app_assoc. eapply IH; [|exact Hrun].
    apply enforceRetention_faithful. by apply published_faithful.
Qed.

Lemma same_name_same_ingest (inputs : list (ambient * request)) (i j : ambient * request) :
  NoDup (arrivals inputs) ->
  i ∈ inputs -> j ∈ inputs -> recordNameOf i.1 = recordNameOf j.1 -> i = j.
Proof.
  induction inputs as [|k inputs IH]; [by intros _ ?%elem_of_nil|].
  unfold arrivals. rewrite fmap_cons. intros [Hk Hnd]%NoDup_cons.
  intros [->|Hi]%elem_of_cons [->|Hj]%elem_of_cons Heq; try done.
  - destruct Hk. rewrite Heq. by apply (list_elem_of_fmap_2 (fun i => recordNameOf i.1)).
  - destruct Hk. rewrite <- Heq. by apply (list_elem_of_fmap_2 (fun i => recordNameOf i.1)).
  - by apply IH.
Qed.

(** Start from a directory without documents and run accepted ingests
    whose document names differ. Each document still there at the end can
    be fetched by its name at [/raw]: the download is named after the blob
    of its ingest, declares the length of the body that was posted, and
    streams exactly the bytes of that body. *)
Theorem posted_bytes_come_back (cfg : config) (inputs : list (ambient * request))
    (w w' : world) (env : ambient) (req get : request) :
  (forall n, ~ is_document w n) ->
  NoDup (arrivals inputs) ->
  accepted_run cfg w inputs w' ->
  (env, req) ∈ inputs ->
  is_document w' (recordNameOf env) ->
  (if readTokenRequired cfg then requireToken cfg get else None) = None ->
  url_id get = Some (recordNameOf env) ->
  exists (ctype : string) (w'' : world),
    handleGetRaw cfg get w' =
      (Some (Download ctype (bodyNameOf env) (Some (Z.of_nat (length (body req))))
               (Some (body req))), w'').
Proof.
  intros Hempty Hnd Hrun Hin [[d Hd] Hjson] Hauth Hid.
  assert (faithful ([] ++ inputs) w') as Hw'.
  { apply (accepted_run_faithful cfg inputs [] w w'); [|done].
    intros n d' Hd' Hjson'. destruct (Hempty n). split; [eauto|done]. }
  rewrite app_nil_l in Hw'.
  destruct (Hw' _ _ Hd Hjson) as (env' & req' & wr & Hin' & Hname & -> & Hblob).
  assert ((env, req) = (env', req')) as [= <- <-].
  { by apply (same_name_same_ingest inputs). }
  destruct (NameChars.recordName_facts env) as (Htrim & Hne & Hdot & _ & Hvalid).
  destruct (NameChars.bodyName_facts env) as (Htrimb & Hneb & Hdotb & Hsafe & _).
  pose proof (round_trip env req wr) as Hlaw.
  destruct (parse_utf8 (stringify_utf8 (builtRecord env req wr))) as [v|] eqn:Hv; [|done].
  simpl in Hlaw.
  unfold handleGetRaw. rewrite Hauth, Hid.
  assert (Js.string_or (Some (recordNameOf env)) "" = recordNameOf env) as ->.
  { unfold Js.string_or. by destruct (String.eqb_spec (recordNameOf env) ""). }
  rewrite Htrim, Hvalid.
  unfold access, readFile, stat_size, createReadStream. cbv beta iota zeta. simpl files.
  rewrite Hd. simpl bool_decide. rewrite orb_true_r. simpl negb. cbv iota.
  assert (is_dir (recordNameOf env) = false) as ->.
  { unfold is_dir. by destruct (String.eqb_spec (recordNameOf env) "."). }
  simpl mbind. rewrite Hv, Hlaw, Htrimb, Hsafe.
  assert (String.eqb (bodyNameOf env) "" = false) as ->.
  { by destruct (String.eqb_spec (bodyNameOf env) ""). }
  assert (is_dir (bodyNameOf env) = false) as ->.
  { unfold is_dir. by destruct (String.eqb_spec (bodyNameOf env) "."). }
  simpl orb. cbv iota. rewrite Hblob. simpl bool_decide. simpl. eauto.
Qed.

End Provenance.

(** The last of three ingests, fetched after the run. *)
Lemma posted_bytes_come_back_witness :
  exists (ctype : string) (w'' : world),
    handleGetRaw (rt := Sample.runtime) (Sample.cfg 2)
      (Sample.get (recordNameOf (Sample.env 2 x00 no_faults))) after_three =
      (Some (Download ctype (bodyNameOf (Sample.env 2 x00 no_faults))
               (Some (Z.of_nat (length (body sample_post))))
               (Some (body sample_post))), w'').
Proof.
  apply (posted_bytes_come_back (rt := Sample.runtime) sample_reads_back (Sample.cfg 2)
           three_ingests Sample.empty after_three (Sample.env 2 x00 no_faults) sample_post).
  - intros n [[d Hd] _]. cbn [Sample.empty files] in Hd. by rewrite lookup_empty in Hd.
  - apply (bool_decide_unpack (NoDup (arrivals three_ingests))). vm_compute. exact I.
  - repeat (eexists _, _; split; [vm_compute; reflexivity|]). vm_compute. reflexivity.
  - unfold three_ingests. rewrite !elem_of_cons. auto.
  - split; [|reflexivity]. eexists. vm_compute. reflexivity.
  - reflexivity.
  - reflexivity.
Defined.

(** ** config.js *)

Module ConfigFacts.

Import Names.

Lemma digit_value_range (c : ascii) (d : Z) : Js.digit_value c = Some d -> 0 <= d <= 9.
Proof.
  unfold Js.digit_value.
  destruct c as [[] [] [] [] [] [] [] []]; simpl; intros [= <-]; lia.
Qed.

Lemma digit_solid (c : ascii) : is_Some (Js.digit_value c) -> solid c = true.
Proof. intros Hc. by apply NameChars.harmless_solid, NameChars.digit_harmless. Qed.

Lemma parseInt_go_bound (ds : string) (acc : Z) :
  Js.all_digits ds = true -> 0 <= acc ->
  0 <= Js.parseInt_go acc ds < (acc + 1) * 10 ^ Z.of_nat (String.length ds).
Proof.
  revert acc. induction ds as [|c ds IH]; intros acc Hds Hacc.
  - simpl. lia.
  - cbn [Js.all_digits] in Hds. apply andb_true_iff in Hds as [Hc Hds].
    apply bool_decide_eq_true in Hc as [d Hd]. cbn [Js.parseInt_go]. rewrite Hd.
    pose proof (digit_value_range c d Hd) as Hrange.
    specialize (IH (10 * acc + d) Hds ltac:(lia)).
    cbn [String.length]. rewrite Nat2Z.inj_succ, Z.pow_succ_r by lia.
    set (p := 10 ^ Z.of_nat (String.length ds)) in *.
    assert (0 < p) by (apply Z.pow_pos_nonneg; lia). nia.
Qed.

Lemma toDouble_exact (m : Z) : 0 <= m < 2 ^ 53 -> JsText.toDouble m = Some m.
Proof.
  intros [Hlo Hhi]. unfold JsText.toDouble. cbv zeta.
  assert (Z.log2 m + 1 <= 53) as Hbits.
  { destruct (decide (m = 0)) as [->|]; [done|].
    assert (Z.log2 m < 53); [|lia]. apply Z.log2_lt_pow2; lia. }
  by destruct (Z.leb_spec (Z.log2 m + 1) 53); [|lia].
Qed.

Lemma digits_prefix_app (ds rest : string) :
  Js.all_digits ds = true -> JsText.digits_prefix rest = "" ->
  JsText.digits_prefix (ds +:+ rest) = ds.
Proof.
  intros Hds Hrest. induction ds as [|c ds IH]; [by rewrite append_nil_l|].
  cbn [Js.all_digits] in Hds. apply andb_true_iff in Hds as [Hc Hds].
  apply bool_decide_eq_true in Hc as [d Hd]. rewrite append_cons. simpl.
  rewrite Hd. by rewrite IH.
Qed.

Lemma signed_other (c : ascii) (r : string) :
  c <> "-"%char -> c <> "+"%char -> JsText.signed (String c r) = (false, String c r).
Proof. intros Hm Hp. destruct c as [[] [] [] [] [] [] [] []]; done. Qed.

Lemma parseInt10_digits (ds rest : string) :
  Js.is_decimal ds = true -> (String.length ds <= 15)%nat ->
  JsText.digits_prefix rest = "" ->
  JsText.parseInt10 (ds +:+ rest) = Some (Js.parseInt ds) /\
  JsText.parseInt10 ("-" +:+ ds +:+ rest) = Some (- Js.parseInt ds) /\
  JsText.parseInt10 ("+" +:+ ds +:+ rest) = Some (Js.parseInt ds).
Proof.
  unfold Js.is_decimal. intros [Hne Hds]%andb_true_iff Hlen Hrest.
  assert (JsText.toDouble (Js.parseInt ds) = Some (Js.parseInt ds)) as Hexact.
  { apply toDouble_exact. unfold Js.parseInt.
    pose proof (parseInt_go_bound ds 0 Hds ltac:(lia)) as [Hlo Hhi]. split; [done|].
    eapply Z.lt_le_trans; [exact Hhi|].
    trans (10 ^ 15); [|by compute]. rewrite Z.mul_1_l. apply Z.pow_le_mono_r; lia. }
  pose proof (digits_prefix_app ds rest Hds Hrest) as Hpre.
  assert (String.eqb ds "" = false) as Hne' by by apply negb_true_iff.
  split_and!.
  - destruct ds as [|c ds]; [done|].
    cbn [Js.all_digits] in Hds. apply andb_true_iff in Hds as [Hc _].
    apply bool_decide_eq_true in Hc. pose proof (digit_solid c Hc) as Hsp.
    unfold JsText.parseInt10. rewrite append_cons.
    rewrite Space.trimStart_solid by done.
    rewrite signed_other by (intros ->; by destruct Hc).
    rewrite <- append_cons, Hpre, Hne', Hexact. done.
  - unfold JsText.parseInt10. rewrite append_cons, append_nil_l.
    rewrite Space.trimStart_solid by done.
    cbn [JsText.signed]. by rewrite Hpre, Hne', Hexact.
  - unfold JsText.parseInt10. rewrite append_cons, append_nil_l.
    rewrite Space.trimStart_solid by done.
    cbn [JsText.signed]. by rewrite Hpre, Hne', Hexact.
Qed.

End ConfigFacts.

(** What [envInt] makes of a variable. A variable that is unset, or blank,
    or does not start with a digit or a sign gives the fallback. A
    variable that, once trimmed, is a sign or none, at most fifteen digits
    and then anything that does not start with a digit gives the number
    those digits write, negated after a minus: what follows the digits, a
    unit such as [MB], is ignored. *)
Theorem envInt_reads_leading_digits (env : gmap string string) (name : string)
    (fallback : Z) :
  let raw := Js.trim (Js.string_or (env !! name) "") in
  (match raw with
   | EmptyString => True
   | String c _ => Js.digit_value c = None /\ c <> "-"%char /\ c <> "+"%char
   end -> Config.envInt env name fallback = fallback) /\
  (forall ds rest : string,
     Js.is_decimal ds = true -> (String.length ds <= 15)%nat ->
     JsText.digits_prefix rest = "" ->
     (raw = ds +:+ rest \/ raw = "+" +:+ ds +:+ rest ->
      Config.envInt env name fallback = Js.parseInt ds) /\
     (raw = "-" +:+ ds +:+ rest ->
      Config.envInt env name fallback = - Js.parseInt ds)).
Proof.
  intros raw. unfold Config.envInt. fold raw. split.
  - destruct raw as [|c r] eqn:Hraw; [done|]. intros (Hd & Hm & Hp).
    simpl String.eqb. cbv iota. unfold JsText.parseInt10.
    rewrite <- Hraw. unfold raw. rewrite Space.trimStart_trim. fold raw. rewrite Hraw.
    rewrite ConfigFacts.signed_other by done.
    simpl. by rewrite Hd.
  - intros ds rest Hds Hlen Hrest.
    destruct (ConfigFacts.parseInt10_digits ds rest Hds Hlen Hrest) as (H0 & Hminus & Hplus).
    assert (ds <> "") as Hne.
    { intros ->. done. }
    split.
    + intros [-> | ->].
      * rewrite H0. destruct ds; [done|]. by rewrite Names.append_cons.
      * by rewrite Hplus.
    + intros ->. by rewrite Hminus.
Qed.

(** The last variable is U+00A0 followed by [42]. *)
Lemma envInt_reads_leading_digits_witness :
  Config.maxBody {["STOCKHOOK_MAX_BODY" := " 10MB "]} = 10 /\
  Config.maxRecords {["STOCKHOOK_MAX_RECORDS" := "-5"]} = -5 /\
  Config.previewLimit {["STOCKHOOK_PREVIEW_BYTES" := "many"]} = 500 * 1024 /\
  Config.maxBody {["STOCKHOOK_MAX_BODY" := String "194" (String "160" "42")]} = 42.
Proof.
  split_and!.
  - apply (proj1 (proj2 (envInt_reads_leading_digits {["STOCKHOOK_MAX_BODY" := " 10MB "]}
                           "STOCKHOOK_MAX_BODY" (10 * 1024 * 1024)) "10" "MB"
                          eq_refl ltac:(simpl; lia) eq_refl)).
    left. reflexivity.
  - apply (proj2 (proj2 (envInt_reads_leading_digits {["STOCKHOOK_MAX_RECORDS" := "-5"]}
                           "STOCKHOOK_MAX_RECORDS" 100) "5" ""
                          eq_refl ltac:(simpl; lia) eq_refl)).
    reflexivity.
  - apply (proj1 (envInt_reads_leading_digits {["STOCKHOOK_PREVIEW_BYTES" := "many"]}
                    "STOCKHOOK_PREVIEW_BYTES" (500 * 1024))).
    vm_compute. intuition discriminate.
  - apply (proj1 (proj2 (envInt_reads_leading_digits
                           {["STOCKHOOK_MAX_BODY" := String "194" (String "160" "42")]}
                           "STOCKHOOK_MAX_BODY" (10 * 1024 * 1024)) "42" ""
                          eq_refl ltac:(simpl; lia) eq_refl)).
    left. reflexivity.
Defined.

(** ** auth.js *)

(** A request is let in exactly when a token is configured and the token
    the request carries is that token, byte for byte: an empty configured
    token lets nobody in, and the comparison of the lengths refuses nothing
    that the comparison of the bytes would accept. *)
Theorem requireToken_exactly (cfg : config) (req : request) :
  requireToken cfg req = None <->
  token cfg <> "" /\ provided_token req = token cfg.
Proof.
  unfold requireToken, safeCompareToken.
  destruct (String.eqb_spec (token cfg) "") as [He|He].
  { split; [done|]. by intros [? _]. }
  destruct (String.eqb_spec (provided_token req) "") as [Hp|Hp].
  { simpl. split; [done|]. intros [_ Heq]. by rewrite Heq in Hp. }
  simpl.
  destruct (Nat.eqb_spec (String.length (provided_token req)) (String.length (token cfg)))
    as [Hlen|Hlen]; simpl.
  - destruct (String.eqb_spec (provided_token req) (token cfg)); split; try done.
    by intros [_ ?].
  - split; [done|]. intros [_ Heq]. by rewrite Heq in Hlen.
Qed.

Module AuthFacts.

Import Names.

Lemma lower_solid (c : ascii) : solid (JsText.lower c) = solid c.
Proof. destruct c as [[] [] [] [] [] [] [] []]; reflexivity. Qed.

End AuthFacts.

(** Without an [X-Stockhook-Token] header, an [Authorization] header made
    of the word [bearer] in any mix of cases, a space and a token that is
    not blank gives that token, trimmed; the query string is not looked
    at. *)
Theorem bearer_token_is_read (c : credentials) (scheme tok : string) :
  Js.trim (Js.string_or (header_x_stockhook_token c) "") = "" ->
  header_authorization c = Some (scheme +:+ " " +:+ tok) ->
  JsText.toLowerCase scheme = "bearer" ->
  Js.trim tok <> "" ->
  getProvidedToken c = Js.trim tok.
Proof.
  intros Hhdr Hauth Hscheme Htok. unfold getProvidedToken. rewrite Hhdr, Hauth.
  simpl String.eqb. cbv iota. simpl negb. cbv iota.
  destruct scheme as [|c1 [|c2 [|c3 [|c4 [|c5 [|c6 [|c7 s]]]]]]]; try done.
  injection Hscheme as H1 H2 H3 H4 H5 H6.
  assert (forall x y, JsText.lower x = y -> solid y = true -> solid x = true) as Hsolid.
  { intros x y <-. by rewrite AuthFacts.lower_solid. }
  pose proof (Hsolid _ _ H1 eq_refl) as S1. pose proof (Hsolid _ _ H2 eq_refl) as S2.
  pose proof (Hsolid _ _ H3 eq_refl) as S3. pose proof (Hsolid _ _ H4 eq_refl) as S4.
  pose proof (Hsolid _ _ H5 eq_refl) as S5. pose proof (Hsolid _ _ H6 eq_refl) as S6.
  change (Js.string_or (Some (String c1 (String c2 (String c3 (String c4 (String c5
            (String c6 "")))))
            +:+ " " +:+ tok)) "")
    with (String c1 (String c2 (String c3 (String c4 (String c5 (String c6 (String " " tok))))))).
  assert (Js.blank tok = false) as Hblank.
  { destruct (Js.blank tok) eqn:Hb; [|done]. by apply Space.trim_nil_blank in Hb. }
  assert (Js.trim (String c1 (String c2 (String c3 (String c4 (String c5 (String c6
            (String " " tok))))))) =
          String c1 (String c2 (String c3 (String c4 (String c5 (String c6
            (String " " (Js.trimEnd tok)))))))) as ->.
  { unfold Js.trim. rewrite Space.trimStart_solid by done.
    rewrite !Space.trimEnd_solid_head by done.
    rewrite Space.trimEnd_unfold, (Space.blank_skip (String " " tok) tok) by done.
    by rewrite Hblank. }
  cbn [JsText.toLowerCase]. rewrite H1, H2, H3, H4, H5, H6.
  assert (Js.startsWith "bearer "
            (String "b" (String "e" (String "a" (String "r" (String "e" (String "r"
               (String (JsText.lower " ") (JsText.toLowerCase (Js.trimEnd tok)))))))))
          = true) as ->.
  { apply JsFacts.startsWith_spec. by eexists. }
  cbn [JsText.slice]. apply Space.trim_trimEnd.
Qed.

(** The token follows U+00A0 and a space. *)
Lemma bearer_token_is_read_witness :
  getProvidedToken
    {| header_x_stockhook_token := Some "  ";
       header_authorization :=
         Some ("BeArEr " +:+ String "194" (String "160" " secret  "));
       query_token := Some "other" |} = "secret".
Proof.
  apply (bearer_token_is_read _ "BeArEr" (String "194" (String "160" " secret  ")));
    try reflexivity.
  discriminate.
Defined.

(** ** render/utils.js: htmlEscape *)

Module EscapeFacts.

Import Names.

Lemma replaceAll_app (c : ascii) (r a b : string) :
  JsText.replaceAll c r (a +:+ b) = JsText.replaceAll c r a +:+ JsText.replaceAll c r b.
Proof.
  induction a as [|x a IH]; [done|]. rewrite append_cons. simpl.
  destruct (Ascii.eqb x c); rewrite IH; [by rewrite append_assoc|by rewrite append_cons].
Qed.

Lemma htmlEscape_app (a b : string) : htmlEscape (a +:+ b) = htmlEscape a +:+ htmlEscape b.
Proof. unfold htmlEscape. by rewrite !replaceAll_app. Qed.

Lemma htmlEscape_char (c : ascii) : htmlEscape (String c "") = entity c.
Proof. destruct c as [[] [] [] [] [] [] [] []]; reflexivity. Qed.

Lemma htmlEscape_cons (c : ascii) (s : string) :
  htmlEscape (String c s) = entity c +:+ htmlEscape s.
Proof.
  change (String c s) with (String c "" +:+ s). by rewrite htmlEscape_app, htmlEscape_char.
Qed.

Lemma htmlEscape_each (s : string) : htmlEscape s = escape_each s.
Proof.
  induction s as [|c s IH]; [done|]. by rewrite htmlEscape_cons, IH.
Qed.

Lemma entity_no_markup (c : ascii) :
  forallb (fun x => negb (markup x)) (chars (entity c)) = true.
Proof. destruct c as [[] [] [] [] [] [] [] []]; reflexivity. Qed.

(** The texts that can stand for a character: five entities, or the
    character itself when it is none of the five that are escaped. *)
Lemma entity_cases (c : ascii) :
  (c = "&"%char /\ entity c = "&amp;") \/ (c = "<"%char /\ entity c = "&lt;") \/
  (c = ">"%char /\ entity c = "&gt;") \/ (c = quot /\ entity c = "&quot;") \/
  (c = "'"%char /\ entity c = "&#39;") \/
  (entity c = String c "" /\ c <> "&"%char).
Proof.
  unfold entity.
  destruct (Ascii.eqb_spec c "&"); [auto|].
  destruct (Ascii.eqb_spec c "<"); [auto|].
  destruct (Ascii.eqb_spec c ">"); [auto|].
  destruct (Ascii.eqb_spec c quot); [auto 10|].
  destruct (Ascii.eqb_spec c "'"); auto 10.
Qed.

Lemma escape_each_inj (a b : string) : escape_each a = escape_each b -> a = b.
Proof.
  revert b. induction a as [|c a IH]; intros [|d b]; simpl.
  - done.
  - destruct (entity_cases d) as [[_ Ed]|[[_ Ed]|[[_ Ed]|[[_ Ed]|[[_ Ed]|[Ed _]]]]]];
      rewrite Ed; done.
  - destruct (entity_cases c) as [[_ Ec]|[[_ Ec]|[[_ Ec]|[[_ Ec]|[[_ Ec]|[Ec _]]]]]];
      rewrite Ec; done.
  - intros Heq.
    assert (c = d /\ escape_each a = escape_each b) as [-> Hab].
    { destruct (entity_cases c) as [[Hc Ec]|[[Hc Ec]|[[Hc Ec]|[[Hc Ec]|[[Hc Ec]|[Ec Hc]]]]]];
      destruct (entity_cases d) as [[Hd Ed]|[[Hd Ed]|[[Hd Ed]|[[Hd Ed]|[[Hd Ed]|[Ed Hd]]]]]];
      rewrite Ec, Ed in Heq; simpl in Heq; simplify_eq; done. }
    f_equal. by apply IH.
Qed.

End EscapeFacts.

(** The five replacements of [htmlEscape], made one after the other over
    the whole text, come to escaping each character once: the ampersand of
    an entity that an earlier replacement wrote is not escaped again. The
    result holds no [<], no [>] and no quote of either kind. *)
Theorem htmlEscape_escapes_once (text : string) :
  htmlEscape text = escape_each text /\
  forall c, c ∈ String.list_ascii_of_string (htmlEscape text) -> markup c = false.
Proof.
  split; [apply EscapeFacts.htmlEscape_each|].
  rewrite EscapeFacts.htmlEscape_each.
  induction text as [|x text IH]; intros c.
  - by intros ?%elem_of_nil.
  - simpl. rewrite Names.chars_append, elem_of_app. intros [Hc|Hc]; [|by apply IH].
    pose proof (EscapeFacts.entity_no_markup x) as Hx. rewrite forallb_forall in Hx.
    apply negb_true_iff, Hx. by apply list_elem_of_In.
Qed.

(** Escaping loses nothing: two texts that escape to the same text are the
    same text. *)
Theorem htmlEscape_injective (a b : string) : htmlEscape a = htmlEscape b -> a = b.
Proof. rewrite !EscapeFacts.htmlEscape_each. apply EscapeFacts.escape_each_inj. Qed.

Lemma htmlEscape_injective_witness :
  htmlEscape "a<b & c" = htmlEscape "a<b & c" /\ "a<b & c" = "a<b & c".
Proof.
  split; [reflexivity|]. apply (htmlEscape_injective "a<b & c" "a<b & c"). reflexivity.
Defined.

(** ** store.js: readFileMax *)

(** [readFileMax] returns the file cut after [maxBytes + 1] bytes, so what
    it returns is longer than [maxBytes] exactly when the file is: the one
    byte more tells a caller that the file is too large, and a file within
    the limit comes back whole. Nothing is changed. *)
Theorem readFileMax_tells_oversize (filePath : string) (maxBytes : Z) (w w' : world)
    (buf : list byte) :
  readFileMax filePath maxBytes w = (Some buf, w') ->
  exists d : list byte,
    files w !! filePath = Some d /\
    buf = take (Z.to_nat (maxBytes + 1)) d /\
    Z.of_nat (length buf) <= maxBytes + 1 /\
    (Z.of_nat (length buf) > maxBytes <-> Z.of_nat (length d) > maxBytes) /\
    (Z.of_nat (length d) <= maxBytes -> buf = d) /\
    files w' = files w.
Proof.
  unfold readFileMax. cbv zeta. simpl files.
  destruct (is_dir filePath); [done|].
  destruct (files w !! filePath) as [d|]; [|done].
  destruct (Z.ltb_spec (maxBytes + 1) 0) as [|Hsize]; [done|].
  destruct (2 ^ 31 - 1 <? maxBytes + 1); [done|]. simpl orb. cbv iota.
  intros [= <- <-]. exists d. rewrite length_take. split_and!; try done; try lia.
  intros Hfit. apply take_ge. lia.
Qed.

Lemma readFileMax_tells_oversize_witness :
  let w := Sample.holding [("a.body", Buffer.bytes_of "abcdef")] in
  exists d : list byte,
    files w !! "a.body" = Some d /\
    Buffer.bytes_of "abcde" = take (Z.to_nat (4 + 1)) d /\
    Z.of_nat (length (Buffer.bytes_of "abcde")) <= 4 + 1 /\
    (Z.of_nat (length (Buffer.bytes_of "abcde")) > 4 <-> Z.of_nat (length d) > 4) /\
    (Z.of_nat (length d) <= 4 -> Buffer.bytes_of "abcde" = d) /\
    files (call (OpenRead "a.body") w) = files w.
Proof.
  intros w. apply (readFileMax_tells_oversize "a.body" 4 w). reflexivity.
Defined.

(** ** render/utils.js: getByPath and firstNonEmptyLine *)

Lemma getByPath_Null {number : Type} (q : list string) :
  getByPath (number := number) Null q = Null.
Proof. by destruct q. Qed.

(** Following a path made of two parts is following the first part and
    then, from where it leads, the second; and a path that has to go through
    an array, a string, a number, a boolean or [null] leads to [null]. *)
Theorem getByPath_composes {number : Type} (v : value number) (p q : list string) :
  getByPath v (p ++ q) = getByPath (getByPath v p) q /\
  (forall key, (forall members, v <> Object members) -> getByPath v (key :: p) = Null).
Proof.
  split.
  - revert v. induction p as [|key p IH]; intros v; [done|]. simpl.
    destruct v as [| | | | |members]; try (by rewrite getByPath_Null).
    destruct (own key members); [apply IH|by rewrite getByPath_Null].
  - intros key Hv. simpl. destruct v as [| | | | |members]; try done. by destruct (Hv members).
Qed.

Module LineFacts.

Import Names.

Lemma cons_first_chars (c : ascii) (l : list string) (line : string) (x : ascii) :
  line ∈ JsText.cons_first c l -> x ∈ chars line ->
  x = c \/ exists line', line' ∈ l /\ x ∈ chars line'.
Proof.
  destruct l as [|y l]; simpl.
  - intros ->%list_elem_of_singleton. simpl.
    intros [->|?%elem_of_nil]%elem_of_cons; [by left|done].
  - intros [->|Hl]%elem_of_cons.
    + simpl. intros [->|Hx]%elem_of_cons; [by left|]. right. exists y. split; [by left|done].
    + intros Hx. right. exists line. split; [by right|done].
Qed.

Lemma split_lines_no_LF_aux (n : nat) (s line : string) :
  (String.length s <= n)%nat ->
  line ∈ JsText.split_lines s -> JsText.LF ∉ chars line.
Proof.
  revert s line. induction n as [|n IH]; intros s line Hlen.
  - destruct s; [|simpl in Hlen; lia]. simpl.
    intros ->%list_elem_of_singleton. by intros ?%elem_of_nil.
  - destruct s as [|c r].
    { simpl. intros ->%list_elem_of_singleton. by intros ?%elem_of_nil. }
    simpl in Hlen. cbn [JsText.split_lines].
    destruct (Ascii.eqb_spec c JsText.LF) as [->|Hc].
    { intros [->|Hl]%elem_of_cons; [by intros ?%elem_of_nil|]. apply (IH r); [lia|done]. }
    destruct r as [|d r'].
    { intros ->%list_elem_of_singleton. simpl.
      intros [Heq|?%elem_of_nil]%elem_of_cons; [by symmetry in Heq|done]. }
    destruct (Ascii.eqb c JsText.CR && Ascii.eqb d JsText.LF).
    { intros [->|Hl]%elem_of_cons; [by intros ?%elem_of_nil|].
      apply (IH r'); [simpl in Hlen; lia|done]. }
    intros Hl Hx. destruct (cons_first_chars _ _ _ _ Hl Hx) as [Heq|(line' & Hl' & Hx')].
    + by symmetry in Heq.
    + revert Hx'. apply (IH (String d r')); [lia|done].
Qed.

Lemma split_lines_no_LF (s line : string) :
  line ∈ JsText.split_lines s -> JsText.LF ∉ chars line.
Proof. by apply (split_lines_no_LF_aux (String.length s)). Qed.

Lemma loop_spec (lines : list string) :
  (firstNonEmptyLine_loop lines = "" /\ forall l, l ∈ lines -> Js.trim l = "") \/
  (exists before l after,
     lines = before ++ l :: after /\
     (forall b, b ∈ before -> Js.trim b = "") /\
     Js.trim l <> "" /\
     firstNonEmptyLine_loop lines = Js.trim l).
Proof.
  induction lines as [|l lines IH].
  - left. split; [done|]. by intros l ?%elem_of_nil.
  - simpl. destruct (String.eqb_spec (Js.trim l) "") as [Hl|Hl].
    + destruct IH as [[Hr Hall]|(before & l' & after & -> & Hb & Hl' & Hr)].
      * left. split; [done|]. intros x [->|Hx]%elem_of_cons; [done|by apply Hall].
      * right. exists (l :: before), l', after. split_and!; try done.
        intros b [->|?]%elem_of_cons; [done|by apply Hb].
    + right. exists [], l, lines. split_and!; try done. by intros b ?%elem_of_nil.
Qed.

End LineFacts.

(** [firstNonEmptyLine] gives the first line that is not blank, trimmed,
    and the empty string exactly when every line is blank. What it gives
    has no white space at either end and holds no line feed. *)
Theorem firstNonEmptyLine_is_first (text : string) :
  let r := firstNonEmptyLine text in
  Js.trim r = r /\
  (JsText.LF ∉ String.list_ascii_of_string r) /\
  (r = "" <-> forall l, l ∈ JsText.split_lines text -> Js.trim l = "") /\
  (r <> "" ->
   exists before l after,
     JsText.split_lines text = before ++ l :: after /\
     (forall b, b ∈ before -> Js.trim b = "") /\
     r = Js.trim l).
Proof.
  intros r. unfold r, firstNonEmptyLine.
  destruct (LineFacts.loop_spec (JsText.split_lines text))
    as [[Hr Hall]|(before & l & after & Hsplit & Hb & Hl & Hr)].
  - rewrite Hr. split_and!; try done. by intros ?%elem_of_nil.
  - rewrite Hr. split_and!.
    + apply Space.trim_idem.
    + intros Hx%Space.chars_trim. revert Hx. apply (LineFacts.split_lines_no_LF text).
      rewrite Hsplit. apply elem_of_app. right. by left.
    + split; [done|]. intros Hall. apply Hall. rewrite Hsplit.
      apply elem_of_app. right. by left.
    + intros _. exists before, l, after. by rewrite <- Hsplit.
Qed.

(** ** render/markdown.js: heading ids *)

Module HeadingFacts.

Import Names.

Lemma suffixed_inj (base : string) (n m : N) : suffixed base n = suffixed base m -> n = m.
Proof.
  unfold suffixed. intros Heq%(f_equal chars). rewrite !chars_append in Heq.
  apply app_inv_head in Heq. simpl in Heq. injection Heq as Heq.
  apply chars_inj in Heq. by apply (inj pretty).
Qed.

Lemma suffixed_neq (base : string) (n : N) : suffixed base n <> base.
Proof.
  unfold suffixed. intros Heq%(f_equal String.length).
  rewrite !length_append in Heq. simpl in Heq. lia.
Qed.

(** The candidates after the first, from suffix [n] on. *)
Lemma candidates_NoDup (base : string) (n : N) (k : nat) :
  NoDup ((fun i => suffixed base (n + N.of_nat i)) <$> seq 0 k).
Proof.
  apply NoDup_fmap_2; [|apply NoDup_seq].
  intros i j Heq%suffixed_inj. lia.
Qed.

Lemma loop_none (fuel : nat) (base : string) (usedIds : gset string) (id : string) (n : N) :
  allocateHeadingId_loop fuel base usedIds id n = None ->
  id ∈ usedIds /\
  forall i, (i < fuel)%nat -> suffixed base (n + N.of_nat i) ∈ usedIds.
Proof.
  revert id n. induction fuel as [|fuel IH]; intros id n; simpl.
  - case_bool_decide; [|done]. intros _. split; [done|]. intros i Hi. lia.
  - case_bool_decide as Hid; [|done]. intros [Hn Hrest]%IH. split; [done|].
    intros [|i] Hi.
    + by rewrite N.add_0_r.
    + replace (n + N.of_nat (S i))%N with (n + 1 + N.of_nat i)%N by lia.
      apply Hrest. lia.
Qed.

Lemma loop_some (fuel : nat) (base : string) (usedIds : gset string) (id r : string) (n : N) :
  allocateHeadingId_loop fuel base usedIds id n = Some r ->
  (r ∉ usedIds) /\
  (r = id \/
   id ∈ usedIds /\
   exists k : N,
     (n <= k)%N /\ r = suffixed base k /\
     forall m, (n <= m < k)%N -> suffixed base m ∈ usedIds).
Proof.
  revert id n. induction fuel as [|fuel IH]; intros id n; simpl.
  - case_bool_decide; [done|]. intros [= <-]. auto.
  - case_bool_decide as Hid; [|intros [= <-]; auto].
    intros [Hr [->|(Hn & k & Hk & -> & Hbelow)]]%IH; split; try done; right; split; try done.
    + exists n. split_and!; [lia|done|]. intros m Hm. lia.
    + exists k. split_and!; [lia|done|]. intros m Hm.
      destruct (decide (m = n)) as [->|]; [done|]. apply Hbelow. lia.
Qed.

(** The loop ends before its rounds run out: a set cannot hold the first
    candidate and as many others as it has elements. *)
Lemma loop_ends (base : string) (usedIds : gset string) :
  allocateHeadingId_loop (stdpp.base.size usedIds) base usedIds base 2%N <> None.
Proof.
  intros [Hbase Hrest]%loop_none.
  set (l := base :: ((fun i => suffixed base (2 + N.of_nat i)) <$> seq 0 (stdpp.base.size usedIds))).
  assert (NoDup l) as Hnd.
  { constructor; [|apply candidates_NoDup].
    intros (i & Heq & _)%list_elem_of_fmap. symmetry in Heq. by apply suffixed_neq in Heq. }
  assert (list_to_set l ⊆ usedIds) as Hsub.
  { intros x Hx%elem_of_list_to_set. unfold l in Hx.
    apply elem_of_cons in Hx as [->|(i & -> & Hi%elem_of_seq)%list_elem_of_fmap]; [done|].
    apply Hrest. lia. }
  apply subseteq_size in Hsub. rewrite size_list_to_set in Hsub by done.
  unfold l in Hsub. simpl in Hsub. rewrite length_fmap, length_seq in Hsub. lia.
Qed.

End HeadingFacts.

Section Headings.
Variable slugifyHeading : string -> string.

(** [allocateHeadingId] always returns, with an id that the set did not
    hold and that it adds to the set: the base when that is free, and else
    the base with the least suffix from 2 on that makes it free. *)
Theorem allocateHeadingId_fresh (level : N) (title : string) (usedIds : gset string) :
  let base := heading_base slugifyHeading level title in
  exists id : string,
    allocateHeadingId slugifyHeading level title usedIds = Some (id, {[id]} ∪ usedIds) /\
    (id ∉ usedIds) /\
    (id = base \/
     base ∈ usedIds /\
     exists n : N,
       (2 <= n)%N /\ id = suffixed base n /\
       forall m, (2 <= m < n)%N -> suffixed base m ∈ usedIds).
Proof.
  intros base. unfold allocateHeadingId. fold base.
  destruct (allocateHeadingId_loop _ base usedIds base 2%N) as [id|] eqn:Hloop.
  - exists id. split; [done|]. by apply HeadingFacts.loop_some in Hloop.
  - by apply HeadingFacts.loop_ends in Hloop.
Qed.

Lemma heading_ids_from (headings : list (N * string)) (usedIds : gset string) :
  exists ids : list string,
    heading_ids slugifyHeading headings usedIds = Some ids /\
    length ids = length headings /\
    NoDup ids /\
    forall id, id ∈ ids -> id ∉ usedIds.
Proof.
  revert usedIds. induction headings as [|[level title] headings IH]; intros usedIds.
  - exists []. split_and!; try done; [constructor|]. by intros id ?%elem_of_nil.
  - simpl.
    destruct (allocateHeadingId slugifyHeading level title usedIds) as [[id used']|] eqn:Hid.
    + unfold allocateHeadingId in Hid.
      destruct (allocateHeadingId_loop _ _ usedIds _ 2%N) as [id'|] eqn:Hloop; [|done].
      injection Hid as -> <-.
      apply HeadingFacts.loop_some in Hloop as [Hfresh _].
      destruct (IH ({[id]} ∪ usedIds)) as (ids & -> & Hlen & Hnd & Hnew).
      exists (id :: ids). simpl. split_and!; try done.
      * by rewrite Hlen.
      * constructor; [|done]. intros Hin%Hnew. set_solver.
      * intros x [->|Hx%Hnew]%elem_of_cons; [done|]. set_solver.
    + unfold allocateHeadingId in Hid.
      destruct (allocateHeadingId_loop _ _ usedIds _ 2%N) as [id'|] eqn:Hloop; [done|].
      by apply HeadingFacts.loop_ends in Hloop.
Qed.

(** The headings of one text get ids that differ from each other, however
    many titles repeat: each call works on the set the one before left. *)
Theorem heading_ids_distinct (headings : list (N * string)) :
  exists ids : list string,
    heading_ids slugifyHeading headings ∅ = Some ids /\
    length ids = length headings /\
    NoDup ids.
Proof.
  destruct (heading_ids_from headings ∅) as (ids & Hids & Hlen & Hnd & _). eauto.
Qed.

End Headings.

(** ** What an ingest may touch *)

Section Frame.
Context {rt : JsRuntime}.

Lemma enforceRetention_shrinks (cfg : config) (w : world) (n : string) :
  files (enforceRetention cfg w) !! n = None \/
  files (enforceRetention cfg w) !! n = files w !! n.
Proof.
  unfold enforceRetention. destruct (maxRecords cfg <=? 0); [by right|].
  apply (foldl_evict_lookup _ (call Readdir w) n).
Qed.

Lemma rename_other (fault : bool) (p q n : string) (w w' : world) (ok : bool) :
  rename fault p q w = (ok, w') -> n <> p -> n <> q ->
  files w' !! n = files w !! n.
Proof.
  unfold rename. simpl. intros Hr Hp Hq.
  destruct (files w !! p); [|by injection Hr as _ <-].
  destruct fault; injection Hr as _ <-; [done|]. simpl.
  by rewrite lookup_insert_ne, lookup_delete_ne.
Qed.

Lemma writeFile_other (fault : bool) (p n : string) (d : list byte) (w w' : world)
    (ok : bool) :
  writeFile fault p d w = (ok, w') -> n <> p -> files w' !! n = files w !! n.
Proof.
  unfold writeFile. simpl. intros Hw Hp.
  destruct fault; injection Hw as _ <-; [done|]. simpl. by rewrite lookup_insert_ne.
Qed.

Lemma writeBodyToFile_other (cfg : config) (io : faults) (req : request)
    (out n : string) (maxBytes : Z) (expected : option Z) (w w' : world)
    (res : failure + writeResult) :
  writeBodyToFile cfg io req out maxBytes expected w = (res, w') -> n <> out ->
  files w' !! n = files w !! n.
Proof.
  intros Hwb%writeBodyToFile_frame Hn.
  rewrite <- (lookup_delete_ne (files w') out n), Hwb by done. by apply lookup_delete_ne.
Qed.

(** Whatever the outcome of an ingest, an answer of any status or an
    exception, every entry of the directory other than the four names of
    that ingest is left with the content it had, or is removed by
    retention: no other entry is created or rewritten. *)
Theorem ingest_keeps_to_its_names (cfg : config) (env : ambient) (req : request)
    (w : world) (n : string) :
  n <> recordNameOf env -> n <> bodyNameOf env ->
  n <> tmpRecordPath env -> n <> tmpBodyPath env ->
  let w' := (handlePostWebhook cfg env req w).2 in
  files w' !! n = files w !! n \/ (files w' !! n = None /\ is_Some (files w !! n)).
Proof.
  intros Hrec Hbody Htmprec Htmpbody. cbv zeta. unfold handlePostWebhook.
  destruct (requireToken cfg req); [by left|].
  destruct (declaredLength req) as [[]|expected]; [by left|].
  destruct (match expected with Some e => e <=? 0 | None => false end); [by left|].
  destruct (match expected with Some e => e >? maxBody cfg | None => false end); [by left|].
  fold (tmpBodyPath env). fold (tmpRecordPath env).
  destruct (writeBodyToFile _ _ _ _ _ _ _) as [[err|wr] w1] eqn:Hwb;
    apply (writeBodyToFile_other _ _ _ _ n) in Hwb; try done; simpl in Hwb.
  { left. assert (files (unlink (tmpBodyPath env) w1) !! n = files w !! n) as Hun.
    { simpl. by rewrite lookup_delete_ne. }
    by destruct err. }
  destruct (written wr <=? 0).
  { left. simpl. by rewrite lookup_delete_ne. }
  destruct (match expected with Some e => negb (written wr =? e) | None => false end).
  { left. simpl. by rewrite lookup_delete_ne. }
  destruct (rename _ _ _ w1) as [ok3 w3] eqn:Hr1.
  apply (rename_other _ _ _ n) in Hr1; try done.
  destruct ok3; [|left; simpl; congruence].
  destruct (sniff _ _) as [[j t] b].
  destruct (writeFile _ _ _ w3) as [ok4 w4] eqn:Hwf.
  apply (writeFile_other _ _ n) in Hwf; try done.
  destruct ok4; [|left; simpl; congruence].
  destruct (rename _ _ _ w4) as [ok5 w5] eqn:Hr2.
  apply (rename_other _ _ _ n) in Hr2; try done.
  destruct ok5; [|left; simpl; congruence].
  simpl. assert (files w5 !! n = files w !! n) as Hsame by congruence.
  destruct (enforceRetention_shrinks cfg w5 n) as [Hgone|Hkept].
  - destruct (files w !! n) as [d|] eqn:Hn.
    + right. split; [done|eauto].
    + left. congruence.
  - left. congruence.
Qed.

End Frame.

Lemma ingest_keeps_to_its_names_witness :
  let env := Sample.env 3 x07 record_write_fails in
  let w' := (handlePostWebhook (rt := Sample.runtime) (Sample.cfg 2) env sample_post
               after_three).2 in
  files w' !! "20260129T061802Z-000000000000.body" =
    files after_three !! "20260129T061802Z-000000000000.body" \/
  (files w' !! "20260129T061802Z-000000000000.body" = None /\
   is_Some (files after_three !! "20260129T061802Z-000000000000.body")).
Proof.
  apply (ingest_keeps_to_its_names (rt := Sample.runtime)); vm_compute; discriminate.
Defined.

(** ** The configuration and the token *)

(** Without a token in the environment the server is closed: whatever a
    request carries, [POST] is answered [500] before any file-system call,
    and so is every page when reading takes a token. *)
Theorem unset_token_closes_the_server `{rt : JsRuntime} (vars : gmap string string)
    (s : site) (env : ambient) (inc : incoming) (w : world) :
  Js.trim (Js.string_or (vars !! "STOCKHOOK_TOKEN") "") = "" ->
  url_parses inc = true ->
  (method inc = "POST" /\ hook_path (url_pathname (message inc)) = true) \/
  (method inc = "GET" /\ Config.readTokenRequired vars = true /\
   (url_pathname (message inc) = "/" \/ url_pathname (message inc) = "/view" \/
    url_pathname (message inc) = "/raw")) ->
  createServer (config_of vars) s env inc w =
    (Text 500 (line "server token not configured"), w).
Proof.
  intros Htoken Hurl Hcase. unfold createServer. rewrite Hurl. simpl negb. cbv iota.
  assert (forall req, requireToken (config_of vars) req =
                        Some (Text 500 (line "server token not configured"))) as Hdenied.
  { intros req. unfold requireToken. simpl token. by rewrite Htoken. }
  destruct Hcase as [[-> Hpath]|(-> & Hreq & Hpath)].
  - simpl String.eqb. cbv iota. rewrite Hpath. simpl negb. cbv iota.
    unfold handlePostWebhook. by rewrite Hdenied.
  - simpl String.eqb. cbv iota.
    destruct Hpath as [-> | [-> | ->]]; simpl String.eqb; simpl orb; cbv iota.
    + unfold handleGetIndex. simpl readTokenRequired. by rewrite Hreq, Hdenied.
    + unfold handleGetView. simpl readTokenRequired. by rewrite Hreq, Hdenied.
    + unfold handleGetRaw. simpl readTokenRequired. by rewrite Hreq, Hdenied.
Qed.

Lemma unset_token_closes_the_server_witness :
  createServer (rt := Sample.runtime)
    (config_of {["STOCKHOOK_TOKEN" := "  "; "STOCKHOOK_MAX_BODY" := "64"]})
    {| mock_file := None; build_mock_html := None |}
    (Sample.env 0 x01 no_faults)
    {| method := "POST"; url_parses := true; message := sample_post |}
    Sample.empty =
    (Text 500 (line "server token not configured"), Sample.empty).
Proof.
  apply (unset_token_closes_the_server (rt := Sample.runtime)); [reflexivity..|].
  left. split; reflexivity.
Defined.

(** ** The content type of a record *)

Module TypeFacts.

Import Names.

Lemma includes_char (c : ascii) (s : string) :
  Js.includes (String c "") s = true -> c ∈ chars s.
Proof.
  induction s as [|x s IH]; [done|]. rewrite JsFacts.includes_cons.
  intros [Hs|Hs]%orb_true_iff; [|right; by apply IH].
  unfold Js.startsWith in Hs. simpl in Hs.
  destruct (ascii_dec c x) as [->|]; [by left|done].
Qed.

(** Up to the first semicolon: a text that holds none is kept, and what
    follows it is cut at its own first semicolon. *)
Lemma before_semicolon_append (t x : string) :
  Js.includes ";" t = false ->
  Js.before_semicolon (t +:+ x) = t +:+ Js.before_semicolon x.
Proof.
  induction t as [|c t IH]; [done|]. rewrite JsFacts.includes_cons, append_cons.
  intros [Hc Ht]%orb_false_iff. simpl.
  destruct (Ascii.eqb_spec c ";") as [->|_]; [|by rewrite IH].
  assert (Js.startsWith ";" (String ";" t) = true) as Hs; [|congruence].
  apply JsFacts.startsWith_cons. split; [done|apply JsFacts.startsWith_nil].
Qed.

End TypeFacts.

(** The content type an ingest records is never empty, has no white space
    at either end, and holds no semicolon. A header that is missing, empty
    or blank before its first semicolon gives [application/octet-stream];
    any other header gives what stands before its first semicolon, trimmed:
    the parameters are dropped. *)
Theorem content_type_is_bare (req : request) :
  contentTypeOf req <> "" /\
  Js.trim (contentTypeOf req) = contentTypeOf req /\
  Js.includes ";" (contentTypeOf req) = false /\
  (Js.blank (Js.before_semicolon (default "" (header_content_type req))) = true ->
   contentTypeOf req = "application/octet-stream") /\
  (forall t params : string,
     header_content_type req = Some t \/
       header_content_type req = Some (t +:+ ";" +:+ params) ->
     Js.includes ";" t = false ->
     Js.blank t = false ->
     contentTypeOf req = Js.trim t).
Proof.
  split_and!.
  - unfold contentTypeOf. cbv zeta. set (t := Js.trim (Js.before_semicolon _)).
    by destruct (String.eqb_spec t "").
  - unfold contentTypeOf. cbv zeta. set (t := Js.trim (Js.before_semicolon _)).
    destruct (String.eqb_spec t "") as [|Hne]; [reflexivity|]. apply Space.trim_idem.
  - destruct (Js.includes ";" _) eqn:Hinc; [|done].
    apply TypeFacts.includes_char in Hinc. by apply contentTypeOf_chars in Hinc.
  - unfold contentTypeOf, Js.string_or. cbv zeta.
    destruct (header_content_type req) as [h|]; [|done]. simpl.
    destruct (String.eqb_spec h "") as [->|_]; [done|].
    intros Hb%Space.trim_nil_blank. by rewrite Hb.
  - intros t params Hh Hsemi Hblank.
    assert (t <> "") as Hne by by intros ->.
    assert (Js.trim t <> "") as Htrim.
    { intros Ht%Space.trim_nil_blank. congruence. }
    assert (Js.before_semicolon (Js.string_or (header_content_type req)
                                   "application/octet-stream") = t) as Hbefore.
    { destruct Hh as [-> | ->]; unfold Js.string_or.
      - destruct (String.eqb_spec t ""); [done|].
        rewrite <- (Names.append_nil_r t) at 1.
        by rewrite TypeFacts.before_semicolon_append, Names.append_nil_r.
      - destruct (String.eqb_spec (t +:+ ";" +:+ params) "") as [He|_].
        { destruct t; [done|]. by rewrite Names.append_cons in He. }
        rewrite TypeFacts.before_semicolon_append by done. simpl.
        apply Names.append_nil_r. }
    unfold contentTypeOf. cbv zeta. rewrite Hbefore.
    by destruct (String.eqb_spec (Js.trim t) "").
Qed.

(** U+00A0 alone gives the default, and a parameter is dropped. *)
Example content_type_samples :
  contentTypeOf (Sample.post (String "194" (String "160" "")) None []) =
    "application/octet-stream" /\
  contentTypeOf (Sample.post " Text/Plain ; charset=utf-8" None []) = "Text/Plain".
Proof. split; reflexivity. Qed.

(** ** Retention by the clock *)

Module ClockFacts.

Lemma lex_lt_trans (a b c : list N) : lex_lt a b -> lex_lt b c -> lex_lt a c.
Proof.
  revert b c. induction a as [|x a IH]; intros [|y b] [|z c]; try done. simpl.
  intros [Hxy|[-> Hab]] [Hyz|[-> Hbc]]; [left; lia|by left|by left|].
  right. split; [done|]. by eapply IH.
Qed.

Lemma earlier_trans (d1 d2 d3 : utc) : earlier d1 d2 -> earlier d2 d3 -> earlier d1 d3.
Proof. apply lex_lt_trans. Qed.

Lemma arrivals_sorted (inputs : list (ambient * request)) :
  Forall (fun i => calendar (stamp_clock i.1)) inputs ->
  Sorted earlier ((fun i => stamp_clock i.1) <$> inputs) ->
  StronglySorted (strict Js.sort_le) (arrivals inputs).
Proof.
  intros Hcal Hsorted.
  apply (@Sorted_StronglySorted _ earlier earlier_trans) in Hsorted.
  induction inputs as [|i inputs IH]; [constructor|].
  rewrite fmap_cons in Hsorted. apply StronglySorted_inv in Hsorted as [Hrest Hall].
  apply Forall_cons in Hcal as [Hi Hcal].
  unfold arrivals. rewrite fmap_cons. constructor; [by apply IH|].
  apply Forall_fmap, Forall_forall. intros j Hj. simpl.
  rewrite Forall_forall in Hall. rewrite Forall_forall in Hcal.
  unfold strict. rewrite !NameChars.recordName_sort_le.
  apply names_strict; [done|by apply Hcal|].
  apply Hall. by apply (list_elem_of_fmap_2 (fun i => stamp_clock i.1)).
Qed.

End ClockFacts.

Section ByTheClock.
Context {rt : JsRuntime}.

(** Start from a directory without documents and run accepted ingests,
    each made at least a second after the one before, under a keep-count
    [N > 0]: the documents left are the [N] latest ingests, newest first,
    whatever the random parts of the names are. *)
Theorem retention_keeps_latest_by_the_clock (cfg : config)
    (inputs : list (ambient * request)) (w w' : world) :
  reads_back ->
  0 < maxRecords cfg ->
  (forall n, ~ is_document w n) ->
  Forall (fun i => calendar (stamp_clock i.1)) inputs ->
  Sorted earlier ((fun i => stamp_clock i.1) <$> inputs) ->
  accepted_run cfg w inputs w' ->
  documents (readdir w').1 =
    take (Z.to_nat (maxRecords cfg)) (reverse (arrivals inputs)).
Proof.
  intros Hback Hkeep Hempty Hcal Hsorted Hrun.
  pose proof (ClockFacts.arrivals_sorted inputs Hcal Hsorted) as Hnames.
  rewrite <- (Order.sorted_reversed_ascending _ Hnames).
  rewrite <- (app_nil_l (arrivals inputs)).
  apply (accepted_run_listing Hback cfg inputs [] w w'); try done.
  - intros n d Hd Hjson. destruct (Hempty n). split; [eauto|done].
  - rewrite listing_nil by done. change (sorted_reversed []) with (@nil string).
    by rewrite take_nil.
  - rewrite app_nil_l. by apply Order.strictly_sorted_NoDup.
Qed.

End ByTheClock.

Lemma retention_keeps_latest_by_the_clock_witness :
  documents (readdir after_three).1 =
    take (Z.to_nat (maxRecords (Sample.cfg 2))) (reverse (arrivals three_ingests)).
Proof.
  apply (retention_keeps_latest_by_the_clock (rt := Sample.runtime) (Sample.cfg 2)
           three_ingests Sample.empty after_three sample_reads_back).
  - reflexivity.
  - intros n [[d Hd] _]. cbn [Sample.empty files] in Hd. by rewrite lookup_empty in Hd.
  - unfold three_ingests. repeat constructor; vm_compute; discriminate.
  - unfold three_ingests. simpl.
    repeat constructor; unfold earlier, clock_fields; simpl;
      (do 5 (right; split; [reflexivity|])); left; reflexivity.
  - repeat (eexists _, _; split; [vm_compute; reflexivity|]). vm_compute. reflexivity.
Defined.

(** ** A stream that breaks *)

Lemma pump_disk_fault (step : Tap.state -> list byte -> failure + Tap.state)
    (ab : bool) (out : string) (i k : nat) (t t' : Tap.state)
    (chunks : list (list byte)) (w w' : world) :
  pump step (Some k) ab out i t chunks w = (inr t', w') ->
  (k < i \/ i + length chunks <= k)%nat.
Proof.
  revert i t w. induction chunks as [|chunk rest IH]; intros i t w; simpl.
  - intros _. lia.
  - destruct (step t chunk) as [e|t1]; [done|].
    case_bool_decide as Hk; [done|].
    intros Hpump%IH. assert (k <> i) by congruence. lia.
Qed.

Section Broken.
Context {rt : JsRuntime}.

(** A request that is authorised and declares a length or none, but whose
    stream ends in an error (the client went away) or whose body meets a
    disk error while it is written, is never accepted: the client is
    answered [400] or [413], or [500] should an exception leave the
    handler, and the directory is left as it was when the temporary blob
    name was free. *)
Theorem broken_stream_is_refused (cfg : config) (env : ambient) (req : request)
    (w : world) (expected : option Z) :
  requireToken cfg req = None ->
  declaredLength req = inr expected ->
  files w !! tmpBodyPath env = None ->
  aborted req = true \/
    (exists k, write_body_fault (io env) = Some k /\ (k < length (chunks req))%nat) ->
  (exists status msg,
     answered (handlePostWebhook cfg env req w).1 = Text status msg /\
     (status = 400 \/ status = 413 \/
      status = 500 /\ (handlePostWebhook cfg env req w).1 = None)) /\
  files (handlePostWebhook cfg env req w).2 = files w.
Proof.
  intros Hauth Hlen Hfree Hbroken. unfold handlePostWebhook. rewrite Hauth, Hlen.
  destruct (match expected with Some e => e <=? 0 | None => false end); [simpl; eauto 10|].
  destruct (match expected with Some e => e >? maxBody cfg | None => false end);
    [simpl; eauto 10|].
  fold (tmpBodyPath env). fold (tmpRecordPath env).
  destruct (writeBodyToFile _ _ _ _ _ _ _) as [[err|wr] w1] eqn:Hwb.
  - pose proof (writeBodyToFile_frame _ _ _ _ _ _ _ _ _ Hwb) as Hframe. simpl in Hframe.
    assert (files (unlink (tmpBodyPath env) w1) = files w) as Hclean.
    { simpl. rewrite Hframe. by apply delete_id. }
    destruct err; simpl; eauto 10.
  - exfalso. destruct Hbroken as [Hab|(k & Hk & Hlt)].
    + apply writeBodyToFile_inr in Hwb as (_ & _ & Hab' & _). congruence.
    + revert Hwb. unfold writeBodyToFile.
      destruct (maxBody cfg <=? 0); [done|]. simpl files at 1.
      destruct (files w !! tmpBodyPath env); [done|].
      destruct (pump _ _ _ _ _ _ _ _) as [[e|t] w2] eqn:Hpump; [done|].
      rewrite Hk in Hpump. apply pump_disk_fault in Hpump. lia.
Qed.

End Broken.

(** A body of two chunks whose second write fails. *)
Lemma broken_stream_is_refused_witness :
  let env := Sample.env 3 x07
               {| write_body_fault := Some 1%nat; rename_body_fault := false;
                  write_record_fault := false; rename_record_fault := false |} in
  let out := handlePostWebhook (rt := Sample.runtime) (Sample.cfg 2) env sample_post
               after_three in
  (exists status msg,
     answered out.1 = Text status msg /\
     (status = 400 \/ status = 413 \/ status = 500 /\ out.1 = None)) /\
  files out.2 = files after_three.
Proof.
  apply (broken_stream_is_refused (rt := Sample.runtime) _ _ _ _ (Some 6)).
  - reflexivity.
  - reflexivity.
  - vm_compute. reflexivity.
  - right. exists 1%nat. split; [reflexivity|]. simpl. lia.
Defined.
